(** * Call-analysis pipeline: statistics aggregator, retry wrapper, batch
      orchestrator and stream consumer

    A shallow embedding of [src/lib/statistics.ts] (the aggregator, the CSV
    export, the provider client with its retry wrapper, the batch
    orchestrator and the report generators), of [src/lib/excelProcessor.ts]
    (validation and transformation of the rows) and of the file selection
    and the stream-reading loop of [src/components/FileUpload.tsx].

    Conventions.
    - A JavaScript string is a [string]: its UTF-8 bytes.
    - Counters are [nat].  The numbers the aggregator computes with
      (durations, percentages, averages) are IEEE 754 binary64 doubles,
      [float], with the primitive operations on them: a sum or a quotient is
      the rounded one, and a duration may be an infinity or NaN.  The
      number of a JSON value or of a spreadsheet cell, which the code only
      passes on, is kept as a rational [Q].
    - A [Map] is an association list in insertion order, the order in which
      [Map.prototype.entries] enumerates it.
    - Asynchronous code is sequential state passing over a [World] that
      records, in order, every log line, sleep, provider request and
      progress notification.  The provider is an oracle of the world: its
      answer depends on the request and on the number of requests sent
      before.
    - One run is followed at a time: [currentModelConfig], a variable of the
      module in the source, is written by nobody else while the run lasts.
    - The callbacks [logCallback] and [onProgress] only record; they do not
      throw.
    - Log texts are given without their emoji and leading blanks, and
      without the parts that depend on the clock, on a character count or
      on the printing of arbitrary values. *)

From Stdlib Require Import List String Ascii Bool Arith ZArith QArith Lia.
From Stdlib Require Import Floats Uint63 Reals Lra.
From Stdlib Require Import Sorting.Sorted Permutation DecimalString DecimalNat.
Import ListNotations.

Close Scope Q_scope.
Open Scope nat_scope.
Open Scope string_scope.
Open Scope list_scope.

(* ================================================================== *)
(** * Part I. Definitions *)
(* ================================================================== *)

(** ** Strings *)

Definition lowerAscii (c : ascii) : ascii :=
  let n := nat_of_ascii c in
  if ((65 <=? n) && (n <=? 90))%nat then ascii_of_nat (n + 32) else c.

(** [String.prototype.toLowerCase] on the ASCII letters.  The aggregator only
    compares the lowered text with "positive" and "negative"; a character
    outside ASCII never lowers to one of their letters, so the comparison is
    the same as with the full Unicode mapping. *)
Fixpoint toLowerCase (s : string) : string :=
  match s with
  | EmptyString => EmptyString
  | String c s' => String (lowerAscii c) (toLowerCase s')
  end.

(** ** Statistics aggregator ([calculateStatistics]) *)

Record CallData := mkCallData {
  id : string;
  phone : string;
  customer : string;
  date : string;
  duration : float;
  transcript : string;
  callReason : option string;
  issuesDiscussed : option string;
  sentiment : option string;
  outcome : option string;
  categories : list string;
  aiAnalysis : option string
}.

Record SentimentCounts := mkSentimentCounts {
  positive : nat;
  neutral : nat;
  negative : nat
}.

(** The value stored in [categoryMap] for one category. *)
Record CategoryData := mkCategoryData {
  cd_count : nat;
  cd_customers : list string;
  cd_sentiment : SentimentCounts
}.

Record CategoryStat := mkCategoryStat {
  category : string;
  count : nat;
  percentage : float;
  cs_sentiment : SentimentCounts
}.

Record Summary := mkSummary {
  answerRate : float;
  avgDuration : float;
  totalDuration : float;
  sentimentDistribution : SentimentCounts;
  topCategories : list string
}.

Record AnalysisData := mkAnalysisData {
  totalCalls : nat;
  categorizedCalls : nat;
  ad_categories : list CategoryStat;
  calls : list CallData;
  summary : Summary;
  timestamp : string
}.

(** [Map.prototype.has], [get] and [set] on an insertion-ordered map: [set]
    on a present key keeps the key's position, on an absent key appends. *)
Fixpoint map_has {V} (k : string) (m : list (string * V)) : bool :=
  match m with
  | [] => false
  | (k', _) :: m' => if String.eqb k k' then true else map_has k m'
  end.

Fixpoint map_get {V} (k : string) (m : list (string * V)) : option V :=
  match m with
  | [] => None
  | (k', v) :: m' => if String.eqb k k' then Some v else map_get k m'
  end.

Fixpoint map_set {V} (k : string) (v : V) (m : list (string * V))
  : list (string * V) :=
  match m with
  | [] => [(k, v)]
  | (k', v') :: m' =>
      if String.eqb k k' then (k, v) :: m' else (k', v') :: map_set k v m'
  end.

(** [Set.prototype.add]. *)
Definition set_add (x : string) (s : list string) : list string :=
  if existsb (String.eqb x) s then s else s ++ [x].

(** [call.sentiment?.toLowerCase() || "neutral"]. *)
Definition sentimentOf (call : CallData) : string :=
  match sentiment call with
  | None => "neutral"
  | Some s => let l := toLowerCase s in if String.eqb l "" then "neutral" else l
  end.

Definition bumpSentiment (s : string) (t : SentimentCounts) : SentimentCounts :=
  if String.eqb s "positive"
  then mkSentimentCounts (S (positive t)) (neutral t) (negative t)
  else if String.eqb s "negative"
  then mkSentimentCounts (positive t) (neutral t) (S (negative t))
  else mkSentimentCounts (positive t) (S (neutral t)) (negative t).

Definition emptyCategory : CategoryData :=
  mkCategoryData 0 [] (mkSentimentCounts 0 0 0).

(** Body of the inner [call.categories.forEach]. *)
Definition touchCategory (call : CallData)
  (categoryMap : list (string * CategoryData)) (cat : string)
  : list (string * CategoryData) :=
  let m := if map_has cat categoryMap then categoryMap
           else map_set cat emptyCategory categoryMap in
  match map_get cat m with
  | Some stat =>
      map_set cat
        (mkCategoryData (S (cd_count stat))
           (set_add (phone call) (cd_customers stat))
           (bumpSentiment (sentimentOf call) (cd_sentiment stat)))
        m
  | None => m
  end.

(** The outer [calls.forEach]. *)
Definition buildCategoryMap (cs : list CallData) : list (string * CategoryData) :=
  fold_left (fun m call => fold_left (touchCategory call) (categories call) m)
            cs [].

(** [Array.prototype.sort] with a comparator: the sort is stable, so it is
    the insertion of each element, last first, before the first element it
    does not have to follow. *)
Fixpoint sort_insert {A} (cmp : A -> A -> Z) (x : A) (l : list A) : list A :=
  match l with
  | [] => [x]
  | y :: l' => if (cmp x y <=? 0)%Z then x :: l else y :: sort_insert cmp x l'
  end.

Definition array_sort {A} (cmp : A -> A -> Z) (l : list A) : list A :=
  fold_right (sort_insert cmp) [] l.

(** [(a, b) => b.count - a.count]. *)
Definition byCountDesc (a b : CategoryStat) : Z :=
  (Z.of_nat (count b) - Z.of_nat (count a))%Z.

(** The number [n] as a double: [count] and [calls.length] are integers
    below 2^32, which the conversion leaves as they are. *)
Definition ofNat (n : nat) : float :=
  PrimFloat.of_uint63 (Uint63.of_Z (Z.of_nat n)).

(** [(count / length) * 100], in doubles. *)
Definition percentOf (count len : nat) : float :=
  (ofNat count / ofNat len * 100)%float.

Definition toStat (len : nat) (e : string * CategoryData) : CategoryStat :=
  mkCategoryStat (fst e) (cd_count (snd e))
    (percentOf (cd_count (snd e)) len)
    (cd_sentiment (snd e)).

Definition sortedCategories (cs : list CallData) : list CategoryStat :=
  array_sort byCountDesc (map (toStat (List.length cs)) (buildCategoryMap cs)).

(** [calls.reduce((sum, call) => sum + call.duration, 0)]. *)
Definition sumDuration (cs : list CallData) : float :=
  fold_left (fun sum call => (sum + duration call)%float) cs 0%float.

Definition countSentiments (cs : list CallData) : SentimentCounts :=
  fold_left (fun t call => bumpSentiment (sentimentOf call) t) cs
            (mkSentimentCounts 0 0 0).

(** [calculateStatistics]; [now] is the value of [new Date().toISOString()]
    when the function returns. *)
Definition calculateStatistics (now : string) (cs : list CallData)
  : AnalysisData :=
  let cats := sortedCategories cs in
  let total := sumDuration cs in
  let avg := if (0 <? List.length cs)%nat
             then (total / ofNat (List.length cs))%float else 0%float in
  mkAnalysisData (List.length cs) (List.length cs) cats cs
    (mkSummary 100%float avg total (countSentiments cs)
       (map category (firstn 10 cats)))
    now.

(** ** More strings *)

Definition newline : string := String (ascii_of_nat 10) EmptyString.

Definition string_of_nat (n : nat) : string :=
  NilZero.string_of_uint (Nat.to_uint n).

Definition string_of_Z (z : Z) : string :=
  NilZero.string_of_int (Z.to_int z).

(** [String.prototype.includes]. *)
Fixpoint includes (s sub : string) : bool :=
  if String.prefix sub s then true
  else match s with
       | EmptyString => false
       | String _ s' => includes s' sub
       end.

Definition string_rev (s : string) : string :=
  string_of_list_ascii (rev (list_ascii_of_string s)).

Definition bytes (l : list nat) : string :=
  string_of_list_ascii (map ascii_of_nat l).

(** The WhiteSpace and LineTerminator code points of ECMAScript, in UTF-8:
    TAB, LF, VT, FF, CR, SP, U+00A0, U+1680, U+2000..U+200A, U+2028, U+2029,
    U+202F, U+205F, U+3000, U+FEFF. *)
Definition whiteSpace : list string :=
  map bytes
    [[9]; [10]; [11]; [12]; [13]; [32]; [194; 160]; [225; 154; 128];
     [226; 128; 128]; [226; 128; 129]; [226; 128; 130]; [226; 128; 131];
     [226; 128; 132]; [226; 128; 133]; [226; 128; 134]; [226; 128; 135];
     [226; 128; 136]; [226; 128; 137]; [226; 128; 138]; [226; 128; 168];
     [226; 128; 169]; [226; 128; 175]; [226; 129; 159]; [227; 128; 128];
     [239; 187; 191]].

(** Byte length of the first of [pats] that starts [s], 0 if none does. *)
Fixpoint leadLength (pats : list string) (s : string) : nat :=
  match pats with
  | [] => 0
  | p :: pats' => if String.prefix p s then String.length p
                  else leadLength pats' s
  end.

(** Drops every leading occurrence of one of [pats]; [skip] counts the bytes
    of the current occurrence still to drop. *)
Fixpoint stripLeading (pats : list string) (skip : nat) (s : string) : string :=
  match s with
  | EmptyString => EmptyString
  | String c s' =>
      match skip with
      | S k => stripLeading pats k s'
      | O => match leadLength pats s with
             | O => s
             | S k => stripLeading pats k s'
             end
      end
  end.

Definition trimStart (s : string) : string := stripLeading whiteSpace 0 s.

Definition trimEnd (s : string) : string :=
  string_rev (stripLeading (map string_rev whiteSpace) 0 (string_rev s)).

(** [String.prototype.trim]. *)
Definition trim (s : string) : string := trimEnd (trimStart s).

(** [s.replace(/pat\n?/g, "")] for a literal, non-empty [pat]. *)
Fixpoint removeAll (pat : string) (skip : nat) (s : string) : string :=
  match s with
  | EmptyString => EmptyString
  | String c s' =>
      match skip with
      | S k => removeAll pat k s'
      | O =>
          if String.prefix pat s
          then (if String.prefix (pat ++ newline) s
                then removeAll pat (String.length pat) s'
                else removeAll pat (String.length pat - 1) s')
          else String c (removeAll pat 0 s')
      end
  end.

(** The suffix of [s] that starts at its first opening brace. *)
Fixpoint fromFirstBrace (s : string) : option string :=
  match s with
  | EmptyString => None
  | String c s' => if Ascii.eqb c "{" then Some s else fromFirstBrace s'
  end.

(** The prefix of [s] that ends at its last closing brace. *)
Fixpoint toLastBrace (s : string) : option string :=
  match s with
  | EmptyString => None
  | String c s' =>
      match toLastBrace s' with
      | Some p => Some (String c p)
      | None => if Ascii.eqb c "}" then Some (String c EmptyString) else None
      end
  end.

(** [s.match(/\{[\s\S]*\}/)]: from the first opening brace to the last
    closing brace after it. *)
Definition jsonMatch (s : string) : option string :=
  match fromFirstBrace s with
  | None => None
  | Some t => toLastBrace t
  end.

(** [text.trim().replace(/```json\n?/g, "").replace(/```\n?/g, "").trim()]. *)
Definition stripFences (text : string) : string :=
  trim (removeAll "```" 0 (removeAll "```json" 0 (trim text))).

(** ** JSON values *)

#[warnings="-register-all"] Inductive JValue :=
| JNull
| JBool (b : bool)
| JNum (q : Q)
| JStr (s : string)
| JArr (items : list JValue)
| JObj (fields : list (string * JValue)).

(** [v.k] for a value that is not null: [None] is [undefined]. *)
Definition getProp (v : JValue) (k : string) : option JValue :=
  match v with
  | JObj fields => map_get k fields
  | _ => None
  end.

Definition truthy (v : option JValue) : bool :=
  match v with
  | None | Some JNull => false
  | Some (JBool b) => b
  | Some (JNum q) => negb (Qeq_bool q 0)
  | Some (JStr s) => negb (String.eqb s "")
  | Some (JArr _) | Some (JObj _) => true
  end.

Definition isJStr (s : string) (v : JValue) : bool :=
  match v with
  | JStr s' => String.eqb s s'
  | _ => false
  end.

(** ** The world of the server side *)

Inductive Provider := gemini | groq.

Record ModelConfig := mkModelConfig {
  provider : Provider;
  model : string
}.

Definition providerName (p : Provider) : string :=
  match p with gemini => "gemini" | groq => "groq" end.

(** What a request to the provider is built from (the fixed instruction text
    of the prompts is left out). *)
Inductive Prompt :=
| ClassifyPrompt (transcript : string) (callReason issuesDiscussed : option string)
| ReportPrompt (data : AnalysisData)
| SummaryPrompt (data : AnalysisData).

Record Request := mkRequest {
  rq_provider : Provider;
  rq_model : string;
  rq_prompt : Prompt
}.

(** A thrown value: [status] and [errorData.error.code] are [None] for a
    plain [new Error(message)]. *)
Record JsError := mkJsError {
  status : option Z;
  message : string;
  errorCode : option string
}.

Definition Error (msg : string) : JsError := mkJsError None msg None.

(** What the Groq endpoint does with a request: a 2xx answer with
    [choices[0]?.message?.content], another status with its JSON body, or a
    failure of [fetch] itself. *)
Inductive GroqReply :=
| GroqOk (content : option string)
| GroqHttpError (httpStatus : Z) (statusText : string)
    (errorMessage errorDataCode : option string)
| GroqThrows (e : JsError).

(** What the Gemini SDK does with a request. *)
Inductive GeminiReply :=
| GeminiText (text : string)
| GeminiThrows (e : JsError).

Inductive Severity := info | success | warning | error | progress.

(** Everything the server side does that can be observed from outside. *)
Inductive Event :=
| EvLog (msg : string) (type : Severity)
| EvSleep (ms : Z)
| EvRequest (r : Request)
| EvProgress (current total : nat).

(** [groqServer n r] is the answer to request [r] when [n] requests were
    sent before it.  [stopRequested] tells that the user asked to stop the
    analysis. *)
Record World := mkWorld {
  currentModelConfig : option ModelConfig;
  GROQ_API_KEY : string;
  GEMINI_API_KEY : string;
  groqServer : nat -> Request -> GroqReply;
  geminiServer : nat -> Request -> GeminiReply;
  stopRequested : bool;
  trace : list Event
}.

Definition emit (ev : Event) (w : World) : World :=
  mkWorld (currentModelConfig w) (GROQ_API_KEY w) (GEMINI_API_KEY w)
    (groqServer w) (geminiServer w) (stopRequested w) (trace w ++ [ev]).

Definition isRequest (ev : Event) : bool :=
  match ev with EvRequest _ => true | _ => false end.

Definition requestsOf (t : list Event) : list Request :=
  flat_map (fun ev => match ev with EvRequest r => [r] | _ => [] end) t.

Definition sleepsOf (t : list Event) : list Z :=
  flat_map (fun ev => match ev with EvSleep ms => [ms] | _ => [] end) t.

(** ** A state and exception monad *)

Inductive Outcome (A : Type) :=
| Returns (a : A)
| Throws (e : JsError).
Arguments Returns {A} a.
Arguments Throws {A} e.

Definition M (A : Type) : Type := World -> Outcome A * World.

Definition ret {A} (a : A) : M A := fun w => (Returns a, w).

Definition throw {A} (e : JsError) : M A := fun w => (Throws e, w).

Definition bind {A B} (c : M A) (k : A -> M B) : M B :=
  fun w => match c w with
           | (Returns a, w') => k a w'
           | (Throws e, w') => (Throws e, w')
           end.

Notation "x <- c ;; k" := (bind c (fun x => k))
  (at level 61, c at next level, right associativity).
Notation "c ;;; k" := (bind c (fun _ => k))
  (at level 61, right associativity).

(** [console.log(msg); logCallback?.(msg, type)]. *)
Definition log (msg : string) (type : Severity) : M unit :=
  fun w => (Returns tt, emit (EvLog msg type) w).

(** [await new Promise((resolve) => setTimeout(resolve, ms))]. *)
Definition sleep (ms : Z) : M unit :=
  fun w => (Returns tt, emit (EvSleep ms) w).

Definition notifyProgress (current total : nat) : M unit :=
  fun w => (Returns tt, emit (EvProgress current total) w).

(** ** Provider client *)

Definition defaultModelConfig : ModelConfig :=
  mkModelConfig groq "llama-3.3-70b-versatile".

Definition setModelConfig (config : ModelConfig) : M unit :=
  fun w => (Returns tt,
            mkWorld (Some config) (GROQ_API_KEY w) (GEMINI_API_KEY w)
              (groqServer w) (geminiServer w) (stopRequested w) (trace w)).

Definition getModelConfig : M ModelConfig :=
  fun w => match currentModelConfig w with
           | None => (Returns defaultModelConfig, w)
           | Some config => (Returns config, w)
           end.

(** [a || b] on strings. *)
Definition orElse (a : option string) (b : string) : string :=
  match a with
  | Some s => if String.eqb s "" then b else s
  | None => b
  end.

Definition callGroqAPI (prompt : Prompt) (model : string) : M string :=
  fun w =>
    if String.eqb (GROQ_API_KEY w) ""
    then (Throws (Error "GROQ_API_KEY is not set. Please set it in your environment variables."), w)
    else
      let r := mkRequest groq model prompt in
      let w' := emit (EvRequest r) w in
      match groqServer w (List.length (requestsOf (trace w))) r with
      | GroqOk content => (Returns (orElse content ""), w')
      | GroqHttpError st statusText errorMessage errorDataCode =>
          (Throws (mkJsError (Some st)
                     (orElse errorMessage
                        ("HTTP " ++ string_of_Z st ++ ": " ++ statusText)%string)
                     errorDataCode), w')
      | GroqThrows e => (Throws e, w')
      end.

Definition callGeminiAPI (prompt : Prompt) (model : string) : M string :=
  fun w =>
    if String.eqb (GEMINI_API_KEY w) ""
    then (Throws (Error "GEMINI_API_KEY is not set. Please set it in your environment variables."), w)
    else
      let r := mkRequest gemini model prompt in
      let w' := emit (EvRequest r) w in
      match geminiServer w (List.length (requestsOf (trace w))) r with
      | GeminiText text => (Returns text, w')
      | GeminiThrows e => (Throws e, w')
      end.

(** [if (config.provider === "gemini") ... else ...]. *)
Definition callProvider (config : ModelConfig) (prompt : Prompt) : M string :=
  match provider config with
  | gemini => callGeminiAPI prompt (model config)
  | groq => callGroqAPI prompt (model config)
  end.

(** ** Retry wrapper ([retryWithBackoff]) *)

Definition statusIs (e : JsError) (n : Z) : bool :=
  match status e with
  | Some s => Z.eqb s n
  | None => false
  end.

(** [error?.status >= 500 && error?.status < 600]. *)
Definition isServerError (e : JsError) : bool :=
  match status e with
  | Some s => (500 <=? s)%Z && (s <? 600)%Z
  | None => false
  end.

(** The test of the context-length branch. *)
Definition contextLengthExceeded (e : JsError) : bool :=
  statusIs e 400 &&
  ((match errorCode e with
    | Some c => String.eqb c "context_length_exceeded"
    | None => false
    end)
   || includes (message e) "length" || includes (message e) "context").

(** [`${error.status}`]. *)
Definition statusText (e : JsError) : string :=
  match status e with
  | Some s => string_of_Z s
  | None => "undefined"
  end.

(** [Math.min(base * Math.pow(2, retryCount), cap)]. *)
Definition backoffDelay (base cap : Z) (retryCount : nat) : Z :=
  Z.min (base * 2 ^ Z.of_nat retryCount) cap.

Definition rateLimitDelay : nat -> Z := backoffDelay 5000 90000.
Definition overloadDelay : nat -> Z := backoffDelay 10000 180000.
Definition serverErrorDelay : nat -> Z := backoffDelay 15000 120000.

(** ["Retrying after ${retryDelay / 1000} seconds... (Attempt ${retryCount + 1}/${maxRetries})"]. *)
Definition retryText (delay : Z) (retryCount maxRetries : nat) : string :=
  ("Retrying after " ++ string_of_Z (delay / 1000) ++ " seconds... (Attempt "
   ++ string_of_nat (retryCount + 1) ++ "/" ++ string_of_nat maxRetries ++ ")"
  )%string.

Definition tooLargeError : JsError :=
  Error "The data is too large to process. Please try with fewer calls or contact support.".

(** The body of [retryWithBackoff].  [remaining] is [maxRetries - retryCount],
    the number of recursive calls the test [retryCount < maxRetries] still
    allows; it is the argument the recursion descends on. *)
Fixpoint retryFrom {A} (fn : M A) (remaining maxRetries retryCount : nat)
  {struct remaining} : M A :=
  fun w =>
    match fn w with
    | (Returns a, w1) => (Returns a, w1)
    | (Throws e, w1) =>
        let shouldRetry := (retryCount <? maxRetries)%nat in
        let again : M A :=
          match remaining with
          | S r => retryFrom fn r maxRetries (S retryCount)
          | O => throw e
          end in
        if statusIs e 429 && shouldRetry then
          let retryDelay := rateLimitDelay retryCount in
          (log ("Rate limit hit. " ++ retryText retryDelay retryCount maxRetries)
               warning ;;;
           sleep retryDelay ;;;
           again) w1
        else if statusIs e 503 && shouldRetry then
          let retryDelay := overloadDelay retryCount in
          (log ("Service overloaded (503). "
                ++ retryText retryDelay retryCount maxRetries) warning ;;;
           log "Tip: The API is currently busy. Waiting before retry..." info ;;;
           sleep retryDelay ;;;
           again) w1
        else if contextLengthExceeded e then
          (log "Context length exceeded. Prompt is too long for the model."
               error ;;;
           throw tooLargeError) w1
        else if isServerError e && shouldRetry then
          let retryDelay := serverErrorDelay retryCount in
          (log ("Server error (" ++ statusText e ++ "). "
                ++ retryText retryDelay retryCount maxRetries) warning ;;;
           sleep retryDelay ;;;
           again) w1
        else (Throws e, w1)
    end.

Definition retryWithBackoff {A} (fn : M A) (maxRetries retryCount : nat) : M A :=
  retryFrom fn (maxRetries - retryCount) maxRetries retryCount.

(** ** Classification of one call ([categorizeCall]) *)

Record CategorizationResult := mkCategorizationResult {
  cr_categories : list JValue;
  cr_sentiment : string;
  cr_summary : string
}.

Record WorkItem := mkWorkItem {
  wi_transcript : string;
  wi_callReason : option string;
  wi_issuesDiscussed : option string
}.

(** The defaulting applied to the parsed answer. *)
Definition defaulted (parsed : JValue) : CategorizationResult :=
  mkCategorizationResult
    (match getProp parsed "categories" with
     | Some (JArr (c :: cs)) => c :: cs
     | _ => [JStr "Unknown"]
     end)
    (match getProp parsed "sentiment" with
     | Some (JStr s) =>
         if existsb (String.eqb s) ["positive"; "neutral"; "negative"]
         then s else "neutral"
     | _ => "neutral"
     end)
    (match getProp parsed "summary" with
     | Some (JStr s) => if String.eqb s "" then "No summary available" else s
     | _ => "No summary available"
     end).

Section Enrichment.

(** [JSON.parse]: [None] when it throws. *)
Variable JSON_parse : string -> option JValue.

(** The function [categorizeCall] hands to [retryWithBackoff]: one attempt. *)
Definition classifyOnce (transcript : string)
  (callReason issuesDiscussed : option string) : M CategorizationResult :=
  config <- getModelConfig ;;
  log ("Analyzing call transcript with " ++ providerName (provider config)
       ++ "/" ++ model config ++ "...") info ;;;
  text <- callProvider config
            (ClassifyPrompt transcript callReason issuesDiscussed) ;;
  match jsonMatch (stripFences text) with
  | None =>
      log ("Failed to extract JSON from " ++ providerName (provider config)
           ++ " response") error ;;;
      log ("Response: " ++ String.substring 0 200 text) error ;;;
      throw (Error ("No JSON found in " ++ providerName (provider config)
                    ++ " response"))
  | Some jsonText =>
      match JSON_parse jsonText with
      | None =>
          log ("Failed to parse JSON from " ++ providerName (provider config)
               ++ " response") error ;;;
          log ("JSON text: " ++ String.substring 0 200 jsonText) error ;;;
          throw (Error ("Invalid JSON in " ++ providerName (provider config)
                        ++ " response"))
      | Some JNull =>
          throw (Error "Cannot read properties of null (reading 'categories')")
      | Some (JBool _) | Some (JNum _) | Some (JStr _) =>
          throw (Error "Cannot create property 'categories' on a primitive value")
      | Some parsed =>
          let result := defaulted parsed in
          log ("Call analyzed: "
               ++ string_of_nat (List.length (cr_categories result))
               ++ " categories, sentiment: " ++ cr_sentiment result) success ;;;
          ret result
      end
  end.

Definition categorizeCall (transcript : string)
  (callReason issuesDiscussed : option string) : M CategorizationResult :=
  retryWithBackoff (classifyOnce transcript callReason issuesDiscussed) 5 0.

(** ** Batch orchestrator ([batchCategorizeCallsWithProgress]) *)

Definition fallbackResult (e : JsError) : CategorizationResult :=
  mkCategorizationResult
    [JStr "UNCATEGORIZED - API ERROR"]
    "neutral"
    ("Failed to analyze: "
     ++ (if String.eqb (message e) "" then "Unknown error" else message e)).

(** [error?.status === 429 && error.message?.includes("exceeded")]. *)
Definition isCritical (e : JsError) : bool :=
  statusIs e 429 && includes (message e) "exceeded".

Definition abortError (processed total : nat) (e : JsError) : JsError :=
  Error ("Rate limit exceeded after retries. Processed "
         ++ string_of_nat processed ++ "/" ++ string_of_nat total
         ++ " calls. " ++ message e).

Definition progressMsg (i total : nat) : string :=
  "Processing call " ++ string_of_nat (i + 1) ++ "/" ++ string_of_nat total.

(** Whether [String(v)] throws for a value [JSON.parse] built.  An object
    with an own property [toString] has no callable [toString] (no JSON
    value is callable), and what [valueOf] gives is not a primitive: a
    [TypeError].  An array joins its elements.  Anything else has a text. *)
Fixpoint toStringThrows (v : JValue) : bool :=
  match v with
  | JObj fields => map_has "toString" fields
  | JArr items => existsb toStringThrows items
  | _ => false
  end.

(** Whether [items.join(", ")] throws. *)
Definition joinThrows (items : list JValue) : bool :=
  existsb toStringThrows items.

(** The [TypeError] of a failed conversion, with the message of V8. *)
Definition joinError : JsError :=
  Error "Cannot convert object to primitive value".

(** The [for] loop, at index [i] with [rest = calls.slice(i)];
    [total = calls.length].  [result.categories.join(", ")] stands inside
    the [try], after [results.push(result)]: when it throws, the [catch]
    block runs on the list that already holds [result]. *)
Fixpoint batchLoop (total i : nat) (rest : list WorkItem)
  (results : list CategorizationResult) : M (list CategorizationResult) :=
  match rest with
  | [] => ret results
  | call :: rest' =>
      let caught (pushed : list CategorizationResult) (e : JsError)
        : M (list CategorizationResult) :=
        let results1 := pushed ++ [fallbackResult e] in
        log ("Error processing call " ++ string_of_nat (i + 1) ++ ": "
             ++ message e) error ;;;
        log "Using fallback categorization for this call..." warning ;;;
        log ("Call " ++ string_of_nat (i + 1)
             ++ " marked as uncategorized due to error") warning ;;;
        notifyProgress (i + 1) total ;;;
        (if isCritical e
         then log "Critical rate limit error. Stopping batch processing."
                  error ;;;
              log ("Successfully processed "
                   ++ string_of_nat (List.length results1)
                   ++ " calls before error.") info ;;;
              throw (abortError (List.length results1) total e)
         else
           (if (i <? total - 1)%nat
            then log "Waiting 10s before continuing to next call..." info ;;;
                 sleep 10000
            else ret tt) ;;;
           batchLoop total (S i) rest' results1) in
      fun w0 =>
        let w := emit (EvLog (progressMsg i total) progress) w0 in
        match categorizeCall (wi_transcript call) (wi_callReason call)
                (wi_issuesDiscussed call) w with
        | (Returns result, w1) =>
            let results1 := results ++ [result] in
            (log ("Call " ++ string_of_nat (i + 1) ++ " processed") success ;;;
             if joinThrows (cr_categories result)
             then caught results1 joinError
             else
               log "Categories" info ;;;
               log ("Sentiment: " ++ cr_sentiment result) info ;;;
               notifyProgress (i + 1) total ;;;
               (if (i <? total - 1)%nat
                then log "Waiting 2.5s before next call..." info ;;;
                     log ("Progress: " ++ string_of_nat (i + 1) ++ "/"
                          ++ string_of_nat total ++ " completed") info ;;;
                     log "Estimated time remaining" info ;;;
                     sleep 2500
                else ret tt) ;;;
               batchLoop total (S i) rest' results1) w1
        | (Throws e, w1) => caught results e w1
        end
  end.

Definition isUncategorized (r : CategorizationResult) : bool :=
  existsb (isJStr "UNCATEGORIZED - API ERROR") (cr_categories r).

Definition successCount (results : list CategorizationResult) : nat :=
  List.length (filter (fun r => negb (isUncategorized r)) results).

Definition batchCategorizeCallsWithProgress (calls : list WorkItem)
  : M (list CategorizationResult) :=
  log "Starting batch categorization process..." info ;;;
  log ("Total calls to process: " ++ string_of_nat (List.length calls)) info ;;;
  log "Estimated time" info ;;;
  results <- batchLoop (List.length calls) 0 calls [] ;;
  let failureCount := List.length results - successCount results in
  log "Batch processing complete!" success ;;;
  log ("Successfully processed " ++ string_of_nat (successCount results) ++ "/"
       ++ string_of_nat (List.length calls) ++ " calls") success ;;;
  (if (0 <? failureCount)%nat
   then log (string_of_nat failureCount
             ++ " call(s) failed and were marked as uncategorized") warning
   else ret tt) ;;;
  log "Total time" info ;;;
  ret results.

(** *** Vocabulary of the statements about the orchestrator *)

(** The world in which the loop starts, after the three opening log lines. *)
Definition batchStart (calls : list WorkItem) (w : World) : World :=
  emit (EvLog "Estimated time" info)
    (emit (EvLog ("Total calls to process: "
                  ++ string_of_nat (List.length calls)) info)
       (emit (EvLog "Starting batch categorization process..." info) w)).

(** The world in which the classification of item [i] starts: the items
    before it have been processed and the progress line of item [i] has been
    logged. *)
Definition itemWorld (calls : list WorkItem) (i : nat) (w : World) : World :=
  emit (EvLog (progressMsg i (List.length calls)) progress)
    (snd (batchLoop (List.length calls) 0 (firstn i calls) []
            (batchStart calls w))).

(** What the classification of item [i] produces in that world. *)
Definition itemOutcome (calls : list WorkItem) (i : nat) (call : WorkItem)
  (w : World) : Outcome CategorizationResult :=
  fst (categorizeCall (wi_transcript call) (wi_callReason call)
         (wi_issuesDiscussed call) (itemWorld calls i w)).

End Enrichment.

(** The result recorded for an item: what its classification returned, or
    the fallback built from what it threw. *)
Definition itemResult (o : Outcome CategorizationResult)
  : CategorizationResult :=
  match o with
  | Returns r => r
  | Throws e => fallbackResult e
  end.

(** What the loop pushes for an item: the fallback built from what the
    classification threw; or what it returned, followed, when the
    categories of that result cannot be joined, by the fallback built from
    the [TypeError]. *)
Definition recorded (o : Outcome CategorizationResult)
  : list CategorizationResult :=
  match o with
  | Returns r =>
      if joinThrows (cr_categories r) then [r; fallbackResult joinError]
      else [r]
  | Throws e => [fallbackResult e]
  end.

(** A result whose categories [join] turns into a text. *)
Definition printable (r : CategorizationResult) : Prop :=
  joinThrows (cr_categories r) = false.

(** The configuration [getModelConfig] returns in [w]. *)
Definition configOf (w : World) : ModelConfig :=
  match currentModelConfig w with
  | None => defaultModelConfig
  | Some config => config
  end.

Definition nextRequest (w : World) (prompt : Prompt) : Request :=
  mkRequest (provider (configOf w)) (model (configOf w)) prompt.

(** The configured provider answers the next request, for [prompt], with the
    text [text]. *)
Definition answersWith (w : World) (prompt : Prompt) (text : string) : Prop :=
  match provider (configOf w) with
  | groq =>
      GROQ_API_KEY w <> "" /\
      exists content,
        groqServer w (List.length (requestsOf (trace w))) (nextRequest w prompt)
        = GroqOk content /\ orElse content "" = text
  | gemini =>
      GEMINI_API_KEY w <> "" /\
      geminiServer w (List.length (requestsOf (trace w))) (nextRequest w prompt)
      = GeminiText text
  end.

(** ** Report generation *)

(** The attempt shared by [generateReportWithGemini] and
    [generateSummarizedReport]. *)
Definition reportOnce (config : ModelConfig) (prompt : Prompt) : M string :=
  report <- callProvider config prompt ;;
  log "Report generated" success ;;;
  log "Report length" info ;;;
  if String.eqb (trim report) ""
  then log ("Empty report generated by " ++ providerName (provider config))
           error ;;;
       throw (Error ("Empty report generated by "
                     ++ providerName (provider config)))
  else ret report.

Definition generateReportWithGemini (data : AnalysisData) : M string :=
  config <- getModelConfig ;;
  log ("Generating comprehensive report with "
       ++ providerName (provider config) ++ "/" ++ model config ++ "...")
      info ;;;
  log "Report data" info ;;;
  retryWithBackoff (reportOnce config (ReportPrompt data)) 5 0.

Definition generateSummarizedReport (data : AnalysisData) : M string :=
  config <- getModelConfig ;;
  log ("Generating summarized executive report with "
       ++ providerName (provider config) ++ "/" ++ model config ++ "...")
      info ;;;
  log "Report data" info ;;;
  retryWithBackoff (reportOnce config (SummaryPrompt data)) 5 0.

(** ** Stream consumer (the reading loop of [handleAnalyze]) *)

(** [s.split('\n')]: never empty. *)
Fixpoint split_nl (s : string) : list string :=
  match s with
  | EmptyString => [EmptyString]
  | String c s' =>
      if Ascii.eqb c "010" then EmptyString :: split_nl s'
      else match split_nl s' with
           | l :: ls => String c l :: ls
           | [] => [String c EmptyString]
           end
  end.

(** [s.slice(n)]. *)
Fixpoint slice (n : nat) (s : string) : string :=
  match n, s with
  | S k, String _ s' => slice k s'
  | _, _ => s
  end.

Record LogEntry := mkLogEntry {
  le_message : JValue;
  le_type : JValue;
  le_timestamp : option JValue
}.

(** What the loop has made of the frames so far: [result], the log entries
    given to [setLogs], and the lines reported with [console.error]. *)
Record Handled := mkHandled {
  result : option JValue;
  logs : list LogEntry;
  rejected : list string
}.

Definition noneHandled : Handled := mkHandled None [] [].

(** [handleStreamData]: the state it leaves, and whether it threw. *)
Definition handleStreamData (data : JValue) (h : Handled) : Handled * bool :=
  match data with
  | JNull => (h, true)
  | _ =>
      let h1 :=
        if truthy (getProp data "message")
        then mkHandled (result h)
               (logs h ++
                [mkLogEntry
                   (match getProp data "message" with
                    | Some m => m
                    | None => JNull
                    end)
                   (match getProp data "type" with
                    | Some t => if truthy (Some t) then t else JStr "info"
                    | None => JStr "info"
                    end)
                   (if truthy (getProp data "timestamp")
                    then getProp data "timestamp" else None)])
               (rejected h)
        else h in
      match getProp data "success" with
      | Some _ =>
          let h2 := mkHandled (Some data) (logs h1) (rejected h1) in
          (h2, truthy (getProp data "error"))
      | None =>
          (h1, truthy (getProp data "error"))
      end
  end.

Section StreamConsumer.

Variable JSON_parse : string -> option JValue.

(** The body of [for (const line of lines)]: a line that is not a
    [data: ] line changes nothing; a frame that does not parse, or on which
    [handleStreamData] throws, is reported and the loop goes on. *)
Definition processLine (h : Handled) (line : string) : Handled :=
  let trimmedLine := trim line in
  if String.prefix "data: " trimmedLine then
    let jsonStr := trim (slice 6 trimmedLine) in
    if String.eqb jsonStr "" then h
    else match JSON_parse jsonStr with
         | None =>
             mkHandled (result h) (logs h) (rejected h ++ [trimmedLine])
         | Some data =>
             let (h', threw) := handleStreamData data h in
             if threw
             then mkHandled (result h') (logs h') (rejected h' ++ [trimmedLine])
             else h'
         end
  else h.

(** How the stream ends: the channel is closed, or [reader.read()]
    rejects. *)
Inductive Ending :=
| Closed
| ReadFails (name : string) (reason : JValue).

Inductive LoopExit :=
| ExitDone
| ExitAborted
| ExitThrown (name : string) (reason : JValue).

(** [abortControllerRef.current?.signal.aborted]: [signal] lists the values
    the successive evaluations of the test will find ([false] once the list
    is exhausted).  In the component every evaluation finds [false], the
    signal [[]]: [handleStop] sets the reference to [null] right after
    [abort()], and the optional chain on [null] is [undefined]. *)
Definition signalAborted (signal : list bool) : bool * list bool :=
  match signal with
  | [] => (false, [])
  | b :: signal' => (b, signal')
  end.

(** The [while (true)] loop; [chunks] are the decoded texts of the reads
    still to come. *)
Fixpoint readLoop (signal : list bool) (chunks : list string) (ending : Ending)
  (buffer : string) (h : Handled) : LoopExit * list bool * Handled :=
  let (abortedBefore, signal1) := signalAborted signal in
  if abortedBefore then (ExitAborted, signal1, h)
  else
    match chunks with
    | [] =>
        match ending with
        | ReadFails name reason => (ExitThrown name reason, signal1, h)
        | Closed =>
            let (abortedAfter, signal2) := signalAborted signal1 in
            if abortedAfter then (ExitAborted, signal2, h)
            else if String.eqb (trim buffer) "" then (ExitDone, signal2, h)
            else (ExitDone, signal2, fold_left processLine (split_nl buffer) h)
        end
    | chunk :: chunks' =>
        let (abortedAfter, signal2) := signalAborted signal1 in
        if abortedAfter then (ExitAborted, signal2, h)
        else
          let lines := split_nl (buffer ++ chunk) in
          readLoop signal2 chunks' ending (last lines "")
            (fold_left processLine (removelast lines) h)
    end.

(** How [handleAnalyze] ends: [onAnalysisComplete] is called, or it returns
    silently, or it reports an error ([reason] is the value the error was
    built from). *)
Inductive AnalysisOutcome :=
| Completed (data : JValue) (report : option JValue)
| Stopped
| Failed (reason : JValue).

(** [x || fallback] on values. *)
Definition valueOr (v : option JValue) (fallback : JValue) : JValue :=
  match v with
  | Some x => if truthy (Some x) then x else fallback
  | None => fallback
  end.

(** What follows the loop, with the [catch] block of [handleAnalyze]. *)
Definition afterLoop (signal : list bool) (exit : LoopExit) (h : Handled)
  : AnalysisOutcome :=
  let caught (name : string) (reason : JValue) : AnalysisOutcome :=
    if String.eqb name "AbortError" then Stopped
    else if fst (signalAborted signal) then Stopped
    else Failed reason in
  match exit with
  | ExitThrown name reason => caught name reason
  | _ =>
      match result h with
      | None => caught "Error" (JStr "No result received from server")
      | Some r =>
          if negb (truthy (getProp r "success"))
          then caught "Error" (valueOr (getProp r "error") (JStr "Analysis failed"))
          else match getProp r "data" with
               | Some d =>
                   if truthy (Some d) then Completed d (getProp r "report")
                   else caught "Error"
                          (JStr "No analysis data returned from server")
               | None =>
                   caught "Error" (JStr "No analysis data returned from server")
               end
      end
  end.

(** The stream part of [handleAnalyze]. *)
Definition consumeStream (signal : list bool) (chunks : list string)
  (ending : Ending) : AnalysisOutcome * Handled :=
  match readLoop signal chunks ending "" noneHandled with
  | (exit, signal', h) => (afterLoop signal' exit h, h)
  end.

End StreamConsumer.

(** The text of a whole stream. *)
Definition streamText (chunks : list string) : string :=
  fold_right String.append "" chunks.

(** A string without line feed. *)
Definition oneLine (s : string) : Prop := split_nl s = [s].

Definition quote : string := String (ascii_of_nat 34) EmptyString.

(** The payload [{"message":"hi"}]. *)
Definition hiFrame : string :=
  "{" ++ quote ++ "message" ++ quote ++ ":" ++ quote ++ "hi" ++ quote ++ "}".

(** A stand-in for [JSON.parse] that knows [hiFrame]. *)
Definition frameParse (s : string) : option JValue :=
  if String.eqb s hiFrame then Some (JObj [("message", JStr "hi")]) else None.

(** Three chunks: a frame cut in the middle of its payload, a frame that is
    not JSON, and a last frame that no line feed follows. *)
Definition sampleChunks : list string :=
  [("data: {" ++ quote ++ "mess")%string;
   ("age" ++ quote ++ ":" ++ quote ++ "hi" ++ quote ++ "}" ++ newline
    ++ newline ++ "data: oops" ++ newline)%string;
   (newline ++ "  data: " ++ hiFrame)%string].

Definition hiEntry : LogEntry := mkLogEntry (JStr "hi") (JStr "info") None.

(** ** Sample inputs *)

(** A stand-in for [JSON.parse] that knows the empty object and the empty
    array. *)
Definition sampleParse (s : string) : option JValue :=
  if String.eqb s "{}" then Some (JObj [])
  else if String.eqb s "[]" then Some (JArr [])
  else None.

Definition sampleWorld (server : nat -> Request -> GroqReply) : World :=
  mkWorld None "key" "" server (fun _ _ => GeminiThrows (Error "unused"))
    false [].

(** A Groq endpoint that answers every request with status 429. *)
Definition exhaustedServer : nat -> Request -> GroqReply :=
  fun _ _ => GroqHttpError 429 "Too Many Requests"
               (Some "Rate limit exceeded") None.

(** A Groq endpoint whose answers hold an empty JSON object. *)
Definition emptyObjectServer : nat -> Request -> GroqReply :=
  fun _ _ => GroqOk (Some "Here it is: {}").

(** A Groq endpoint whose answers hold no JSON object. *)
Definition proseServer : nat -> Request -> GroqReply :=
  fun _ _ => GroqOk (Some "I cannot answer that.").

Definition sampleItem : WorkItem := mkWorkItem "hello" None None.

(** The answer [{"categories":[{"toString":1}]}]: one category, an object
    with a field named [toString]. *)
Definition objectCategoryText : string :=
  "{" ++ quote ++ "categories" ++ quote ++ ":[{" ++ quote ++ "toString"
  ++ quote ++ ":1}]}".

(** A stand-in for [JSON.parse] that knows [objectCategoryText]. *)
Definition objectCategoryParse (s : string) : option JValue :=
  if String.eqb s objectCategoryText
  then Some (JObj [("categories", JArr [JObj [("toString", JNum 1%Q)]])])
  else None.

(** A Groq endpoint that answers every request with [objectCategoryText]. *)
Definition objectCategoryServer : nat -> Request -> GroqReply :=
  fun _ _ => GroqOk (Some objectCategoryText).

(** A Groq endpoint that answers the first request with
    [objectCategoryText] and the later ones without any JSON object. *)
Definition objectThenProseServer : nat -> Request -> GroqReply :=
  fun n _ => if (n =? 0)%nat then GroqOk (Some objectCategoryText)
             else GroqOk (Some "I cannot answer that.").

(** What the classification makes of [objectCategoryText]. *)
Definition objectCategoryResult : CategorizationResult :=
  mkCategorizationResult [JObj [("toString", JNum 1%Q)]] "neutral"
    "No summary available".

(** ** Vocabulary of the statements about the retry wrapper *)

(** The world in which the next invocation of [fn] starts when the
    invocation with counter [retryCount], started in [w], fails with status
    429 and is retried. *)
Definition afterRateLimit {A} (fn : M A) (maxRetries retryCount : nat)
  (w : World) : World :=
  emit (EvSleep (rateLimitDelay retryCount))
    (emit (EvLog ("Rate limit hit. "
                  ++ retryText (rateLimitDelay retryCount) retryCount maxRetries)
                 warning)
       (snd (fn w))).

(** The world in which the [k]-th later invocation starts. *)
Fixpoint attemptWorld {A} (fn : M A) (maxRetries retryCount k : nat)
  (w : World) : World :=
  match k with
  | O => w
  | S k' => attemptWorld fn maxRetries (S retryCount) k'
              (afterRateLimit fn maxRetries retryCount w)
  end.

(** [fn] fails with status 429 whenever it is invoked, and does not sleep. *)
Definition alwaysRateLimited {A} (fn : M A) : Prop :=
  forall w, exists e,
    fst (fn w) = Throws e /\ status e = Some 429%Z /\
    sleepsOf (trace (snd (fn w))) = sleepsOf (trace w).

(** An operation that sends one request and is told 429. *)
Definition rateLimitedCall : M string :=
  fun w => (Throws (mkJsError (Some 429%Z) "Too Many Requests" None),
            emit (EvRequest (mkRequest groq "m" (ClassifyPrompt "" None None))) w).

(** ** Vocabulary of the statements about configuration and cancellation *)

(** A request addressed to the built-in default provider and model. *)
Definition usesDefault (r : Request) : Prop :=
  rq_provider r = groq /\ rq_model r = "llama-3.3-70b-versatile".

(** From [w] to [w'] the configuration is still unset, the trace has only
    grown, and every request added went to the default provider and model. *)
Definition defaultOnly (w w' : World) : Prop :=
  currentModelConfig w' = None /\
  exists t, trace w' = trace w ++ t /\ Forall usesDefault (requestsOf t).

(** The request for [prompt] to the built-in default provider and model. *)
Definition defaultRequest (prompt : Prompt) : Request :=
  mkRequest groq "llama-3.3-70b-versatile" prompt.

(** From [w] to [w'] at least one request has been sent, and the first one
    is the request for [prompt] to the default provider and model. *)
Definition asksDefaultFirst (prompt : Prompt) (w w' : World) : Prop :=
  exists more,
    requestsOf (trace w')
    = requestsOf (trace w) ++ defaultRequest prompt :: more.




(** ** Vocabulary of the statements about the aggregator *)

(** All category labels of the input, record after record. *)
Definition labels (cs : list CallData) : list string :=
  flat_map categories cs.

(** Position of the first occurrence of [k] in [l] ([length l] if none). *)
Fixpoint firstIndex (k : string) (l : list string) : nat :=
  match l with
  | [] => 0
  | x :: l' => if String.eqb k x then 0 else S (firstIndex k l')
  end.

(** Descending by count, ties by first occurrence in [ls]. *)
Definition countThenFirstSeen (ls : list string) (a b : CategoryStat) : Prop :=
  count b < count a \/
  (count a = count b /\ firstIndex (category a) ls < firstIndex (category b) ls).

(** What [categoryMap] holds once the labels [p] have been scanned. *)
Definition scanned (m : list (string * CategoryData)) (p : list string) : Prop :=
  (forall k, In k (map fst m) <-> In k p) /\
  StronglySorted (fun a b => firstIndex a p < firstIndex b p) (map fst m) /\
  (forall k v, map_get k m = Some v -> cd_count v = count_occ string_dec p k).

(** A record with the three fields the aggregation example fixes; the other
    fields are those of [base]. *)
Definition withFields (base : CallData) (cats : list string) (s : string)
  (d : float) : CallData :=
  mkCallData (id base) (phone base) (customer base) (date base) d
    (transcript base) (callReason base) (issuesDiscussed base) (Some s)
    (outcome base) cats (aiAnalysis base).

(** ** Vocabulary of further statements about the retry wrapper *)

(** The three kinds of failure [retryWithBackoff] retries. *)
Inductive BackoffClass := RateLimited | Overloaded | ServerError.

(** The branch of [retryWithBackoff] an error falls in, in the order of its
    tests; [None] for an error that is never retried. *)
Definition classOf (e : JsError) : option BackoffClass :=
  if statusIs e 429 then Some RateLimited
  else if statusIs e 503 then Some Overloaded
  else if contextLengthExceeded e then None
  else if isServerError e then Some ServerError
  else None.

Definition classDelay (c : BackoffClass) : nat -> Z :=
  match c with
  | RateLimited => rateLimitDelay
  | Overloaded => overloadDelay
  | ServerError => serverErrorDelay
  end.

(** [fn] fails at every invocation with an error of class [c], and does not
    sleep. *)
Definition alwaysFailsIn {A} (c : BackoffClass) (fn : M A) : Prop :=
  forall w, exists e,
    fst (fn w) = Throws e /\ classOf e = Some c /\
    sleepsOf (trace (snd (fn w))) = sleepsOf (trace w).

(** An operation that is told 503, and one that is told 502. *)
Definition overloadedCall : M string :=
  fun w => (Throws (mkJsError (Some 503%Z) "Service Unavailable" None), w).

Definition badGatewayCall : M string :=
  fun w => (Throws (mkJsError (Some 502%Z) "Bad Gateway" None), w).

(** A Groq endpoint that answers 429 to the first two requests and an empty
    JSON object afterwards. *)
Definition flakyServer : nat -> Request -> GroqReply :=
  fun n _ => if (n <? 2)%nat
             then GroqHttpError 429 "Too Many Requests" None None
             else GroqOk (Some "{}").

(** The largest delay the wrapper can sleep before retry [n]. *)
Definition maxDelay (n : nat) : Z :=
  Z.max (overloadDelay n) (serverErrorDelay n).

Definition sumZ (l : list Z) : Z := fold_right Z.add 0%Z l.

(** What one invocation of a wrapped operation may add to the trace: at most
    one request, and no sleep. *)
Definition oneRequestNoSleep {A} (fn : M A) : Prop :=
  forall w,
    (List.length (requestsOf (trace (snd (fn w))))
     <= List.length (requestsOf (trace w)) + 1)%nat /\
    sleepsOf (trace (snd (fn w))) = sleepsOf (trace w).

(** [fn] fails at every invocation with an error that satisfies [P], and
    does not sleep. *)
Definition alwaysFailsWith {A} (P : JsError -> Prop) (fn : M A) : Prop :=
  forall w, exists e,
    fst (fn w) = Throws e /\ P e /\
    sleepsOf (trace (snd (fn w))) = sleepsOf (trace w).

(** A status from 500 to 599 other than 503. *)
Definition otherServerStatus (e : JsError) : Prop :=
  exists st, status e = Some st /\ (500 <= st < 600)%Z /\ st <> 503%Z.

(** ** Vocabulary of further statements about classification and batches *)

(** What the data model asks of a classification result. *)
Definition wellFormed (r : CategorizationResult) : Prop :=
  cr_categories r <> [] /\
  In (cr_sentiment r) ["positive"; "neutral"; "negative"] /\
  cr_summary r <> "".

(** [s] holds no occurrence of the character [c]. *)
Fixpoint lacks (c : ascii) (s : string) : bool :=
  match s with
  | EmptyString => true
  | String c' s' => negb (Ascii.eqb c' c) && lacks c s'
  end.

(** The error [callGroqAPI] and [callGeminiAPI] throw when the key of the
    provider is not set. *)
Definition missingKeyError (p : Provider) : JsError :=
  match p with
  | groq => Error "GROQ_API_KEY is not set. Please set it in your environment variables."
  | gemini => Error "GEMINI_API_KEY is not set. Please set it in your environment variables."
  end.

(** The key of the configured provider is not set in [w]. *)
Definition keyMissing (w : World) : Prop :=
  match provider (configOf w) with
  | groq => GROQ_API_KEY w = ""
  | gemini => GEMINI_API_KEY w = ""
  end.

(** A world without keys. *)
Definition keylessWorld : World :=
  mkWorld None "" "" emptyObjectServer
    (fun _ _ => GeminiThrows (Error "unused")) false [].

(** ** Vocabulary of further statements about the aggregator *)

Definition tallyTotal (t : SentimentCounts) : nat :=
  positive t + neutral t + negative t.

(** Every entry of [categoryMap] has as many sentiment marks as counts. *)
Definition balanced (m : list (string * CategoryData)) : Prop :=
  forall k v, map_get k m = Some v ->
              tallyTotal (cd_sentiment v) = cd_count v.

(** ** Vocabulary of further statements about the stream consumer *)

(** The frame a line carries: the parsed payload of a [data: ] line, when it
    parses. *)
Definition frameOf (JSON_parse : string -> option JValue) (line : string)
  : option JValue :=
  let trimmedLine := trim line in
  if String.prefix "data: " trimmedLine then
    let jsonStr := trim (slice 6 trimmedLine) in
    if String.eqb jsonStr "" then None else JSON_parse jsonStr
  else None.

(** [data.success !== undefined], for a frame that is not [null]. *)
Definition carriesSuccess (data : JValue) : bool :=
  match data with
  | JNull => false
  | _ => match getProp data "success" with
         | Some _ => true
         | None => false
         end
  end.

(** What [handleAnalyze] makes of the frame kept in [result]. *)
Definition verdict (r : JValue) : AnalysisOutcome :=
  if truthy (getProp r "success")
  then match getProp r "data" with
       | Some d =>
           if truthy (Some d) then Completed d (getProp r "report")
           else Failed (JStr "No analysis data returned from server")
       | None => Failed (JStr "No analysis data returned from server")
       end
  else Failed (valueOr (getProp r "error") (JStr "Analysis failed")).

(** The payload [{"error":"No file uploaded"}], and a stand-in for
    [JSON.parse] that knows it. *)
Definition errorFrame : string :=
  "{" ++ quote ++ "error" ++ quote ++ ":" ++ quote ++ "No file uploaded"
  ++ quote ++ "}".

Definition errorParse (s : string) : option JValue :=
  if String.eqb s errorFrame
  then Some (JObj [("error", JStr "No file uploaded")])
  else None.

(** The payload [{"success":true,"data":{}}], and a stand-in for
    [JSON.parse] that knows it and [hiFrame]. *)
Definition doneFrame : string :=
  "{" ++ quote ++ "success" ++ quote ++ ":true," ++ quote ++ "data" ++ quote
  ++ ":{}}".

Definition doneParse (s : string) : option JValue :=
  if String.eqb s doneFrame
  then Some (JObj [("success", JBool true); ("data", JObj [])])
  else frameParse s.

(** ** CSV export ([generateCSV]) *)

Definition dquote : ascii := ascii_of_nat 34.
Definition comma : ascii := ascii_of_nat 44.
Definition linefeed : ascii := ascii_of_nat 10.

(** [Array.prototype.join]. *)
Fixpoint join (sep : string) (l : list string) : string :=
  match l with
  | [] => ""
  | [x] => x
  | x :: l' => x ++ sep ++ join sep l'
  end.

(** The [replace] of the cell template: every double quote is written
    twice. *)
Fixpoint doubleQuotes (s : string) : string :=
  match s with
  | EmptyString => EmptyString
  | String c s' =>
      if Ascii.eqb c dquote
      then String dquote (String dquote (doubleQuotes s'))
      else String c (doubleQuotes s')
  end.

(** The text of one cell between double quotes. *)
Definition csvCell (cell : string) : string :=
  String dquote (doubleQuotes cell ++ String dquote EmptyString).

Definition csvLine (row : list string) : string :=
  join "," (map csvCell row).

Definition csvHeaders : list string :=
  ["Call ID"; "Phone Number"; "Customer Name"; "Date"; "Duration (sec)";
   "Categories"; "Sentiment"; "Outcome"; "Call Reason"; "AI Summary"].

Section CsvExport.

(** [String(n)] for a number. *)
Variable numberText : float -> string.

(** The cells of one call, before quoting. *)
Definition csvRow (call : CallData) : list string :=
  [id call; phone call; customer call; date call;
   numberText (duration call);
   join "; " (categories call);
   orElse (sentiment call) "Unknown";
   orElse (outcome call) "Unknown";
   orElse (callReason call) "N/A";
   orElse (aiAnalysis call) "N/A"].

Definition generateCSV (data : AnalysisData) : string :=
  join (String linefeed EmptyString)
    (join "," csvHeaders :: map csvLine (map csvRow (calls data))).

End CsvExport.

(** *** A reader of quoted CSV, to state what the export preserves *)

Inductive CsvState := FieldStart | InField | AfterQuote.

(** Reads records of quoted fields: inside a field a doubled quote is one
    quote; after the closing quote a comma starts the next field and a line
    feed the next record. *)
Fixpoint csvScan (st : CsvState) (cur : string) (row : list string)
  (rows : list (list string)) (s : string) : option (list (list string)) :=
  match s with
  | EmptyString =>
      match st with
      | AfterQuote => Some (rows ++ [row ++ [cur]])
      | FieldStart => match row with [] => Some rows | _ => None end
      | InField => None
      end
  | String c s' =>
      match st with
      | FieldStart =>
          if Ascii.eqb c dquote then csvScan InField "" row rows s' else None
      | InField =>
          if Ascii.eqb c dquote then csvScan AfterQuote cur row rows s'
          else csvScan InField (cur ++ String c EmptyString) row rows s'
      | AfterQuote =>
          if Ascii.eqb c dquote
          then csvScan InField (cur ++ String dquote EmptyString) row rows s'
          else if Ascii.eqb c comma
          then csvScan FieldStart "" (row ++ [cur]) rows s'
          else if Ascii.eqb c linefeed
          then csvScan FieldStart "" [] (rows ++ [row ++ [cur]]) s'
          else None
      end
  end.

Definition readCsv (s : string) : option (list (list string)) :=
  csvScan FieldStart "" [] [] s.

(** ** Spreadsheet rows ([validateExcelStructure], [transformRawData]) *)

(** A row as [sheet_to_json] gives it: the cells by column name. *)
Definition RawCallData : Type := list (string * JValue).

Record Validation := mkValidation {
  isValid : bool;
  errors : list string
}.

Definition validateExcelStructure (data : list RawCallData) : Validation :=
  match data with
  | [] => mkValidation false ["Excel file is empty"]
  | firstRow :: _ =>
      let hasTranscript :=
        map_has "Transcript" firstRow || map_has "summary_points" firstRow in
      let hasPhoneNumber := map_has "Originating Number" firstRow in
      let errors :=
        (if hasTranscript then []
         else ["Missing required column: Transcript or summary_points"])
        ++ (if hasPhoneNumber then []
            else ["Missing required column: Originating Number"]) in
      mkValidation (List.length errors =? 0)%nat errors
  end.

(** What [transformRawData] returns for one row; [tc_duration] is [None]
    for [NaN]. *)
Record TransformedCall := mkTransformedCall {
  tc_id : string;
  tc_phone : string;
  tc_customer : string;
  tc_date : string;
  tc_duration : option Q;
  tc_transcript : string;
  tc_callReason : option string;
  tc_issuesDiscussed : option string;
  tc_sentiment : option string;
  tc_outcome : option string
}.

Section Transform.

(** [String(v)] and [Number(v)] for a value that is not a string,
    respectively not a number; [now index] is what
    [new Date().toISOString()] gives while the row at [index] is
    transformed. *)
Variable toText : JValue -> string.
Variable toNumber : JValue -> option Q.
Variable now : nat -> string.

Definition jsString (v : JValue) : string :=
  match v with
  | JStr s => s
  | _ => toText v
  end.

Definition jsNumber (v : JValue) : option Q :=
  match v with
  | JNum q => Some q
  | _ => toNumber v
  end.

(** [String(a || fallback)]. *)
Definition textOr (a : option JValue) (fallback : string) : string :=
  if truthy a
  then match a with Some v => jsString v | None => fallback end
  else fallback.

(** [a ? String(a) : undefined]. *)
Definition textIf (a : option JValue) : option string :=
  if truthy a
  then match a with Some v => Some (jsString v) | None => None end
  else None.

(** The callback of [rawData.map], for the row at [index]. *)
Definition transformRow (index : nat) (row : RawCallData) : TransformedCall :=
  mkTransformedCall
    ("call-" ++ string_of_nat (index + 1))
    (textOr (map_get "Originating Number" row) "Unknown")
    (textOr (map_get "customer_name" row) "Unknown")
    (textOr (map_get "Start Timestamp" row) (now index))
    (if truthy (map_get "Call duration" row)
     then match map_get "Call duration" row with
          | Some v => jsNumber v
          | None => Some 0%Q
          end
     else Some 0%Q)
    (if truthy (map_get "Transcript" row)
     then textOr (map_get "Transcript" row) "No transcript available"
     else textOr (map_get "summary_points" row) "No transcript available")
    (textIf (map_get "call_reason" row))
    (textIf (map_get "issues_discussed" row))
    (textIf (map_get "customer_sentiment" row))
    (textIf (map_get "outcome_status" row)).

(** [rawData.map((row, index) => ...)], from index [start]. *)
Fixpoint transformFrom (start : nat) (rawData : list RawCallData)
  : list TransformedCall :=
  match rawData with
  | [] => []
  | row :: rest => transformRow start row :: transformFrom (S start) rest
  end.

Definition transformRawData (rawData : list RawCallData)
  : list TransformedCall :=
  transformFrom 0 rawData.

(** The work items both routes hand to the orchestrator. *)
Definition callsToAnalyze (rawData : list RawCallData) : list WorkItem :=
  map (fun call => mkWorkItem (tc_transcript call) (tc_callReason call)
                     (tc_issuesDiscussed call))
      (transformRawData rawData).

End Transform.

(** ** File selection ([handleFileChange]) *)

(** [s.endsWith(suffix)]. *)
Definition endsWith (s suffix : string) : bool :=
  String.prefix (string_rev suffix) (string_rev s).

Record FileInfo := mkFileInfo {
  file_name : string;
  file_size : N
}.

(** The client-side selection: a provider (or the empty string) and a
    model name. *)
Record Selection := mkSelection {
  sel_provider : option Provider;
  sel_model : string
}.

(** The part of the component state that [handleFileChange] reads and
    writes. *)
Record UploadState := mkUploadState {
  up_file : option FileInfo;
  up_error : string;
  up_modelConfig : option Selection
}.

(** [!modelConfig || !modelConfig.provider || !modelConfig.model]. *)
Definition selectionMissing (c : option Selection) : bool :=
  match c with
  | None => true
  | Some sel =>
      match sel_provider sel with
      | None => true
      | Some _ => String.eqb (sel_model sel) ""
      end
  end.

Definition acceptedName (name : string) : bool :=
  endsWith name ".xlsx" || endsWith name ".xls".

Definition maxFileSize : N := 10 * 1024 * 1024.

Definition handleFileChange (selectedFile : option FileInfo) (st : UploadState)
  : UploadState :=
  match selectedFile with
  | Some f =>
      if selectionMissing (up_modelConfig st)
      then mkUploadState (up_file st)
             "Please select a provider and model first" (up_modelConfig st)
      else if negb (acceptedName (file_name f))
      then mkUploadState None "Please upload an Excel file (.xlsx or .xls)"
             (up_modelConfig st)
      else if (maxFileSize <? file_size f)%N
      then mkUploadState None "File size must be less than 10MB"
             (up_modelConfig st)
      else mkUploadState (Some f) "" (up_modelConfig st)
  | None => mkUploadState None "" (up_modelConfig st)
  end.

(** The file the state holds, if any, can be uploaded. *)
Definition fileAcceptable (st : UploadState) : Prop :=
  match up_file st with
  | Some f => acceptedName (file_name f) = true /\
              (file_size f <= maxFileSize)%N
  | None => True
  end.

(** What the user does on the upload card. *)
Inductive UploadEvent :=
| ModelSelect (config : option Selection)
| InputChange (picked : option FileInfo)
| DropFiles (dropped : option FileInfo)
| Remove.

Definition handleDrop (dropped : option FileInfo) (st : UploadState)
  : UploadState :=
  if selectionMissing (up_modelConfig st)
  then mkUploadState (up_file st)
         "Please select a provider and model first" (up_modelConfig st)
  else handleFileChange dropped st.

(** The handlers the card wires to each event. *)
Definition uploadStep (st : UploadState) (ev : UploadEvent) : UploadState :=
  match ev with
  | ModelSelect config => mkUploadState (up_file st) (up_error st) config
  | InputChange picked =>
      if selectionMissing (up_modelConfig st) then st
      else handleFileChange picked st
  | DropFiles dropped =>
      if selectionMissing (up_modelConfig st) then st
      else handleDrop dropped st
  | Remove => mkUploadState None "" (up_modelConfig st)
  end.

Definition initialUpload : UploadState := mkUploadState None "" None.

(** ** Vocabulary of the statements about spreadsheet rows *)

(** A cell that is absent or holds text. *)
Definition textCell (cell : option JValue) : Prop :=
  match cell with
  | None | Some (JStr _) => True
  | Some _ => False
  end.

(** ** Vocabulary of the statements about the configured provider *)



(** A provider that answers every request with blanks. *)
Definition blankServer : nat -> Request -> GroqReply :=
  fun _ _ => GroqOk (Some "  ").

Definition sampleData : AnalysisData := calculateStatistics "" [].


(** What one call through the retry wrapper may add to the trace of [w]:
    at most 6 requests and 5 sleeps, of at most 385000 ms in all. *)
Definition callBudget (w w' : World) : Prop :=
  (List.length (requestsOf (trace w'))
   <= List.length (requestsOf (trace w)) + 6)%nat /\
  (List.length (sleepsOf (trace w'))
   <= List.length (sleepsOf (trace w)) + 5)%nat /\
  (sumZ (sleepsOf (trace w')) <= sumZ (sleepsOf (trace w)) + 385000)%Z.


(** A Groq endpoint that answers the first request with
    [objectCategoryText] and the later ones with status 429. *)
Definition objectThenExhaustedServer : nat -> Request -> GroqReply :=
  fun n r => if (n =? 0)%nat then GroqOk (Some objectCategoryText)
             else exhaustedServer n r.



(** ** The real value of a double

    The vocabulary in which the bounds on percentages are stated: the
    value [m * 2^e] of a mantissa and an exponent, and the bracket in which
    a truncated mantissa with its round and sticky bits holds a real. *)

Definition bpow (e : Z) : R := powerRZ 2 e.

Definition F2R (m e : Z) : R := (IZR m * bpow e)%R.

Abbreviation fexp64 := (fexp prec emax).

Definition brackets (mrs : shr_record) (e : Z) (v : R) : Prop :=
  (0 <= shr_m mrs)%Z /\
  (F2R (shr_m mrs) e <= v < F2R (shr_m mrs + 1) e)%R /\
  (orb (shr_r mrs) (shr_s mrs) = false <-> v = F2R (shr_m mrs) e).

(* ================================================================== *)
(** * Part II. Theorems *)
(* ================================================================== *)

(** ** Insertion-ordered maps *)

Lemma map_get_set {V} (k x : string) (v : V) m :
  map_get k (map_set x v m) = if String.eqb k x then Some v else map_get k m.
Proof.
  induction m as [|[k' v'] m IH]; simpl.
  - reflexivity.
  - destruct (String.eqb x k') eqn:E; simpl.
    + apply String.eqb_eq in E; subst k'.
      destruct (String.eqb k x); reflexivity.
    + rewrite IH. destruct (String.eqb k k') eqn:E'; [|reflexivity].
      apply String.eqb_eq in E'; subst k'.
      rewrite String.eqb_sym, E. reflexivity.
Qed.

Lemma map_keys_set {V} (x : string) (v : V) m :
  map fst (map_set x v m)
  = if map_has x m then map fst m else map fst m ++ [x].
Proof.
  induction m as [|[k' v'] m IH]; simpl.
  - reflexivity.
  - destruct (String.eqb x k') eqn:E; simpl.
    + apply String.eqb_eq in E; subst k'. reflexivity.
    + rewrite IH. destruct (map_has x m); reflexivity.
Qed.

Lemma map_has_In {V} (k : string) (m : list (string * V)) :
  map_has k m = true <-> In k (map fst m).
Proof.
  induction m as [|[k' v'] m IH]; simpl.
  - split; [discriminate | tauto].
  - destruct (String.eqb k k') eqn:E.
    + apply String.eqb_eq in E. split; auto.
    + apply String.eqb_neq in E. rewrite IH. split; [auto|].
      intros [H|H]; [congruence | exact H].
Qed.

Lemma map_get_None {V} (k : string) (m : list (string * V)) :
  map_has k m = false -> map_get k m = None.
Proof.
  induction m as [|[k' v'] m IH]; simpl; [reflexivity|].
  destruct (String.eqb k k'); [discriminate | exact IH].
Qed.

Lemma map_In_get {V} (k : string) (v : V) (m : list (string * V)) :
  NoDup (map fst m) -> In (k, v) m -> map_get k m = Some v.
Proof.
  induction m as [|[k' v'] m IH]; simpl; [tauto|].
  intros Hnd [H|H].
  - injection H as -> ->. now rewrite String.eqb_refl.
  - inversion Hnd as [|? ? Hnotin Hnd']; subst.
    destruct (String.eqb k k') eqn:E; [|auto].
    apply String.eqb_eq in E; subst k'.
    exfalso. apply Hnotin. change k with (fst (k, v)). now apply in_map.
Qed.

(** ** First occurrences *)

Lemma firstIndex_app_in k p q :
  In k p -> firstIndex k (p ++ q) = firstIndex k p.
Proof.
  induction p as [|x p IH]; simpl; [tauto|].
  intros H. destruct (String.eqb k x) eqn:E; [reflexivity|].
  apply String.eqb_neq in E. f_equal. apply IH.
  destruct H as [H|H]; [congruence | exact H].
Qed.

Lemma firstIndex_lt k p : In k p -> firstIndex k p < List.length p.
Proof.
  induction p as [|x p IH]; simpl; [tauto|].
  intros H. destruct (String.eqb k x) eqn:E; [lia|].
  apply String.eqb_neq in E.
  destruct H as [H|H]; [congruence | specialize (IH H); lia].
Qed.

Lemma firstIndex_new k p :
  ~ In k p -> firstIndex k (p ++ [k]) = List.length p.
Proof.
  induction p as [|x p IH]; simpl; intros H.
  - now rewrite String.eqb_refl.
  - destruct (String.eqb k x) eqn:E.
    + apply String.eqb_eq in E. subst. tauto.
    + f_equal. apply IH. tauto.
Qed.

Lemma count_occ_snoc (p : list string) x k :
  count_occ string_dec (p ++ [x]) k
  = count_occ string_dec p k + (if String.eqb k x then 1 else 0).
Proof.
  rewrite count_occ_app. simpl.
  destruct (string_dec x k) as [->|N].
  - now rewrite String.eqb_refl.
  - destruct (String.eqb k x) eqn:E; [|reflexivity].
    apply String.eqb_eq in E. congruence.
Qed.

(** ** Strongly sorted lists *)

Lemma StronglySorted_snoc {A} (R : A -> A -> Prop) l x :
  StronglySorted R l -> Forall (fun a => R a x) l -> StronglySorted R (l ++ [x]).
Proof.
  induction 1 as [|a l Hs IH Ha]; simpl; intros Hx.
  - repeat constructor.
  - inversion Hx; subst. constructor; [auto|].
    apply Forall_app. split; [exact Ha | now repeat constructor].
Qed.

Lemma StronglySorted_weaken {A} (R R' : A -> A -> Prop) l :
  (forall a b, In a l -> In b l -> R a b -> R' a b) ->
  StronglySorted R l -> StronglySorted R' l.
Proof.
  intros Himp Hs. induction Hs as [|a l Hs IH Ha]; constructor.
  - apply IH. intros; apply Himp; simpl; auto.
  - rewrite Forall_forall in *. intros b Hb.
    apply Himp; simpl; auto.
Qed.

Lemma StronglySorted_irrefl_NoDup {A} (R : A -> A -> Prop) l :
  (forall a, ~ R a a) -> StronglySorted R l -> NoDup l.
Proof.
  intros Hirr Hs. induction Hs as [|a l Hs IH Ha]; constructor; [|exact IH].
  intros Hin. rewrite Forall_forall in Ha. exact (Hirr a (Ha a Hin)).
Qed.

(** ** The scan of the records *)

Lemma touchCategory_keys call m x :
  map fst (touchCategory call m x)
  = if map_has x m then map fst m else map fst m ++ [x].
Proof.
  unfold touchCategory. destruct (map_has x m) eqn:Hhas.
  - destruct (map_get x m) eqn:G; [|reflexivity].
    now rewrite map_keys_set, Hhas.
  - rewrite map_get_set, String.eqb_refl.
    rewrite map_keys_set.
    assert (H : map_has x (map_set x emptyCategory m) = true).
    { apply map_has_In. rewrite map_keys_set, Hhas.
      apply in_or_app. right. now left. }
    rewrite H. now rewrite map_keys_set, Hhas.
Qed.

Lemma touchCategory_get call m x k v :
  map_get k (touchCategory call m x) = Some v ->
  if String.eqb k x
  then cd_count v
       = S (match map_get x m with Some s => cd_count s | None => 0 end)
  else map_get k m = Some v.
Proof.
  unfold touchCategory. destruct (map_has x m) eqn:Hhas.
  - destruct (map_get x m) as [s|] eqn:G.
    + rewrite map_get_set. destruct (String.eqb k x) eqn:E.
      * intros [= <-]. reflexivity.
      * auto.
    + apply map_has_In in Hhas. intros Hk.
      destruct (String.eqb k x) eqn:E; [|exact Hk].
      apply String.eqb_eq in E; subst k. congruence.
  - rewrite map_get_set, String.eqb_refl.
    rewrite (map_get_None _ _ Hhas).
    rewrite !map_get_set. destruct (String.eqb k x) eqn:E.
    + intros [= <-]. reflexivity.
    + auto.
Qed.

Lemma scanned_nil : scanned [] [].
Proof.
  split; [|split]; simpl.
  - tauto.
  - constructor.
  - discriminate.
Qed.

Lemma scanned_touch call m p x :
  scanned m p -> scanned (touchCategory call m x) (p ++ [x]).
Proof.
  intros (Hkeys & Hsorted & Hcount).
  assert (Hold : forall a, In a (map fst m) ->
                 firstIndex a (p ++ [x]) = firstIndex a p).
  { intros a Ha. apply firstIndex_app_in. now apply Hkeys. }
  assert (Hsorted' : StronglySorted
            (fun a b => firstIndex a (p ++ [x]) < firstIndex b (p ++ [x]))
            (map fst m)).
  { eapply StronglySorted_weaken; [|exact Hsorted].
    simpl. intros a b Ha Hb Hab. rewrite !Hold; auto. }
  split; [|split].
  - intros k. rewrite touchCategory_keys, in_app_iff. simpl.
    destruct (map_has x m) eqn:Hhas.
    + rewrite Hkeys. split; [auto|]. intros [H|[H|[]]]; [exact H|].
      subst k. apply Hkeys. now apply map_has_In.
    + rewrite in_app_iff, Hkeys. simpl. tauto.
  - rewrite touchCategory_keys. destruct (map_has x m) eqn:Hhas.
    + exact Hsorted'.
    + apply StronglySorted_snoc; [exact Hsorted'|].
      assert (Hnew : ~ In x p).
      { intros Hin. apply Hkeys, map_has_In in Hin. congruence. }
      rewrite Forall_forall. intros a Ha.
      rewrite (Hold a Ha), (firstIndex_new _ _ Hnew).
      apply firstIndex_lt. now apply Hkeys.
  - intros k v Hget. apply touchCategory_get in Hget.
    rewrite count_occ_snoc. destruct (String.eqb k x) eqn:E.
    + apply String.eqb_eq in E; subst k. rewrite Hget.
      destruct (map_get x m) as [s|] eqn:G.
      * rewrite (Hcount _ _ G). lia.
      * assert (Hnew : ~ In x p).
        { intros Hin. apply Hkeys, map_has_In in Hin.
          destruct (map_has x m) eqn:Hh; [|discriminate].
          clear Hin. revert G. clear - Hh.
          induction m as [|[k' v'] m IH]; simpl in *; [discriminate|].
          destruct (String.eqb x k'); [discriminate | auto]. }
        apply (count_occ_not_In string_dec) in Hnew. lia.
    + rewrite (Hcount _ _ Hget). lia.
Qed.

Lemma scanned_categories call cats m p :
  scanned m p -> scanned (fold_left (touchCategory call) cats m) (p ++ cats).
Proof.
  revert m p. induction cats as [|x cats IH]; simpl; intros m p H.
  - now rewrite app_nil_r.
  - replace (p ++ x :: cats) with ((p ++ [x]) ++ cats)
      by (now rewrite <- app_assoc).
    apply IH. now apply scanned_touch.
Qed.

Lemma scanned_calls cs m p :
  scanned m p ->
  scanned (fold_left
             (fun m call => fold_left (touchCategory call) (categories call) m)
             cs m)
          (p ++ labels cs).
Proof.
  revert m p. induction cs as [|c cs IH]; simpl; intros m p H.
  - now rewrite app_nil_r.
  - rewrite app_assoc. apply IH. now apply scanned_categories.
Qed.

Lemma buildCategoryMap_scanned cs : scanned (buildCategoryMap cs) (labels cs).
Proof. exact (scanned_calls cs [] [] scanned_nil). Qed.

(** ** The stable sort *)

Section StableSort.
Context {A : Type} (cnt idx : A -> nat).

Let cmp (a b : A) : Z := (Z.of_nat (cnt b) - Z.of_nat (cnt a))%Z.
Let before (a b : A) : Prop :=
  cnt b < cnt a \/ (cnt a = cnt b /\ idx a < idx b).

Lemma sort_insert_In x y l :
  In y (sort_insert cmp x l) <-> y = x \/ In y l.
Proof.
  induction l as [|z l IH]; simpl.
  - intuition.
  - destruct (cmp x z <=? 0)%Z; simpl; [|rewrite IH]; intuition.
Qed.

Lemma sort_insert_perm x l : Permutation (sort_insert cmp x l) (x :: l).
Proof.
  induction l as [|z l IH]; simpl; [reflexivity|].
  destruct (cmp x z <=? 0)%Z; [reflexivity|].
  rewrite IH. apply perm_swap.
Qed.

Lemma array_sort_perm l : Permutation (array_sort cmp l) l.
Proof.
  induction l as [|x l IH]; simpl; [reflexivity|].
  rewrite sort_insert_perm. now constructor.
Qed.

Lemma sort_insert_sorted x l :
  StronglySorted before l ->
  Forall (fun y => idx x < idx y) l ->
  StronglySorted before (sort_insert cmp x l).
Proof.
  induction 1 as [|z l Hs IH Hz]; simpl; intros Hx.
  - repeat constructor.
  - inversion Hx as [|? ? Hxz Hxl]; subst.
    destruct (cmp x z <=? 0)%Z eqn:E.
    + apply Z.leb_le in E. unfold cmp in E.
      constructor; [now constructor|].
      constructor; [unfold before; lia|].
      rewrite Forall_forall in *. intros y Hy.
      specialize (Hz y Hy). specialize (Hxl y Hy).
      unfold before in *. lia.
    + apply Z.leb_gt in E. unfold cmp in E.
      constructor; [auto|].
      rewrite Forall_forall in *. intros y Hy.
      apply sort_insert_In in Hy. destruct Hy as [->|Hy]; [|auto].
      unfold before. lia.
Qed.

Lemma array_sort_sorted l :
  StronglySorted (fun a b => idx a < idx b) l ->
  StronglySorted before (array_sort cmp l).
Proof.
  induction 1 as [|x l Hs IH Hx]; simpl; [constructor|].
  apply sort_insert_sorted; [exact IH|].
  rewrite Forall_forall in *. intros y Hy. apply Hx.
  eapply Permutation_in; [apply array_sort_perm | exact Hy].
Qed.
End StableSort.

Lemma StronglySorted_map {A B} (f : A -> B) (R : B -> B -> Prop) l :
  StronglySorted R (map f l) <-> StronglySorted (fun a b => R (f a) (f b)) l.
Proof.
  induction l as [|x l IH]; simpl.
  - split; constructor.
  - split; intros H; inversion H; subst; constructor;
      try (now apply IH); rewrite Forall_forall in *.
    + intros y Hy. match goal with H : forall _, In _ (map f l) -> _ |- _ =>
        apply H end. now apply in_map.
    + intros y Hy. apply in_map_iff in Hy. destruct Hy as (a & <- & Ha). auto.
Qed.

(** ** The sorted category list *)

Lemma toStat_names len m : map category (map (toStat len) m) = map fst m.
Proof. rewrite map_map. reflexivity. Qed.

Lemma sortedCategories_perm cs :
  Permutation (sortedCategories cs)
              (map (toStat (List.length cs)) (buildCategoryMap cs)).
Proof.
  unfold sortedCategories.
  exact (array_sort_perm count _).
Qed.

Lemma sortedCategories_sorted cs :
  StronglySorted (countThenFirstSeen (labels cs)) (sortedCategories cs).
Proof.
  unfold sortedCategories.
  apply (array_sort_sorted count
           (fun a => firstIndex (category a) (labels cs))).
  destruct (buildCategoryMap_scanned cs) as (_ & Hs & _).
  apply (StronglySorted_map category
           (fun a b => firstIndex a (labels cs) < firstIndex b (labels cs))).
  now rewrite toStat_names.
Qed.

Lemma buildCategoryMap_NoDup cs : NoDup (map fst (buildCategoryMap cs)).
Proof.
  destruct (buildCategoryMap_scanned cs) as (_ & Hs & _).
  eapply StronglySorted_irrefl_NoDup; [|exact Hs].
  simpl. intros a. lia.
Qed.

Lemma sortedCategories_names_perm cs :
  Permutation (map category (sortedCategories cs))
              (map fst (buildCategoryMap cs)).
Proof.
  rewrite <- (toStat_names (List.length cs)).
  apply Permutation_map, sortedCategories_perm.
Qed.

Lemma sortedCategories_counts cs :
  Forall (fun c =>
            count c = count_occ string_dec (labels cs) (category c) /\
            percentage c = percentOf (count c) (List.length cs))
         (sortedCategories cs).
Proof.
  rewrite Forall_forall. intros c Hc.
  eapply Permutation_in in Hc; [|apply sortedCategories_perm].
  apply in_map_iff in Hc. destruct Hc as ([k v] & <- & Hin).
  destruct (buildCategoryMap_scanned cs) as (_ & _ & Hcount).
  split; simpl.
  - apply Hcount. apply map_In_get; [apply buildCategoryMap_NoDup | exact Hin].
  - reflexivity.
Qed.

(** The percentages are rounded as JavaScript rounds them: two calls of
    three are 66.66666666666666 percent and one of three is
    33.33333333333333, the doubles nearest to the quotients times 100 as
    the two operations round them. *)
Lemma percentOf_rounds :
  percentOf 2 3 = 0x1.0aaaaaaaaaaaap+6%float /\
  percentOf 1 3 = 0x1.0aaaaaaaaaaaap+5%float /\
  (1 / ofNat 3)%float = 0x1.5555555555555p-2%float.
Proof. repeat split. Qed.

(** ** Claims about the aggregator *)

(** C6.  On the two-record example of the specification the aggregator
    yields category A with count 2 and percentage 100, category B with
    count 1 and percentage 50 (the percentages add up to 150, not 100),
    totalDuration 150, avgDuration 75 and the global sentiment tally
    positive 1, neutral 0, negative 1.  In general every occurrence of a
    category in a record counts (the count of a category is its number of
    occurrences among the labels of all records) and its percentage is
    count / totalCalls * 100, computed in doubles. *)
Theorem calculateStatistics_example_and_multilabel :
  (forall now b1 b2,
     let r := calculateStatistics now
                [withFields b1 ["A"; "B"] "positive" 100%float;
                 withFields b2 ["A"] "negative" 50%float] in
     map (fun c => (category c, count c)) (ad_categories r)
       = [("A", 2); ("B", 1)] /\
     map percentage (ad_categories r) = [100%float; 50%float] /\
     totalDuration (summary r) = 150%float /\
     avgDuration (summary r) = 75%float /\
     sentimentDistribution (summary r) = mkSentimentCounts 1 0 1) /\
  (forall now cs,
     let r := calculateStatistics now cs in
     Forall (fun c =>
               count c = count_occ string_dec (labels cs) (category c) /\
               percentage c
               = (ofNat (count c) / ofNat (totalCalls r) * 100)%float)
            (ad_categories r)).
Proof.
  split.
  - intros now b1 b2. destruct b1, b2.
    repeat split.
  - intros now cs. simpl. apply sortedCategories_counts.
Qed.

(** C7.  For every input the category list of the snapshot is sorted
    descending by count, ties in the order in which the categories were
    first met while scanning the records (each category of the input occurs
    exactly once in it); topCategories is the names of its first ten
    entries; avgDuration is totalDuration / totalCalls, computed in
    doubles, and 0 when there is no call. *)
Theorem calculateStatistics_sorted_top10_avg (now : string) (cs : list CallData) :
  let r := calculateStatistics now cs in
  StronglySorted (countThenFirstSeen (labels cs)) (ad_categories r) /\
  NoDup (map category (ad_categories r)) /\
  (forall k, In k (map category (ad_categories r)) <-> In k (labels cs)) /\
  topCategories (summary r) = map category (firstn 10 (ad_categories r)) /\
  avgDuration (summary r)
    = (if Nat.eqb (totalCalls r) 0 then 0%float
       else (totalDuration (summary r) / ofNat (totalCalls r))%float).
Proof.
  simpl. repeat split.
  - apply sortedCategories_sorted.
  - eapply Permutation_NoDup.
    + symmetry. apply sortedCategories_names_perm.
    + apply buildCategoryMap_NoDup.
  - intros H. destruct (buildCategoryMap_scanned cs) as (Hk & _ & _).
    apply Hk. eapply Permutation_in; [apply sortedCategories_names_perm|exact H].
  - intros H. destruct (buildCategoryMap_scanned cs) as (Hk & _ & _).
    apply Hk in H.
    eapply Permutation_in; [symmetry; apply sortedCategories_names_perm|exact H].
  - destruct cs; reflexivity.
Qed.

(** ** Traces *)

Lemma sleepsOf_app t1 t2 : sleepsOf (t1 ++ t2) = sleepsOf t1 ++ sleepsOf t2.
Proof. apply flat_map_app. Qed.

Lemma requestsOf_app t1 t2 :
  requestsOf (t1 ++ t2) = requestsOf t1 ++ requestsOf t2.
Proof. apply flat_map_app. Qed.

Lemma sleepsOf_log msg type w :
  sleepsOf (trace (emit (EvLog msg type) w)) = sleepsOf (trace w).
Proof. simpl. rewrite sleepsOf_app. simpl. apply app_nil_r. Qed.

Lemma sleepsOf_sleep ms w :
  sleepsOf (trace (emit (EvSleep ms) w)) = sleepsOf (trace w) ++ [ms].
Proof. simpl. now rewrite sleepsOf_app. Qed.

Lemma requestsOf_log msg type w :
  requestsOf (trace (emit (EvLog msg type) w)) = requestsOf (trace w).
Proof. simpl. rewrite requestsOf_app. simpl. apply app_nil_r. Qed.

(** ** The retry wrapper *)

(** The recursion of the source: [retryWithBackoff] calls itself with
    [retryCount + 1]. *)
Lemma retryWithBackoff_unfold {A} (fn : M A) maxRetries retryCount w :
  retryWithBackoff fn maxRetries retryCount w
  = match fn w with
    | (Returns a, w1) => (Returns a, w1)
    | (Throws e, w1) =>
        let shouldRetry := (retryCount <? maxRetries)%nat in
        if statusIs e 429 && shouldRetry then
          (log ("Rate limit hit. "
                ++ retryText (rateLimitDelay retryCount) retryCount maxRetries)
               warning ;;;
           sleep (rateLimitDelay retryCount) ;;;
           retryWithBackoff fn maxRetries (S retryCount)) w1
        else if statusIs e 503 && shouldRetry then
          (log ("Service overloaded (503). "
                ++ retryText (overloadDelay retryCount) retryCount maxRetries)
               warning ;;;
           log "Tip: The API is currently busy. Waiting before retry..." info ;;;
           sleep (overloadDelay retryCount) ;;;
           retryWithBackoff fn maxRetries (S retryCount)) w1
        else if contextLengthExceeded e then
          (log "Context length exceeded. Prompt is too long for the model."
               error ;;;
           throw tooLargeError) w1
        else if isServerError e && shouldRetry then
          (log ("Server error (" ++ statusText e ++ "). "
                ++ retryText (serverErrorDelay retryCount) retryCount maxRetries)
               warning ;;;
           sleep (serverErrorDelay retryCount) ;;;
           retryWithBackoff fn maxRetries (S retryCount)) w1
        else (Throws e, w1)
    end.
Proof.
  unfold retryWithBackoff.
  destruct (maxRetries - retryCount) as [|r] eqn:R; simpl;
    destruct (fn w) as [[a|e] w1]; try reflexivity.
  - assert (H : (retryCount <? maxRetries)%nat = false)
      by (apply Nat.ltb_ge; lia).
    rewrite H, !andb_false_r. reflexivity.
  - replace (maxRetries - S retryCount) with r by lia. reflexivity.
Qed.

Lemma retryFrom_rate_limited {A} (fn : M A) :
  (forall w, exists e, fst (fn w) = Throws e /\ status e = Some 429%Z) ->
  forall k maxRetries retryCount w,
    retryCount + k = maxRetries ->
    retryFrom fn k maxRetries retryCount w
    = fn (attemptWorld fn maxRetries retryCount k w).
Proof.
  intros Hfn. induction k as [|k IH]; intros maxRetries retryCount w Hk.
  - simpl. destruct (Hfn w) as (e & He & Hs).
    destruct (fn w) as [o w1] eqn:F. simpl in He. subst o.
    assert (H : (retryCount <? maxRetries)%nat = false)
      by (apply Nat.ltb_ge; lia).
    rewrite H, !andb_false_r.
    unfold contextLengthExceeded, statusIs. rewrite Hs. reflexivity.
  - simpl. destruct (Hfn w) as (e & He & Hs).
    unfold afterRateLimit.
    destruct (fn w) as [o w1] eqn:F. simpl in He. subst o.
    assert (H : (retryCount <? maxRetries)%nat = true)
      by (apply Nat.ltb_lt; lia).
    rewrite H. unfold statusIs at 1. rewrite Hs. simpl.
    unfold bind, log, sleep. simpl. apply IH. lia.
Qed.

Lemma attemptWorld_sleeps {A} (fn : M A) :
  alwaysRateLimited fn ->
  forall k maxRetries retryCount w,
    sleepsOf (trace (attemptWorld fn maxRetries retryCount k w))
    = sleepsOf (trace w) ++ map rateLimitDelay (seq retryCount k).
Proof.
  intros Hfn. induction k as [|k IH]; intros maxRetries retryCount w; simpl.
  - now rewrite app_nil_r.
  - rewrite IH. unfold afterRateLimit.
    rewrite sleepsOf_sleep, sleepsOf_log.
    destruct (Hfn w) as (e & _ & _ & Hq). rewrite Hq.
    now rewrite <- app_assoc.
Qed.

(** C2.  The delay before retry [n] of a rate-limited call is
    min(5000 * 2^n, 90000) ms.  When the wrapped operation is told 429 at
    every invocation, [retryWithBackoff] with [maxRetries = 5] sleeps 5000,
    10000, 20000, 40000 and 80000 ms, and what it returns is the failure of
    the sixth invocation, with nothing done after it. *)
Theorem retryWithBackoff_rate_limit_schedule {A} (fn : M A) (w : World) :
  alwaysRateLimited fn ->
  (forall n, rateLimitDelay n = Z.min (5000 * 2 ^ Z.of_nat n) 90000) /\
  retryWithBackoff fn 5 0 w = fn (attemptWorld fn 5 0 5 w) /\
  (exists e, fst (retryWithBackoff fn 5 0 w) = Throws e /\
             status e = Some 429%Z) /\
  sleepsOf (trace (snd (retryWithBackoff fn 5 0 w)))
  = sleepsOf (trace w) ++ [5000; 10000; 20000; 40000; 80000]%Z.
Proof.
  intros Hfn.
  assert (Hfn' : forall w, exists e,
             fst (fn w) = Throws e /\ status e = Some 429%Z).
  { intros w0. destruct (Hfn w0) as (e & He & Hs & _). eauto. }
  assert (Hrun : retryWithBackoff fn 5 0 w = fn (attemptWorld fn 5 0 5 w)).
  { unfold retryWithBackoff. now apply retryFrom_rate_limited. }
  split; [reflexivity|]. split; [exact Hrun|]. split.
  - rewrite Hrun. apply Hfn'.
  - rewrite Hrun.
    destruct (Hfn (attemptWorld fn 5 0 5 w)) as (e & _ & _ & Hq).
    rewrite Hq. now rewrite (attemptWorld_sleeps fn Hfn).
Qed.

Lemma rateLimitedCall_alwaysRateLimited : alwaysRateLimited rateLimitedCall.
Proof.
  intros w. eexists. repeat split. simpl.
  rewrite sleepsOf_app. simpl. apply app_nil_r.
Qed.

Lemma retryWithBackoff_rate_limit_schedule_witness :
  alwaysRateLimited rateLimitedCall /\
  sleepsOf (trace (snd (retryWithBackoff rateLimitedCall 5 0
                          (sampleWorld exhaustedServer))))
  = [5000; 10000; 20000; 40000; 80000]%Z.
Proof.
  split.
  - exact rateLimitedCall_alwaysRateLimited.
  - exact (proj2 (proj2 (proj2
             (retryWithBackoff_rate_limit_schedule rateLimitedCall
                (sampleWorld exhaustedServer)
                rateLimitedCall_alwaysRateLimited)))).
Defined.

(** ** The orchestrator, one item at a time *)

Ltac trace_simpl :=
  cbn [trace emit];
  repeat rewrite ?requestsOf_app, ?sleepsOf_app;
  cbn [requestsOf sleepsOf flat_map app];
  repeat rewrite app_nil_r.

Section OrchestratorSteps.

Variable JSON_parse : string -> option JValue.

Let classify (call : WorkItem) : M CategorizationResult :=
  categorizeCall JSON_parse (wi_transcript call) (wi_callReason call)
    (wi_issuesDiscussed call).

Lemma isCritical_joinError : isCritical joinError = false.
Proof. reflexivity. Qed.

Lemma batchLoop_success_step total i call results w r w1 :
  classify call (emit (EvLog (progressMsg i total) progress) w)
  = (Returns r, w1) ->
  printable r ->
  exists w2,
    (forall rest,
       batchLoop JSON_parse total i (call :: rest) results w
       = batchLoop JSON_parse total (S i) rest (results ++ [r]) w2) /\
    requestsOf (trace w2) = requestsOf (trace w1) /\
    sleepsOf (trace w2)
    = sleepsOf (trace w1) ++ (if (i <? total - 1)%nat then [2500%Z] else []).
Proof.
  unfold classify, printable. intros H Hp. cbn [batchLoop]. rewrite H.
  unfold bind, log, notifyProgress, sleep, ret. rewrite Hp.
  destruct (i <? total - 1)%nat; eexists;
    (split; [intros rest; reflexivity|]);
    split; trace_simpl; reflexivity.
Qed.

(** The classification returns, but the categories of its result cannot be
    joined: the result stays in the list and the [catch] block adds the
    fallback built from the [TypeError]. *)
Lemma batchLoop_unprintable_step total i call results w r w1 :
  classify call (emit (EvLog (progressMsg i total) progress) w)
  = (Returns r, w1) ->
  joinThrows (cr_categories r) = true ->
  exists w2,
    (forall rest,
       batchLoop JSON_parse total i (call :: rest) results w
       = batchLoop JSON_parse total (S i) rest
           (results ++ [r; fallbackResult joinError]) w2) /\
    requestsOf (trace w2) = requestsOf (trace w1) /\
    sleepsOf (trace w2)
    = sleepsOf (trace w1) ++ (if (i <? total - 1)%nat then [10000%Z] else []).
Proof.
  unfold classify. intros H Hp. cbn [batchLoop]. rewrite H.
  unfold bind, log, notifyProgress, sleep, ret. rewrite Hp.
  rewrite isCritical_joinError. rewrite <- app_assoc. cbn [app].
  destruct (i <? total - 1)%nat; eexists;
    (split; [intros rest; reflexivity|]);
    split; trace_simpl; reflexivity.
Qed.

Lemma batchLoop_failure_step total i call results w e w1 :
  classify call (emit (EvLog (progressMsg i total) progress) w)
  = (Throws e, w1) ->
  isCritical e = false ->
  exists w2,
    (forall rest,
       batchLoop JSON_parse total i (call :: rest) results w
       = batchLoop JSON_parse total (S i) rest
           (results ++ [fallbackResult e]) w2) /\
    requestsOf (trace w2) = requestsOf (trace w1) /\
    sleepsOf (trace w2)
    = sleepsOf (trace w1) ++ (if (i <? total - 1)%nat then [10000%Z] else []).
Proof.
  unfold classify. intros H Hc. cbn [batchLoop]. rewrite H.
  unfold bind, log, notifyProgress, sleep, ret. rewrite Hc.
  destruct (i <? total - 1)%nat; eexists;
    (split; [intros rest; reflexivity|]);
    split; trace_simpl; reflexivity.
Qed.

Lemma batchLoop_critical_step total i call results w e w1 :
  classify call (emit (EvLog (progressMsg i total) progress) w)
  = (Throws e, w1) ->
  isCritical e = true ->
  exists w2,
    (forall rest,
       batchLoop JSON_parse total i (call :: rest) results w
       = (Throws (abortError (S (List.length results)) total e), w2)) /\
    requestsOf (trace w2) = requestsOf (trace w1) /\
    sleepsOf (trace w2) = sleepsOf (trace w1).
Proof.
  unfold classify. intros H Hc. cbn [batchLoop]. rewrite H.
  unfold bind, log, notifyProgress, throw. rewrite Hc.
  eexists. split.
  - intros rest. rewrite length_app, Nat.add_comm. reflexivity.
  - split; trace_simpl; reflexivity.
Qed.

(** One item, whatever its classification does. *)
Lemma batchLoop_step total i call results w :
  let o := classify call (emit (EvLog (progressMsg i total) progress) w) in
  exists w2,
    (forall rest,
       batchLoop JSON_parse total i (call :: rest) results w
       = (match fst o with
          | Throws e =>
              if isCritical e
              then (Throws (abortError (S (List.length results)) total e), w2)
              else batchLoop JSON_parse total (S i) rest
                     (results ++ recorded (fst o)) w2
          | Returns _ =>
              batchLoop JSON_parse total (S i) rest
                (results ++ recorded (fst o)) w2
          end)) /\
    requestsOf (trace w2) = requestsOf (trace (snd o)) /\
    exists pause,
      sleepsOf (trace w2) = sleepsOf (trace (snd o)) ++ pause /\
      (pause = [] \/ pause = [2500%Z] \/ pause = [10000%Z]).
Proof.
  intros o. subst o.
  destruct (classify call _) as [[r|e] w1] eqn:H; cbn [fst snd recorded].
  - destruct (joinThrows (cr_categories r)) eqn:Hp.
    + destruct (batchLoop_unprintable_step total i call results w r w1
                  H Hp) as (w2 & E & Hr & Hs).
      exists w2. split; [exact E|]. split; [exact Hr|].
      eexists. split; [exact Hs|]. destruct (i <? total - 1)%nat; tauto.
    + destruct (batchLoop_success_step total i call results w r w1 H Hp)
        as (w2 & E & Hr & Hs).
      exists w2. split; [exact E|]. split; [exact Hr|].
      eexists. split; [exact Hs|]. destruct (i <? total - 1)%nat; tauto.
  - destruct (isCritical e) eqn:Hc.
    + destruct (batchLoop_critical_step total i call results w e w1 H Hc)
        as (w2 & E & Hr & Hs).
      exists w2. split; [exact E|]. split; [exact Hr|].
      exists []. rewrite app_nil_r. tauto.
    + destruct (batchLoop_failure_step total i call results w e w1 H Hc)
        as (w2 & E & Hr & Hs).
      exists w2. split; [exact E|]. split; [exact Hr|].
      eexists. split; [exact Hs|]. destruct (i <? total - 1)%nat; tauto.
Qed.

Lemma recorded_length o :
  1 <= List.length (recorded o) <= 2.
Proof.
  destruct o as [r|e]; cbn [recorded];
    [destruct (joinThrows (cr_categories r))|]; cbn; lia.
Qed.

(** A loop that returns has pushed one or two results for each item. *)
Lemma batchLoop_returns total rest :
  forall i results w rs w',
    batchLoop JSON_parse total i rest results w = (Returns rs, w') ->
    exists more,
      rs = results ++ more /\
      List.length rest <= List.length more <= 2 * List.length rest.
Proof.
  induction rest as [|call rest IH]; intros i results w rs w' H.
  - cbn in H. injection H as <- _. exists []. rewrite app_nil_r.
    cbn. split; [reflexivity | lia].
  - destruct (batchLoop_step total i call results w) as (w2 & E & _).
    cbv zeta in E. rewrite E in H. clear E.
    pose proof (recorded_length (fst (classify call
                  (emit (EvLog (progressMsg i total) progress) w)))) as Hl.
    assert (Hgo : batchLoop JSON_parse total (S i) rest
                    (results ++ recorded (fst (classify call
                       (emit (EvLog (progressMsg i total) progress) w)))) w2
                  = (Returns rs, w')).
    { destruct (fst (classify call _)) as [r|e]; [exact H|].
      destruct (isCritical e); [discriminate | exact H]. }
    apply IH in Hgo. destruct Hgo as (more & -> & Hm).
    eexists. rewrite <- app_assoc. split; [reflexivity|].
    rewrite length_app. cbn [List.length]. lia.
Qed.

(** When every result returned is printable, each item has pushed one. *)
Lemma batchLoop_returns_printable total rest :
  forall i results w rs w',
    batchLoop JSON_parse total i rest results w = (Returns rs, w') ->
    Forall printable rs ->
    exists more,
      rs = results ++ more /\ List.length more = List.length rest.
Proof.
  induction rest as [|call rest IH]; intros i results w rs w' H Hp.
  - cbn in H. injection H as <- _. exists []. now rewrite app_nil_r.
  - destruct (batchLoop_step total i call results w) as (w2 & E & _).
    cbv zeta in E. rewrite E in H. clear E.
    destruct (fst (classify call _)) as [r|e]; cbn [recorded] in H.
    + destruct (joinThrows (cr_categories r)) eqn:Hj.
      * exfalso. apply batchLoop_returns in H.
        destruct H as (more & -> & _).
        rewrite Forall_forall in Hp.
        assert (Hr : printable r).
        { apply Hp. apply in_or_app. left. apply in_or_app. right.
          now left. }
        unfold printable in Hr. congruence.
      * apply (IH _ _ _ _ _ H) in Hp. destruct Hp as (more & -> & Hl).
        eexists. rewrite <- app_assoc. split; [reflexivity|].
        cbn. now f_equal.
    + destruct (isCritical e); [discriminate|].
      apply (IH _ _ _ _ _ H) in Hp. destruct Hp as (more & -> & Hl).
      eexists. rewrite <- app_assoc. split; [reflexivity|].
      cbn. now f_equal.
Qed.

Lemma batchLoop_app total xs ys :
  forall i results w,
    batchLoop JSON_parse total i (xs ++ ys) results w
    = match batchLoop JSON_parse total i xs results w with
      | (Returns r1, w1) =>
          batchLoop JSON_parse total (i + List.length xs) ys r1 w1
      | (Throws e, w1) => (Throws e, w1)
      end.
Proof.
  induction xs as [|call xs IH]; intros i results w.
  - cbn. now rewrite Nat.add_0_r.
  - cbn [app batchLoop List.length].
    replace (i + S (List.length xs)) with (S i + List.length xs) by lia.
    destruct (categorizeCall _ _ _ _ _) as [[r|e] w1];
      unfold bind, log, notifyProgress, sleep, ret, throw;
      repeat match goal with
             | |- context [if ?b then _ else _] => destruct b
             end;
      first [reflexivity | apply IH].
Qed.

End OrchestratorSteps.

(** ** Claims about the orchestrator *)

Lemma batch_returns_loop JSON_parse calls w rs w' :
  batchCategorizeCallsWithProgress JSON_parse calls w = (Returns rs, w') ->
  exists w1,
    batchLoop JSON_parse (List.length calls) 0 calls [] (batchStart calls w)
    = (Returns rs, w1).
Proof.
  unfold batchCategorizeCallsWithProgress, bind, log, ret.
  fold (batchStart calls w).
  destruct (batchLoop _ _ _ _ _ _) as [[r|e] w1]; [|discriminate].
  destruct (0 <? _)%nat; intros [= <- _]; eauto.
Qed.

Lemma firstn_split_at {A} (l pre post : list A) (x : A) i :
  l = pre ++ x :: post -> List.length pre = i -> firstn i l = pre.
Proof.
  intros -> <-. rewrite firstn_app, Nat.sub_diag, firstn_all.
  cbn. apply app_nil_r.
Qed.

(** The list a batch returns, around an item: the results of the items
    before it, what the item recorded, and the results of the items after
    it. *)
Lemma batch_results_split JSON_parse calls w rs w' :
  batchCategorizeCallsWithProgress JSON_parse calls w = (Returns rs, w') ->
  forall i call,
    nth_error calls i = Some call ->
    (forall e, itemOutcome JSON_parse calls i call w = Throws e ->
               isCritical e = false) /\
    exists before after,
      fst (batchLoop JSON_parse (List.length calls) 0 (firstn i calls) []
             (batchStart calls w)) = Returns before /\
      i <= List.length before <= 2 * i /\
      List.length calls - S i <= List.length after /\
      rs = before ++ recorded (itemOutcome JSON_parse calls i call w) ++ after.
Proof.
  intros H i call Hi. apply batch_returns_loop in H. destruct H as (w1 & H).
  apply nth_error_split in Hi. destruct Hi as (pre & post & Hcalls & Hlen).
  pose proof (firstn_split_at calls pre post call i Hcalls Hlen) as Hpre.
  assert (Hn : List.length calls = i + S (List.length post)).
  { rewrite Hcalls, length_app. cbn. lia. }
  unfold itemOutcome, itemWorld. rewrite Hpre.
  remember (List.length calls) as total eqn:Ht.
  remember (batchStart calls w) as ws eqn:Hws.
  rewrite Hcalls in H. rewrite batchLoop_app in H.
  destruct (batchLoop JSON_parse total 0 pre [] ws)
    as [[before|e] wi] eqn:Hloop; [|discriminate].
  apply batchLoop_returns in Hloop. destruct Hloop as (more & -> & Hmore).
  cbn [app snd fst Nat.add] in *. rewrite Hlen in *.
  destruct (batchLoop_step JSON_parse total i call more wi)
    as (w2 & E & _).
  cbv zeta in E. rewrite E in H. clear E.
  assert (Hgo : (forall e,
                   fst (categorizeCall JSON_parse (wi_transcript call)
                          (wi_callReason call) (wi_issuesDiscussed call)
                          (emit (EvLog (progressMsg i total) progress) wi))
                   = Throws e -> isCritical e = false) /\
                batchLoop JSON_parse total (S i) post
                  (more ++ recorded (fst (categorizeCall JSON_parse
                     (wi_transcript call) (wi_callReason call)
                     (wi_issuesDiscussed call)
                     (emit (EvLog (progressMsg i total) progress) wi)))) w2
                = (Returns rs, w1)).
  { destruct (fst (categorizeCall JSON_parse _ _ _ _)) as [r|e].
    - split; [discriminate | exact H].
    - destruct (isCritical e) eqn:Hc; [discriminate|].
      split; [|exact H]. intros e0 [= <-]. exact Hc. }
  destruct Hgo as (Hnc & Hgo). split; [exact Hnc|].
  apply batchLoop_returns in Hgo. destruct Hgo as (after & -> & Hafter).
  exists more, after. split; [reflexivity|]. split; [lia|].
  split; [lia|]. now rewrite <- app_assoc.
Qed.

(** C1, on an input where the provider answers every request with
    [{"categories":[{"toString":1}]}].  The classification of each of the
    two items returns a result whose single category is that object; the
    result is pushed, the log line that joins the categories throws a
    [TypeError] inside the [try], and the [catch] block pushes a fallback
    as well.  The batch returns four results for two items, and position 1
    holds the fallback made for item 0, not what item 1 returned. *)
Theorem batch_pushes_two_results_for_one_item :
  let w := sampleWorld objectCategoryServer in
  let calls := [sampleItem; sampleItem] in
  let run := batchCategorizeCallsWithProgress objectCategoryParse calls w in
  itemOutcome objectCategoryParse calls 0 sampleItem w
  = Returns objectCategoryResult /\
  itemOutcome objectCategoryParse calls 1 sampleItem w
  = Returns objectCategoryResult /\
  joinThrows (cr_categories objectCategoryResult) = true /\
  fst run
  = Returns [objectCategoryResult; fallbackResult joinError;
             objectCategoryResult; fallbackResult joinError] /\
  List.length calls = 2 /\
  (exists rs, fst run = Returns rs /\ List.length rs = 4 /\
              nth_error rs 1 = Some (fallbackResult joinError)) /\
  cr_summary (fallbackResult joinError)
  = "Failed to analyze: Cannot convert object to primitive value".
Proof.
  cbv zeta. repeat split; try (vm_compute; reflexivity).
  eexists. split; [vm_compute; reflexivity|]. split; reflexivity.
Qed.

Lemma prefix_refl s : String.prefix s s = true.
Proof.
  induction s as [|c s IH]; simpl; [reflexivity|].
  destruct (ascii_dec c c); [exact IH | congruence].
Qed.

Lemma includes_refl s : includes s s = true.
Proof.
  destruct s as [|c s]; [reflexivity|].
  change (includes (String c s) (String c s))
    with (if String.prefix (String c s) (String c s) then true
          else includes s (String c s)).
  now rewrite prefix_refl.
Qed.

Lemma includes_suffix a b : includes (a ++ b)%string b = true.
Proof.
  induction a as [|c a IH]; cbn [String.append].
  - apply includes_refl.
  - change (includes (String c (a ++ b)) b)
      with (if String.prefix b (String c (a ++ b)) then true
            else includes (a ++ b)%string b).
    rewrite IH. now destruct (String.prefix b _).
Qed.

Lemma includes_empty s : includes s "" = true.
Proof. destruct s; reflexivity. Qed.

Lemma fallback_summary_includes_message e :
  includes (cr_summary (fallbackResult e)) (message e) = true.
Proof.
  cbn [fallbackResult cr_summary].
  destruct (String.eqb (message e) "") eqn:E.
  - apply String.eqb_eq in E. rewrite E. apply includes_empty.
  - apply includes_suffix.
Qed.

(** C4, on an input where the provider answers the first request with
    [{"categories":[{"toString":1}]}] and the second without any JSON
    object.  The classification of item 1 fails with an error that is not
    the critical one, and the fallback built from it is pushed and is the
    last result of the batch; but item 0 has left two results (what it
    returned and the fallback of the failed join), so the fallback of item
    1 stands at position 2, and position 1 holds the fallback made for
    item 0. *)
Theorem batch_fallback_position_shifted :
  let w := sampleWorld objectThenProseServer in
  let calls := [sampleItem; sampleItem] in
  let e := Error "No JSON found in groq response" in
  let run := batchCategorizeCallsWithProgress objectCategoryParse calls w in
  itemOutcome objectCategoryParse calls 0 sampleItem w
  = Returns objectCategoryResult /\
  itemOutcome objectCategoryParse calls 1 sampleItem w = Throws e /\
  isCritical e = false /\
  fallbackResult e
  = mkCategorizationResult [JStr "UNCATEGORIZED - API ERROR"] "neutral"
      "Failed to analyze: No JSON found in groq response" /\
  fst run
  = Returns [objectCategoryResult; fallbackResult joinError;
             fallbackResult e] /\
  (exists rs, fst run = Returns rs /\
              nth_error rs 1 = Some (fallbackResult joinError) /\
              nth_error rs 1 <> Some (fallbackResult e) /\
              nth_error rs 2 = Some (fallbackResult e)).
Proof.
  cbv zeta. repeat split; try (vm_compute; reflexivity).
  eexists. split; [vm_compute; reflexivity|].
  split; [reflexivity|]. split; [discriminate | reflexivity].
Qed.

(** ** Claims about one classification *)

Lemma getModelConfig_configOf w : getModelConfig w = (Returns (configOf w), w).
Proof. unfold getModelConfig, configOf. now destruct (currentModelConfig w). Qed.

Lemma answersWith_callProvider w prompt text msg type :
  answersWith w prompt text ->
  callProvider (configOf w) prompt (emit (EvLog msg type) w)
  = (Returns text,
     emit (EvRequest (nextRequest w prompt)) (emit (EvLog msg type) w)).
Proof.
  unfold answersWith, callProvider, nextRequest.
  destruct (provider (configOf w)).
  - intros (Hkey & Hans). unfold callGeminiAPI.
    rewrite requestsOf_log. cbn [GEMINI_API_KEY geminiServer emit].
    apply String.eqb_neq in Hkey. rewrite Hkey, Hans. reflexivity.
  - intros (Hkey & content & Hans & Htext). unfold callGroqAPI.
    rewrite requestsOf_log. cbn [GROQ_API_KEY groqServer emit].
    apply String.eqb_neq in Hkey. rewrite Hkey, Hans, Htext. reflexivity.
Qed.

Lemma retryWithBackoff_plain_error {A} (fn : M A) maxRetries retryCount w e w1 :
  fn w = (Throws e, w1) ->
  status e = None ->
  retryWithBackoff fn maxRetries retryCount w = (Throws e, w1).
Proof.
  intros Hfn Hs. rewrite retryWithBackoff_unfold, Hfn.
  unfold contextLengthExceeded, isServerError, statusIs. rewrite Hs.
  reflexivity.
Qed.

(** C5.  When the text the provider answers with holds no JSON object, or
    the object found does not parse, the classification throws an error
    without status after that single request and without any sleep: the
    retry wrapper does not retry it.  In the orchestrator the error is not
    the critical one, so the item gets the fallback result and the loop goes
    on. *)
Theorem malformed_answer_not_retried JSON_parse transcript callReason
  issuesDiscussed w text :
  answersWith w (ClassifyPrompt transcript callReason issuesDiscussed) text ->
  (jsonMatch (stripFences text) = None \/
   exists jsonText,
     jsonMatch (stripFences text) = Some jsonText /\
     JSON_parse jsonText = None) ->
  exists e w1,
    categorizeCall JSON_parse transcript callReason issuesDiscussed w
    = (Throws e, w1) /\
    status e = None /\
    sleepsOf (trace w1) = sleepsOf (trace w) /\
    requestsOf (trace w1)
    = requestsOf (trace w)
      ++ [nextRequest w (ClassifyPrompt transcript callReason issuesDiscussed)] /\
    isCritical e = false /\
    forall total i rest results w0,
      w = emit (EvLog (progressMsg i total) progress) w0 ->
      exists w2,
        batchLoop JSON_parse total i
          (mkWorkItem transcript callReason issuesDiscussed :: rest) results w0
        = batchLoop JSON_parse total (S i) rest
            (results ++ [fallbackResult e]) w2.
Proof.
  intros Hans Hbad.
  assert (Hone : exists e w1,
             classifyOnce JSON_parse transcript callReason issuesDiscussed w
             = (Throws e, w1) /\
             status e = None /\
             sleepsOf (trace w1) = sleepsOf (trace w) /\
             requestsOf (trace w1)
             = requestsOf (trace w)
               ++ [nextRequest w
                     (ClassifyPrompt transcript callReason issuesDiscussed)]).
  { unfold classifyOnce, bind. rewrite getModelConfig_configOf.
    unfold log at 1.
    rewrite (answersWith_callProvider w _ text _ _ Hans).
    destruct Hbad as [Hnone | (jsonText & Hsome & Hparse)].
    - rewrite Hnone. unfold log, throw, Error.
      eexists. eexists. split; [reflexivity|].
      repeat split; trace_simpl; reflexivity.
    - rewrite Hsome, Hparse. unfold log, throw, Error.
      eexists. eexists. split; [reflexivity|].
      repeat split; trace_simpl; reflexivity. }
  destruct Hone as (e & w1 & Hfn & Hs & Hsl & Hrq).
  assert (Hcall : categorizeCall JSON_parse transcript callReason
                    issuesDiscussed w = (Throws e, w1)).
  { unfold categorizeCall. now apply retryWithBackoff_plain_error. }
  assert (Hcrit : isCritical e = false).
  { unfold isCritical, statusIs. now rewrite Hs. }
  exists e, w1. repeat split; try assumption.
  intros total i rest results w0 Hw. subst w.
  destruct (batchLoop_failure_step JSON_parse total i
              (mkWorkItem transcript callReason issuesDiscussed) results
              w0 e w1 Hcall Hcrit) as (w2 & E & _).
  eauto.
Qed.

Lemma malformed_answer_not_retried_witness :
  let w := emit (EvLog (progressMsg 0 1) progress) (sampleWorld proseServer) in
  answersWith w (ClassifyPrompt "hello" None None) "I cannot answer that." /\
  jsonMatch (stripFences "I cannot answer that.") = None /\
  exists e w1,
    categorizeCall sampleParse "hello" None None w = (Throws e, w1) /\
    status e = None.
Proof.
  intros w.
  assert (Hans : answersWith w (ClassifyPrompt "hello" None None)
                   "I cannot answer that.").
  { split; [discriminate|]. eexists. split; reflexivity. }
  assert (Hnone : jsonMatch (stripFences "I cannot answer that.") = None)
    by (vm_compute; reflexivity).
  split; [exact Hans|]. split; [exact Hnone|].
  destruct (malformed_answer_not_retried sampleParse "hello" None None w
              "I cannot answer that." Hans (or_introl Hnone))
    as (e & w1 & Hcall & Hs & _).
  exists e, w1. split; assumption.
Defined.

(** The loop throws only the abort error of a critical error. *)
Lemma batchLoop_throws_critical JSON_parse total rest :
  forall i results w e' w',
    batchLoop JSON_parse total i rest results w = (Throws e', w') ->
    exists e processed,
      isCritical e = true /\ e' = abortError processed total e.
Proof.
  induction rest as [|call rest IH]; intros i results w e' w' H.
  - discriminate.
  - destruct (batchLoop_step JSON_parse total i call results w)
      as (w2 & E & _).
    cbv zeta in E. rewrite E in H. clear E.
    destruct (fst (categorizeCall JSON_parse _ _ _ _)) as [r|e].
    + eapply IH; eassumption.
    + destruct (isCritical e) eqn:Hc.
      * injection H as <- _. eauto.
      * eapply IH; eassumption.
Qed.

(** C3, on an input where the provider answers every request with status
    429 and the message "Rate limit exceeded".  The single item of the batch
    fails, the batch is stopped at once after the six requests of that item,
    and the error it throws (like the log line before it) counts one
    processed call: the count is the number of results recorded and the
    fallback of the failing item is recorded before the count is taken. *)
Theorem batch_abort_count_includes_failed_item :
  let w := sampleWorld exhaustedServer in
  let e := mkJsError (Some 429%Z) "Rate limit exceeded" None in
  let run := batchCategorizeCallsWithProgress sampleParse [sampleItem] w in
  itemOutcome sampleParse [sampleItem] 0 sampleItem w = Throws e /\
  isCritical e = true /\
  fst run = Throws (abortError 1 1 e) /\
  message (abortError 1 1 e)
  = "Rate limit exceeded after retries. Processed 1/1 calls. Rate limit exceeded" /\
  In (EvLog "Successfully processed 1 calls before error." info)
     (trace (snd run)) /\
  List.length (requestsOf (trace (snd run))) = 6.
Proof.
  cbv zeta. repeat split; try (vm_compute; reflexivity).
  vm_compute. repeat (first [left; reflexivity | right]).
Qed.

(** ** Configuration *)

Lemma defaultOnly_refl w : currentModelConfig w = None -> defaultOnly w w.
Proof.
  intros H. split; [exact H|]. exists []. split.
  - now rewrite app_nil_r.
  - constructor.
Qed.

Lemma defaultOnly_emit_other w w1 ev :
  isRequest ev = false -> defaultOnly w w1 -> defaultOnly w (emit ev w1).
Proof.
  intros Hev (Hc & t & Ht & Hall). split; [exact Hc|].
  exists (t ++ [ev]). split.
  - cbn [trace emit]. now rewrite Ht, app_assoc.
  - rewrite requestsOf_app. destruct ev; try discriminate;
      cbn; now rewrite app_nil_r.
Qed.

Lemma defaultOnly_emit_request w w1 r :
  usesDefault r -> defaultOnly w w1 -> defaultOnly w (emit (EvRequest r) w1).
Proof.
  intros Hr (Hc & t & Ht & Hall). split; [exact Hc|].
  exists (t ++ [EvRequest r]). split.
  - cbn [trace emit]. now rewrite Ht, app_assoc.
  - rewrite requestsOf_app. apply Forall_app. split; [exact Hall|].
    cbn. constructor; [exact Hr | constructor].
Qed.

Lemma callProvider_defaultOnly w w1 prompt :
  defaultOnly w w1 ->
  defaultOnly w (snd (callProvider defaultModelConfig prompt w1)).
Proof.
  intros H. cbn [callProvider defaultModelConfig provider model].
  unfold callGroqAPI. destruct (String.eqb (GROQ_API_KEY w1) ""); [exact H|].
  assert (H' : defaultOnly w
                 (emit (EvRequest
                          (mkRequest groq "llama-3.3-70b-versatile" prompt)) w1)).
  { apply defaultOnly_emit_request; [now split | exact H]. }
  destruct (groqServer w1 _ _); exact H'.
Qed.

Ltac default_only :=
  repeat first
    [ assumption
    | apply defaultOnly_emit_other; [reflexivity|]
    | apply callProvider_defaultOnly ].

Lemma retryFrom_defaultOnly {A} (fn : M A) w :
  (forall w1, defaultOnly w w1 -> defaultOnly w (snd (fn w1))) ->
  forall k maxRetries retryCount w1,
    defaultOnly w w1 ->
    defaultOnly w (snd (retryFrom fn k maxRetries retryCount w1)).
Proof.
  intros Hfn.
  induction k as [|k IH]; intros maxRetries retryCount w1 H;
    cbn [retryFrom]; specialize (Hfn w1 H);
    destruct (fn w1) as [[a|e] w2]; cbn [snd] in *; try assumption;
    unfold bind, log, sleep, throw;
    repeat match goal with
           | |- context [if ?b then _ else _] => destruct b
           end;
    cbn [snd]; try apply IH; default_only.
Qed.

Lemma classifyOnce_defaultOnly JSON_parse transcript callReason issuesDiscussed
  w w1 :
  defaultOnly w w1 ->
  defaultOnly w
    (snd (classifyOnce JSON_parse transcript callReason issuesDiscussed w1)).
Proof.
  intros H. pose proof H as (Hc & _).
  unfold classifyOnce, bind. rewrite getModelConfig_configOf.
  unfold configOf. rewrite Hc. unfold log at 1.
  match goal with
  | |- context [callProvider defaultModelConfig ?p ?w2] =>
      assert (Hp : defaultOnly w (snd (callProvider defaultModelConfig p w2)))
        by default_only;
      destruct (callProvider defaultModelConfig p w2) as [[text|e] w3]
  end; cbn [snd] in *; [|exact Hp].
  destruct (jsonMatch (stripFences text)) as [jsonText|].
  - destruct (JSON_parse jsonText) as [[| | | | |]|];
      unfold bind, log, throw, ret; cbn [snd]; default_only.
  - unfold bind, log, throw; cbn [snd]; default_only.
Qed.

Lemma reportOnce_defaultOnly prompt w w1 :
  defaultOnly w w1 ->
  defaultOnly w (snd (reportOnce defaultModelConfig prompt w1)).
Proof.
  intros H. unfold reportOnce, bind.
  match goal with
  | |- context [callProvider defaultModelConfig ?p ?w2] =>
      assert (Hp : defaultOnly w (snd (callProvider defaultModelConfig p w2)))
        by default_only;
      destruct (callProvider defaultModelConfig p w2) as [[text|e] w3]
  end; cbn [snd] in *; [|exact Hp].
  unfold log, throw, ret. destruct (String.eqb (trim text) "");
    cbn [snd]; default_only.
Qed.

Lemma defaultOnly_requests w w' :
  defaultOnly w w' ->
  exists more, requestsOf (trace w') = requestsOf (trace w) ++ more.
Proof.
  intros (_ & t & Ht & _). exists (requestsOf t).
  now rewrite Ht, requestsOf_app.
Qed.

(** After its first attempt the wrapper only adds to the trace. *)
Lemma retryFrom_after_first {A} (fn : M A) k maxRetries retryCount w :
  (forall b w1, defaultOnly b w1 -> defaultOnly b (snd (fn w1))) ->
  currentModelConfig (snd (fn w)) = None ->
  defaultOnly (snd (fn w)) (snd (retryFrom fn k maxRetries retryCount w)).
Proof.
  intros Hfn Hc. pose proof (defaultOnly_refl _ Hc) as Hrefl.
  destruct k as [|k]; cbn [retryFrom];
    destruct (fn w) as [[a|e] w1]; cbn [snd] in *; try exact Hrefl;
    unfold bind, log, sleep, throw;
    repeat match goal with
           | |- context [if ?b then _ else _] => destruct b
           end;
    cbn [snd]; try (apply retryFrom_defaultOnly; [apply Hfn|]);
    default_only.
Qed.

Lemma retryWithBackoff_first_request {A} (fn : M A) maxRetries retryCount
  w0 w r :
  (forall b w1, defaultOnly b w1 -> defaultOnly b (snd (fn w1))) ->
  currentModelConfig w0 = None ->
  requestsOf (trace w0) = requestsOf (trace w) ->
  requestsOf (trace (snd (fn w0))) = requestsOf (trace w0) ++ [r] ->
  exists more,
    requestsOf (trace (snd (retryWithBackoff fn maxRetries retryCount w0)))
    = requestsOf (trace w) ++ r :: more.
Proof.
  intros Hfn Hc Hw Hfirst.
  assert (Hc1 : currentModelConfig (snd (fn w0)) = None).
  { exact (proj1 (Hfn w0 w0 (defaultOnly_refl w0 Hc))). }
  pose proof (retryFrom_after_first fn (maxRetries - retryCount) maxRetries
                retryCount w0 Hfn Hc1) as Hd.
  apply defaultOnly_requests in Hd. destruct Hd as (more & Hm).
  exists more. unfold retryWithBackoff. rewrite Hm, Hfirst, Hw.
  now rewrite <- app_assoc.
Qed.

Lemma callProvider_default_request prompt w :
  GROQ_API_KEY w <> "" ->
  requestsOf (trace (snd (callProvider defaultModelConfig prompt w)))
  = requestsOf (trace w) ++ [defaultRequest prompt].
Proof.
  intros Hk. cbn [callProvider defaultModelConfig provider model].
  unfold callGroqAPI. apply String.eqb_neq in Hk. rewrite Hk.
  destruct (groqServer w _ _); cbn [snd]; trace_simpl; reflexivity.
Qed.

Lemma classifyOnce_default_request JSON_parse transcript callReason
  issuesDiscussed w :
  currentModelConfig w = None ->
  GROQ_API_KEY w <> "" ->
  requestsOf (trace (snd (classifyOnce JSON_parse transcript callReason
                            issuesDiscussed w)))
  = requestsOf (trace w)
    ++ [defaultRequest (ClassifyPrompt transcript callReason issuesDiscussed)].
Proof.
  intros Hc Hk. unfold classifyOnce, bind. rewrite getModelConfig_configOf.
  unfold configOf. rewrite Hc. unfold log at 1.
  match goal with
  | |- context [callProvider defaultModelConfig ?p ?w2] =>
      pose proof (callProvider_default_request p w2 Hk) as Hp;
      destruct (callProvider defaultModelConfig p w2) as [[text|e] w3]
  end; cbn [snd] in *; revert Hp; trace_simpl; intros Hp; [|exact Hp].
  destruct (jsonMatch (stripFences text)) as [jsonText|].
  - destruct (JSON_parse jsonText) as [[| | | | |]|];
      unfold bind, log, throw, ret; cbn [snd]; trace_simpl; exact Hp.
  - unfold bind, log, throw; cbn [snd]; trace_simpl; exact Hp.
Qed.

Lemma reportOnce_default_request prompt w :
  GROQ_API_KEY w <> "" ->
  requestsOf (trace (snd (reportOnce defaultModelConfig prompt w)))
  = requestsOf (trace w) ++ [defaultRequest prompt].
Proof.
  intros Hk. unfold reportOnce, bind.
  pose proof (callProvider_default_request prompt w Hk) as Hp.
  destruct (callProvider defaultModelConfig prompt w) as [[text|e] w3];
    cbn [snd] in *; [|exact Hp].
  unfold log, throw, ret. destruct (String.eqb (trim text) "");
    cbn [snd]; trace_simpl; exact Hp.
Qed.

(** C10.  While no configuration has been set, [getModelConfig] returns the
    built-in configuration, provider "groq" with model
    "llama-3.3-70b-versatile", and a classification and either report
    generator run with it: every request they send is addressed to that
    provider and model, and when the key of that provider is set they do
    send one, the first being the request for their own prompt. *)
Theorem unset_config_uses_default w :
  currentModelConfig w = None ->
  getModelConfig w
  = (Returns (mkModelConfig groq "llama-3.3-70b-versatile"), w) /\
  (forall JSON_parse transcript callReason issuesDiscussed,
     let w' := snd (categorizeCall JSON_parse transcript callReason
                      issuesDiscussed w) in
     defaultOnly w w' /\
     (GROQ_API_KEY w <> "" ->
      asksDefaultFirst (ClassifyPrompt transcript callReason issuesDiscussed)
        w w')) /\
  (forall data,
     let w' := snd (generateReportWithGemini data w) in
     defaultOnly w w' /\
     (GROQ_API_KEY w <> "" -> asksDefaultFirst (ReportPrompt data) w w')) /\
  (forall data,
     let w' := snd (generateSummarizedReport data w) in
     defaultOnly w w' /\
     (GROQ_API_KEY w <> "" -> asksDefaultFirst (SummaryPrompt data) w w')).
Proof.
  intros Hc. pose proof (defaultOnly_refl w Hc) as Hrefl.
  split; [|split; [|split]].
  - unfold getModelConfig. now rewrite Hc.
  - intros. subst w'. split.
    + unfold categorizeCall, retryWithBackoff.
      apply retryFrom_defaultOnly; [|exact Hrefl].
      intros w1. apply classifyOnce_defaultOnly.
    + intros Hk. unfold categorizeCall.
      apply (retryWithBackoff_first_request _ 5 0 w w).
      * intros b w1. apply classifyOnce_defaultOnly.
      * exact Hc.
      * reflexivity.
      * now apply classifyOnce_default_request.
  - intros. subst w'. unfold generateReportWithGemini, bind.
    rewrite getModelConfig_configOf. unfold configOf. rewrite Hc.
    unfold log. split.
    + unfold retryWithBackoff.
      apply retryFrom_defaultOnly; [|default_only].
      intros w1. apply reportOnce_defaultOnly.
    + intros Hk.
      apply (retryWithBackoff_first_request _ 5 0 _ w).
      * intros b w1. apply reportOnce_defaultOnly.
      * exact Hc.
      * trace_simpl. reflexivity.
      * now apply reportOnce_default_request.
  - intros. subst w'. unfold generateSummarizedReport, bind.
    rewrite getModelConfig_configOf. unfold configOf. rewrite Hc.
    unfold log. split.
    + unfold retryWithBackoff.
      apply retryFrom_defaultOnly; [|default_only].
      intros w1. apply reportOnce_defaultOnly.
    + intros Hk.
      apply (retryWithBackoff_first_request _ 5 0 _ w).
      * intros b w1. apply reportOnce_defaultOnly.
      * exact Hc.
      * trace_simpl. reflexivity.
      * now apply reportOnce_default_request.
Qed.

Lemma unset_config_uses_default_witness :
  let w := sampleWorld emptyObjectServer in
  currentModelConfig w = None /\
  GROQ_API_KEY w <> "" /\
  asksDefaultFirst (ClassifyPrompt "hello" None None) w
    (snd (categorizeCall sampleParse "hello" None None w)) /\
  asksDefaultFirst (ReportPrompt sampleData) w
    (snd (generateReportWithGemini sampleData w)) /\
  asksDefaultFirst (SummaryPrompt sampleData) w
    (snd (generateSummarizedReport sampleData w)) /\
  requestsOf (trace (snd (categorizeCall sampleParse "hello" None None w)))
  = [defaultRequest (ClassifyPrompt "hello" None None)] /\
  requestsOf (trace (snd (generateReportWithGemini sampleData w)))
  = [defaultRequest (ReportPrompt sampleData)] /\
  requestsOf (trace (snd (generateSummarizedReport sampleData w)))
  = [defaultRequest (SummaryPrompt sampleData)].
Proof.
  intros w.
  assert (Hk : GROQ_API_KEY w <> "") by discriminate.
  pose proof (unset_config_uses_default w eq_refl) as (_ & H1 & H2 & H3).
  split; [reflexivity|]. split; [exact Hk|].
  split; [exact (proj2 (H1 sampleParse "hello" None None) Hk)|].
  split; [exact (proj2 (H2 sampleData) Hk)|].
  split; [exact (proj2 (H3 sampleData) Hk)|].
  repeat split; vm_compute; reflexivity.
Defined.

(** ** The stream consumer *)

Lemma split_nl_nonempty s : split_nl s <> [].
Proof.
  destruct s as [|c s]; cbn; [discriminate|].
  destruct (Ascii.eqb c "010"); [discriminate|].
  destruct (split_nl s); discriminate.
Qed.

Lemma append_assoc_string (a b c : string) :
  ((a ++ b) ++ c)%string = (a ++ (b ++ c))%string.
Proof. induction a as [|x a IH]; cbn; [reflexivity | now rewrite IH]. Qed.

Lemma append_empty_r (a : string) : (a ++ "")%string = a.
Proof. induction a as [|x a IH]; cbn; [reflexivity | now rewrite IH]. Qed.

(** Splitting a text in lines, one piece of the text after the other. *)
Lemma split_nl_app x y :
  split_nl (x ++ y)%string
  = removelast (split_nl x) ++ split_nl (last (split_nl x) "" ++ y)%string.
Proof.
  induction x as [|c x IH].
  - reflexivity.
  - cbn [String.append split_nl].
    pose proof (split_nl_nonempty x) as Hne.
    destruct (Ascii.eqb c "010") eqn:Ec.
    + rewrite IH. destruct (split_nl x) as [|l ls]; [congruence|]. reflexivity.
    + rewrite IH. destruct (split_nl x) as [|l ls]; [congruence|].
      destruct ls as [|a ls].
      * cbn [removelast last app String.append split_nl]. rewrite Ec.
        reflexivity.
      * reflexivity.
Qed.

Lemma last_split_nl_oneLine x : oneLine (last (split_nl x) "").
Proof.
  unfold oneLine. induction x as [|c x IH].
  - reflexivity.
  - cbn [split_nl]. pose proof (split_nl_nonempty x) as Hne.
    destruct (Ascii.eqb c "010") eqn:Ec.
    + destruct (split_nl x) as [|l ls]; [congruence|]. exact IH.
    + destruct (split_nl x) as [|l ls]; [congruence|].
      destruct ls as [|a ls].
      * cbn [last] in *. cbn [split_nl]. rewrite Ec, IH. reflexivity.
      * exact IH.
Qed.

Lemma processLine_blank JSON_parse h line :
  trim line = "" -> processLine JSON_parse h line = h.
Proof. intros H. unfold processLine. rewrite H. reflexivity. Qed.

Lemma readLoop_lines JSON_parse chunks :
  forall buffer h,
    oneLine buffer ->
    readLoop JSON_parse [] chunks Closed buffer h
    = (ExitDone, [],
       fold_left (processLine JSON_parse)
         (split_nl (buffer ++ streamText chunks)%string) h).
Proof.
  induction chunks as [|chunk chunks IH]; intros buffer h Hone.
  - cbn [readLoop signalAborted streamText fold_right].
    rewrite append_empty_r, Hone. cbn [fold_left].
    destruct (String.eqb (trim buffer) "") eqn:E; [|reflexivity].
    apply String.eqb_eq in E. now rewrite processLine_blank.
  - cbn [readLoop signalAborted streamText fold_right].
    rewrite IH by apply last_split_nl_oneLine.
    rewrite <- fold_left_app, <- split_nl_app, append_assoc_string.
    reflexivity.
Qed.

(** C8.  Read to the end, the stream gives what its whole text gives line by
    line, however the text was cut into chunks: each line is handled once,
    in order, also a frame cut across chunks and the last line when no line
    feed follows it.  A frame whose payload does not parse leaves the result
    and the log entries as they were, and the loop goes on with the next
    line. *)
Theorem stream_frames_reassembled JSON_parse chunks :
  readLoop JSON_parse [] chunks Closed "" noneHandled
  = (ExitDone, [],
     fold_left (processLine JSON_parse) (split_nl (streamText chunks))
       noneHandled) /\
  (forall h line,
     String.prefix "data: " (trim line) = true ->
     JSON_parse (trim (slice 6 (trim line))) = None ->
     result (processLine JSON_parse h line) = result h /\
     logs (processLine JSON_parse h line) = logs h) /\
  (forall h lines1 line lines2,
     fold_left (processLine JSON_parse) (lines1 ++ line :: lines2) h
     = fold_left (processLine JSON_parse) lines2
         (processLine JSON_parse
            (fold_left (processLine JSON_parse) lines1 h) line)).
Proof.
  split; [|split].
  - exact (readLoop_lines JSON_parse chunks "" noneHandled eq_refl).
  - intros h line Hdata Hparse. unfold processLine.
    rewrite Hdata, Hparse.
    destruct (String.eqb (trim (slice 6 (trim line))) ""); now split.
  - intros h lines1 line lines2. now rewrite fold_left_app.
Qed.

Lemma stream_frames_reassembled_witness :
  readLoop frameParse [] sampleChunks Closed "" noneHandled
  = (ExitDone, [], mkHandled None [hiEntry; hiEntry] ["data: oops"]) /\
  logs (processLine frameParse noneHandled "data: oops") = [].
Proof.
  split.
  - rewrite (proj1 (stream_frames_reassembled frameParse sampleChunks)).
    vm_compute. reflexivity.
  - apply (proj1 (proj2 (stream_frames_reassembled frameParse sampleChunks))
             noneHandled "data: oops");
      vm_compute; reflexivity.
Defined.

(** ** What a run leaves as it was *)



















(** ** Cancellation *)



(* ================================================================== *)
(** * Part III. Further properties of the code *)
(* ================================================================== *)

(** ** More on the retry wrapper *)

Lemma classOf_not_context_length e c :
  classOf e = Some c -> contextLengthExceeded e = false.
Proof.
  unfold classOf, contextLengthExceeded, statusIs.
  destruct (status e) as [st|]; [|reflexivity].
  destruct (Z.eqb st 429) eqn:E1.
  - apply Z.eqb_eq in E1. subst st. reflexivity.
  - destruct (Z.eqb st 503) eqn:E2.
    + apply Z.eqb_eq in E2. subst st. reflexivity.
    + destruct (Z.eqb st 400) eqn:E3; [|reflexivity].
      cbn [andb]. destruct (_ || _ || _); [intros H; discriminate H | reflexivity].
Qed.

Lemma retryFrom_class_step {A} (fn : M A) k maxRetries retryCount w e w1 c :
  fn w = (Throws e, w1) ->
  classOf e = Some c ->
  (retryCount < maxRetries)%nat ->
  exists w2,
    retryFrom fn (S k) maxRetries retryCount w
    = retryFrom fn k maxRetries (S retryCount) w2 /\
    sleepsOf (trace w2) = sleepsOf (trace w1) ++ [classDelay c retryCount] /\
    requestsOf (trace w2) = requestsOf (trace w1).
Proof.
  intros Hfn Hc Hlt. cbn [retryFrom]. rewrite Hfn.
  apply Nat.ltb_lt in Hlt. rewrite Hlt, !andb_true_r.
  pose proof (classOf_not_context_length e c Hc) as Hctx.
  unfold classOf in Hc.
  destruct (statusIs e 429).
  - injection Hc as <-. unfold bind, log, sleep. eexists. split; [reflexivity|].
    split; trace_simpl; reflexivity.
  - destruct (statusIs e 503).
    + injection Hc as <-. unfold bind, log, sleep.
      eexists. split; [reflexivity|]. split; trace_simpl; reflexivity.
    + rewrite Hctx in *. destruct (isServerError e); [|discriminate].
      injection Hc as <-. unfold bind, log, sleep.
      eexists. split; [reflexivity|]. split; trace_simpl; reflexivity.
Qed.

Lemma retryFrom_class_exhausted {A} (fn : M A) k maxRetries retryCount w e w1 c :
  fn w = (Throws e, w1) ->
  classOf e = Some c ->
  (maxRetries <= retryCount)%nat ->
  retryFrom fn k maxRetries retryCount w = (Throws e, w1).
Proof.
  intros Hfn Hc Hge.
  assert (Hs : (retryCount <? maxRetries)%nat = false)
    by (apply Nat.ltb_ge; exact Hge).
  destruct k; cbn [retryFrom]; rewrite Hfn, Hs, !andb_false_r;
    now rewrite (classOf_not_context_length e c Hc).
Qed.

Lemma retryFrom_class_schedule {A} (fn : M A) c :
  alwaysFailsIn c fn ->
  forall k maxRetries retryCount w,
    retryCount + k = maxRetries ->
    (exists e, fst (retryFrom fn k maxRetries retryCount w) = Throws e /\
               classOf e = Some c) /\
    sleepsOf (trace (snd (retryFrom fn k maxRetries retryCount w)))
    = sleepsOf (trace w) ++ map (classDelay c) (seq retryCount k).
Proof.
  intros Hfn. induction k as [|k IH]; intros maxRetries retryCount w Hk.
  - destruct (Hfn w) as (e & He & Hc & Hq).
    destruct (fn w) as [o w1] eqn:F. cbn [fst snd] in He, Hq. subst o.
    rewrite (retryFrom_class_exhausted fn 0 maxRetries retryCount w e w1 c F Hc)
      by lia.
    cbn [fst snd seq map]. rewrite app_nil_r. split; [eauto | exact Hq].
  - destruct (Hfn w) as (e & He & Hc & Hq).
    destruct (fn w) as [o w1] eqn:F. cbn [fst snd] in He, Hq. subst o.
    destruct (retryFrom_class_step fn k maxRetries retryCount w e w1 c F Hc)
      as (w2 & E & Hs & _); [lia|].
    rewrite E. destruct (IH maxRetries (S retryCount) w2) as (He' & Hs');
      [lia|].
    split; [exact He'|]. rewrite Hs', Hs, Hq. cbn [seq map].
    now rewrite <- app_assoc.
Qed.

Lemma classOf_overloaded e :
  status e = Some 503%Z -> classOf e = Some Overloaded.
Proof. intros H. unfold classOf, statusIs. now rewrite H. Qed.

Lemma classOf_server_error e :
  otherServerStatus e -> classOf e = Some ServerError.
Proof.
  intros (st & Hs & Hr & Hn). unfold classOf, contextLengthExceeded,
    isServerError, statusIs. rewrite Hs.
  replace (Z.eqb st 429) with false by (symmetry; apply Z.eqb_neq; lia).
  replace (Z.eqb st 503) with false by (symmetry; apply Z.eqb_neq; lia).
  replace (Z.eqb st 400) with false by (symmetry; apply Z.eqb_neq; lia).
  cbn [andb].
  replace (500 <=? st)%Z with true by (symmetry; apply Z.leb_le; lia).
  replace (st <? 600)%Z with true by (symmetry; apply Z.ltb_lt; lia).
  reflexivity.
Qed.

(** X1.  When the wrapped operation is told 503 at every invocation,
    [retryWithBackoff] with [maxRetries = 5] sleeps 10000, 20000, 40000,
    80000 and 160000 ms (the cap of 180000 ms is not reached) and then
    throws an error of status 503. *)
Theorem retryWithBackoff_overloaded_schedule {A} (fn : M A) (w : World) :
  alwaysFailsWith (fun e => status e = Some 503%Z) fn ->
  (exists e, fst (retryWithBackoff fn 5 0 w) = Throws e /\
             status e = Some 503%Z) /\
  sleepsOf (trace (snd (retryWithBackoff fn 5 0 w)))
  = sleepsOf (trace w) ++ [10000; 20000; 40000; 80000; 160000]%Z.
Proof.
  intros Hfn0.
  assert (Hfn : alwaysFailsIn Overloaded fn).
  { intros w0. destruct (Hfn0 w0) as (e & He & Hs & Hq).
    exists e. repeat split; try assumption. now apply classOf_overloaded. }
  destruct (retryFrom_class_schedule fn Overloaded Hfn 5 5 0 w eq_refl)
    as ((e & He & Hc) & Hs).
  split; [|exact Hs].
  exists e. split; [exact He|].
  unfold classOf in Hc.
  destruct (statusIs e 429); [discriminate|].
  destruct (statusIs e 503) eqn:E.
  - unfold statusIs in E. destruct (status e) as [st|]; [|discriminate].
    apply Z.eqb_eq in E. now subst.
  - destruct (contextLengthExceeded e); [discriminate|].
    destruct (isServerError e); discriminate.
Qed.

Lemma overloadedCall_alwaysFails :
  alwaysFailsWith (fun e => status e = Some 503%Z) overloadedCall.
Proof. intros w. eexists. repeat split. Qed.

Lemma retryWithBackoff_overloaded_schedule_witness :
  sleepsOf (trace (snd (retryWithBackoff overloadedCall 5 0
                          (sampleWorld exhaustedServer))))
  = [10000; 20000; 40000; 80000; 160000]%Z.
Proof.
  exact (proj2 (retryWithBackoff_overloaded_schedule overloadedCall
                  (sampleWorld exhaustedServer) overloadedCall_alwaysFails)).
Defined.

(** X2.  When the wrapped operation fails at every invocation with a status
    from 500 to 599 other than 503, [retryWithBackoff] with
    [maxRetries = 5] sleeps 15000, 30000, 60000, 120000 and again 120000
    ms: the last two delays are cut by the cap.  Then it throws the last
    failure. *)
Theorem retryWithBackoff_server_error_schedule {A} (fn : M A) (w : World) :
  alwaysFailsWith otherServerStatus fn ->
  (exists e, fst (retryWithBackoff fn 5 0 w) = Throws e /\
             isServerError e = true) /\
  sleepsOf (trace (snd (retryWithBackoff fn 5 0 w)))
  = sleepsOf (trace w) ++ [15000; 30000; 60000; 120000; 120000]%Z.
Proof.
  intros Hfn0.
  assert (Hfn : alwaysFailsIn ServerError fn).
  { intros w0. destruct (Hfn0 w0) as (e & He & Hs & Hq).
    exists e. repeat split; try assumption. now apply classOf_server_error. }
  destruct (retryFrom_class_schedule fn ServerError Hfn 5 5 0 w eq_refl)
    as ((e & He & Hc) & Hs).
  split; [|exact Hs].
  exists e. split; [exact He|].
  unfold classOf in Hc.
  destruct (statusIs e 429); [discriminate|].
  destruct (statusIs e 503); [discriminate|].
  destruct (contextLengthExceeded e); [discriminate|].
  destruct (isServerError e); [reflexivity | discriminate].
Qed.

Lemma badGatewayCall_alwaysFails :
  alwaysFailsWith otherServerStatus badGatewayCall.
Proof.
  intros w. eexists. split; [reflexivity|]. split; [|reflexivity].
  exists 502%Z. repeat split; cbn; lia.
Qed.

Lemma retryWithBackoff_server_error_schedule_witness :
  sleepsOf (trace (snd (retryWithBackoff badGatewayCall 5 0
                          (sampleWorld exhaustedServer))))
  = [15000; 30000; 60000; 120000; 120000]%Z.
Proof.
  exact (proj2 (retryWithBackoff_server_error_schedule badGatewayCall
                  (sampleWorld exhaustedServer) badGatewayCall_alwaysFails)).
Defined.

(** X3.  An error of status 400 that carries the context-length marker (the
    code "context_length_exceeded", or a message that includes "length" or
    "context") is never retried, whatever the retry counter: the wrapper logs
    one error line and throws, in place of the error, a new one that asks
    for less data. *)
Theorem retryWithBackoff_context_length {A} (fn : M A) maxRetries retryCount
  w e w1 :
  fn w = (Throws e, w1) ->
  contextLengthExceeded e = true ->
  retryWithBackoff fn maxRetries retryCount w
  = (Throws (Error "The data is too large to process. Please try with fewer calls or contact support."),
     emit (EvLog "Context length exceeded. Prompt is too long for the model."
             error) w1).
Proof.
  intros Hfn Hctx. rewrite retryWithBackoff_unfold, Hfn. cbv zeta.
  assert (Hs : status e = Some 400%Z).
  { unfold contextLengthExceeded, statusIs in Hctx.
    destruct (status e) as [st|]; [|discriminate].
    destruct (Z.eqb st 400) eqn:E; [|discriminate].
    apply Z.eqb_eq in E. now subst. }
  unfold statusIs at 1 2. rewrite Hs. cbn [Z.eqb andb].
  rewrite Hctx. reflexivity.
Qed.

Lemma retryWithBackoff_context_length_witness :
  let fn : M string :=
    fun w => (Throws (mkJsError (Some 400%Z) "maximum context length is 8192"
                        None), w) in
  fst (retryWithBackoff fn 5 0 (sampleWorld exhaustedServer))
  = Throws tooLargeError.
Proof.
  intros fn.
  rewrite (retryWithBackoff_context_length fn 5 0 (sampleWorld exhaustedServer)
             (mkJsError (Some 400%Z) "maximum context length is 8192" None)
             (sampleWorld exhaustedServer) eq_refl eq_refl).
  reflexivity.
Defined.

(** X4.  An error with a status below 500 other than 429 (401, 403, 404, or
    400 without the context-length marker), or without status, is thrown on
    as it is at the first failure: no log line, no sleep, no second
    invocation. *)
Theorem retryWithBackoff_client_error_not_retried {A} (fn : M A) maxRetries
  retryCount w e w1 :
  fn w = (Throws e, w1) ->
  (forall st, status e = Some st -> (st < 500)%Z /\ st <> 429%Z) ->
  contextLengthExceeded e = false ->
  retryWithBackoff fn maxRetries retryCount w = (Throws e, w1).
Proof.
  intros Hfn Hst Hctx. rewrite retryWithBackoff_unfold, Hfn. cbv zeta.
  rewrite Hctx. unfold statusIs, isServerError.
  destruct (status e) as [st|]; [|reflexivity].
  destruct (Hst st eq_refl) as (Hlt & Hne).
  replace (Z.eqb st 429) with false by (symmetry; apply Z.eqb_neq; lia).
  replace (Z.eqb st 503) with false by (symmetry; apply Z.eqb_neq; lia).
  replace (500 <=? st)%Z with false by (symmetry; apply Z.leb_gt; lia).
  reflexivity.
Qed.

Lemma retryWithBackoff_client_error_not_retried_witness :
  let fn : M string :=
    fun w => (Throws (mkJsError (Some 401%Z) "Invalid API Key" None), w) in
  retryWithBackoff fn 5 0 (sampleWorld exhaustedServer)
  = (Throws (mkJsError (Some 401%Z) "Invalid API Key" None),
     sampleWorld exhaustedServer).
Proof.
  intros fn.
  apply (retryWithBackoff_client_error_not_retried fn 5 0).
  - reflexivity.
  - intros st [= <-]. split; [reflexivity | discriminate].
  - reflexivity.
Defined.

Lemma retryFrom_recovers {A} (fn : M A) maxRetries :
  forall k remaining retryCount w,
    retryCount + k <= maxRetries ->
    remaining = maxRetries - retryCount ->
    (forall j, j < k ->
       exists e,
         fst (fn (attemptWorld fn maxRetries retryCount j w)) = Throws e /\
         status e = Some 429%Z) ->
    (exists a,
       fst (fn (attemptWorld fn maxRetries retryCount k w)) = Returns a) ->
    retryFrom fn remaining maxRetries retryCount w
    = fn (attemptWorld fn maxRetries retryCount k w).
Proof.
  induction k as [|k IH]; intros remaining retryCount w Hk Hrem Hfail Hok.
  - cbn [attemptWorld] in *. destruct Hok as (a & Ha).
    destruct (fn w) as [o w1] eqn:F. cbn [fst] in Ha. subst o.
    destruct remaining; cbn [retryFrom]; now rewrite F.
  - destruct (Hfail 0) as (e & He & Hs); [lia|]. cbn [attemptWorld] in He.
    destruct remaining as [|r]; [lia|].
    cbn [retryFrom attemptWorld]. unfold afterRateLimit.
    destruct (fn w) as [o w1] eqn:F. cbn [fst] in He. subst o.
    assert (H : (retryCount <? maxRetries)%nat = true)
      by (apply Nat.ltb_lt; lia).
    rewrite H. unfold statusIs at 1. rewrite Hs. cbn [Z.eqb andb].
    unfold bind, log, sleep. cbn [snd].
    apply IH; [lia | lia | | ].
    + intros j Hj. specialize (Hfail (S j)). cbn [attemptWorld] in Hfail.
      unfold afterRateLimit in Hfail. rewrite F in Hfail. apply Hfail. lia.
    + cbn [attemptWorld] in Hok. unfold afterRateLimit in Hok.
      now rewrite F in Hok.
Qed.

(** X5.  When the first [k] invocations (at most [maxRetries]) are told 429
    and the next one returns, [retryWithBackoff] returns what that
    invocation returns, in the world it leaves: the transient failures are
    absorbed. *)
Theorem retryWithBackoff_recovers {A} (fn : M A) maxRetries k w :
  k <= maxRetries ->
  (forall j, j < k ->
     exists e,
       fst (fn (attemptWorld fn maxRetries 0 j w)) = Throws e /\
       status e = Some 429%Z) ->
  (exists a, fst (fn (attemptWorld fn maxRetries 0 k w)) = Returns a) ->
  retryWithBackoff fn maxRetries 0 w
  = fn (attemptWorld fn maxRetries 0 k w).
Proof.
  intros Hk Hfail Hok. unfold retryWithBackoff.
  apply retryFrom_recovers; try assumption; lia.
Qed.

Lemma retryWithBackoff_recovers_witness :
  let fn := callGroqAPI (ClassifyPrompt "hello" None None) "m" in
  let run := retryWithBackoff fn 5 0 (sampleWorld flakyServer) in
  fst run = Returns "{}" /\
  sleepsOf (trace (snd run)) = [5000; 10000]%Z /\
  List.length (requestsOf (trace (snd run))) = 3.
Proof.
  intros fn run. subst run.
  rewrite (retryWithBackoff_recovers fn 5 2 (sampleWorld flakyServer)).
  - repeat split; vm_compute; reflexivity.
  - lia.
  - intros j Hj. destruct j as [|[|j]]; [| |lia];
      eexists; split; vm_compute; reflexivity.
  - eexists. vm_compute. reflexivity.
Defined.

(** ** Bounds on the work of one call and of a batch *)

Lemma sumZ_app l1 l2 : sumZ (l1 ++ l2) = (sumZ l1 + sumZ l2)%Z.
Proof.
  unfold sumZ. induction l1 as [|x l1 IH]; cbn [app fold_right];
    [reflexivity|].
  rewrite IH. lia.
Qed.

Lemma sumZ_cons x l : sumZ (x :: l) = (x + sumZ l)%Z.
Proof. reflexivity. Qed.

Lemma pow2_pos n : (0 < 2 ^ Z.of_nat n)%Z.
Proof. apply Z.pow_pos_nonneg; lia. Qed.

Lemma classDelay_bounds c n :
  (0 < classDelay c n <= maxDelay n)%Z.
Proof.
  pose proof (pow2_pos n) as Hp.
  unfold maxDelay, overloadDelay, serverErrorDelay.
  destruct c; cbn [classDelay];
    unfold rateLimitDelay, overloadDelay, serverErrorDelay, backoffDelay; lia.
Qed.

Lemma maxDelay_nonneg n : (0 <= maxDelay n)%Z.
Proof. pose proof (classDelay_bounds Overloaded n). lia. Qed.

Lemma sum_maxDelay_nonneg k : forall n, (0 <= sumZ (map maxDelay (seq n k)))%Z.
Proof.
  induction k as [|k IH]; intros n; cbn; [lia|].
  pose proof (maxDelay_nonneg n). specialize (IH (S n)).
  unfold sumZ in IH. lia.
Qed.

Lemma retryFrom_bounds {A} (fn : M A) :
  oneRequestNoSleep fn ->
  forall k maxRetries retryCount w,
    maxRetries <= retryCount + k ->
    let w' := snd (retryFrom fn k maxRetries retryCount w) in
    (List.length (requestsOf (trace w'))
     <= List.length (requestsOf (trace w)) + S k)%nat /\
    (List.length (sleepsOf (trace w'))
     <= List.length (sleepsOf (trace w)) + k)%nat /\
    (sumZ (sleepsOf (trace w'))
     <= sumZ (sleepsOf (trace w)) + sumZ (map maxDelay (seq retryCount k)))%Z.
Proof.
  intros Hfn. induction k as [|k IH]; intros maxRetries retryCount w Hk.
  - cbv zeta. destruct (Hfn w) as (Hr & Hs).
    cbn [retryFrom seq map sumZ fold_right].
    assert (Hno : (retryCount <? maxRetries)%nat = false)
      by (apply Nat.ltb_ge; lia).
    destruct (fn w) as [[a|e] w1]; cbn [snd] in *.
    + rewrite Hs. lia.
    + cbv zeta. rewrite Hno, !andb_false_r. unfold bind, log, throw.
      destruct (contextLengthExceeded e); cbn [snd]; trace_simpl;
        rewrite ?Hs; lia.
  - cbv zeta. destruct (Hfn w) as (Hr & Hs). cbn [retryFrom].
    pose proof (sum_maxDelay_nonneg (S k) retryCount) as Hnn.
    destruct (fn w) as [[a|e] w1]; cbn [snd] in *.
    + rewrite Hs. lia.
    + assert (Hstep : forall c w2,
                 requestsOf (trace w2) = requestsOf (trace w1) ->
                 sleepsOf (trace w2)
                 = sleepsOf (trace w1) ++ [classDelay c retryCount] ->
                 let w' := snd (retryFrom fn k maxRetries (S retryCount) w2) in
                 (List.length (requestsOf (trace w'))
                  <= List.length (requestsOf (trace w)) + S (S k))%nat /\
                 (List.length (sleepsOf (trace w'))
                  <= List.length (sleepsOf (trace w)) + S k)%nat /\
                 (sumZ (sleepsOf (trace w'))
                  <= sumZ (sleepsOf (trace w))
                     + sumZ (map maxDelay (seq retryCount (S k))))%Z).
      { intros c w2 Hrq Hsl. cbv zeta.
        destruct (IH maxRetries (S retryCount) w2) as (B1 & B2 & B3); [lia|].
        rewrite Hrq, Hsl, Hs in *.
        rewrite length_app, sumZ_app in *. cbn [List.length sumZ fold_right] in *.
        pose proof (classDelay_bounds c retryCount).
        cbn [seq map]. rewrite sumZ_cons. repeat split; lia. }
      unfold bind, log, sleep, throw.
      repeat match goal with
             | |- context [if ?b then _ else _] => destruct b
             end; cbn [snd].
      * apply (Hstep RateLimited); trace_simpl; reflexivity.
      * apply (Hstep Overloaded); trace_simpl; reflexivity.
      * trace_simpl. rewrite Hs. lia.
      * apply (Hstep ServerError); trace_simpl; reflexivity.
      * rewrite Hs. lia.
Qed.

Lemma callProvider_oneRequest config prompt : oneRequestNoSleep (callProvider config prompt).
Proof.
  intros w. unfold callProvider, callGroqAPI, callGeminiAPI.
  destruct (provider config).
  - destruct (String.eqb (GEMINI_API_KEY w) ""); cbn [snd]; [split; [lia|reflexivity]|].
    destruct (geminiServer w _ _); cbn [snd]; trace_simpl;
      rewrite ?length_app; cbn [List.length]; split; (lia || reflexivity).
  - destruct (String.eqb (GROQ_API_KEY w) ""); cbn [snd]; [split; [lia|reflexivity]|].
    destruct (groqServer w _ _); cbn [snd]; trace_simpl;
      rewrite ?length_app; cbn [List.length]; split; (lia || reflexivity).
Qed.

Lemma classifyOnce_oneRequest JSON_parse transcript callReason issuesDiscussed :
  oneRequestNoSleep
    (classifyOnce JSON_parse transcript callReason issuesDiscussed).
Proof.
  intros w. unfold classifyOnce, bind, log, throw, ret.
  rewrite getModelConfig_configOf. cbn beta iota.
  match goal with
  | |- context [callProvider ?c ?p ?w2] =>
      destruct (callProvider_oneRequest c p w2) as (Hr & Hs);
      destruct (callProvider c p w2) as [[text|e] w3]
  end; cbn [snd] in *; revert Hr Hs; trace_simpl; intros Hr Hs.
  - destruct (jsonMatch (stripFences text)) as [jsonText|].
    + destruct (JSON_parse jsonText) as [[| | | | |]|];
        cbn [snd]; trace_simpl; split; assumption.
    + cbn [snd]; trace_simpl; split; assumption.
  - split; assumption.
Qed.

Lemma categorizeCall_budget JSON_parse transcript callReason issuesDiscussed w :
  let w' := snd (categorizeCall JSON_parse transcript callReason
                   issuesDiscussed w) in
  (List.length (requestsOf (trace w'))
   <= List.length (requestsOf (trace w)) + 6)%nat /\
  (List.length (sleepsOf (trace w'))
   <= List.length (sleepsOf (trace w)) + 5)%nat /\
  (sumZ (sleepsOf (trace w')) <= sumZ (sleepsOf (trace w)) + 385000)%Z.
Proof.
  exact (retryFrom_bounds
           (classifyOnce JSON_parse transcript callReason issuesDiscussed)
           (classifyOnce_oneRequest JSON_parse transcript callReason
              issuesDiscussed)
           5 5 0 w (le_n 5)).
Qed.

(** X6.  One call of [categorizeCall] sends at most 6 requests to the
    provider and sleeps at most 5 times, for at most 385 seconds in all,
    whatever the provider answers. *)
Theorem categorizeCall_bounded JSON_parse transcript callReason issuesDiscussed
  w :
  let w' := snd (categorizeCall JSON_parse transcript callReason
                   issuesDiscussed w) in
  (List.length (requestsOf (trace w'))
   <= List.length (requestsOf (trace w)) + 6)%nat /\
  (List.length (sleepsOf (trace w'))
   <= List.length (sleepsOf (trace w)) + 5)%nat /\
  (sumZ (sleepsOf (trace w')) <= sumZ (sleepsOf (trace w)) + 385000)%Z.
Proof.
  exact (categorizeCall_budget JSON_parse transcript callReason
           issuesDiscussed w).
Qed.

Lemma batchLoop_bounds JSON_parse total rest :
  forall i results w,
    let w' := snd (batchLoop JSON_parse total i rest results w) in
    (List.length (requestsOf (trace w'))
     <= List.length (requestsOf (trace w)) + 6 * List.length rest)%nat /\
    (sumZ (sleepsOf (trace w'))
     <= sumZ (sleepsOf (trace w))
        + 395000 * Z.of_nat (List.length rest))%Z.
Proof.
  induction rest as [|call rest IH]; intros i results w; cbv zeta.
  - cbn. lia.
  - pose proof (categorizeCall_budget JSON_parse (wi_transcript call)
                  (wi_callReason call) (wi_issuesDiscussed call)
                  (emit (EvLog (progressMsg i total) progress) w))
      as (B1 & _ & B3).
    cbv zeta in B1, B3. revert B1 B3. trace_simpl. intros B1 B3.
    destruct (batchLoop_step JSON_parse total i call results w)
      as (w2 & E & Hr & pause & Hs & Hp).
    cbv zeta in E, Hr, Hs. rewrite E. clear E.
    assert (Hpause : (0 <= sumZ pause <= 10000)%Z)
      by (destruct Hp as [->|[->| ->]]; cbn; lia).
    assert (Hw2 : (List.length (requestsOf (trace w2))
                   <= List.length (requestsOf (trace w)) + 6)%nat /\
                  (sumZ (sleepsOf (trace w2))
                   <= sumZ (sleepsOf (trace w)) + 395000)%Z).
    { rewrite Hr, Hs, sumZ_app. split; lia. }
    destruct Hw2 as (D1 & D2).
    assert (Hgo : forall rs,
               let w' := snd (batchLoop JSON_parse total (S i) rest rs w2) in
               (List.length (requestsOf (trace w'))
                <= List.length (requestsOf (trace w))
                   + 6 * List.length (call :: rest))%nat /\
               (sumZ (sleepsOf (trace w'))
                <= sumZ (sleepsOf (trace w))
                   + 395000 * Z.of_nat (List.length (call :: rest)))%Z).
    { intros rs. cbv zeta. destruct (IH (S i) rs w2) as (C1 & C2).
      cbn [List.length]. split; lia. }
    destruct (fst (categorizeCall JSON_parse _ _ _ _)) as [r|e];
      [apply Hgo|].
    destruct (isCritical e); [|apply Hgo].
    cbn [snd List.length]. split; lia.
Qed.

(** X7.  A batch of [N] items sends at most [6 * N] requests to the provider
    and sleeps at most [395 * N] seconds in all (backoff and pacing
    together), whether it returns or is stopped by the critical error: an
    empty batch sends nothing and does not sleep. *)
Theorem batch_bounded JSON_parse calls w :
  let w' := snd (batchCategorizeCallsWithProgress JSON_parse calls w) in
  (List.length (requestsOf (trace w'))
   <= List.length (requestsOf (trace w)) + 6 * List.length calls)%nat /\
  (sumZ (sleepsOf (trace w'))
   <= sumZ (sleepsOf (trace w)) + 395000 * Z.of_nat (List.length calls))%Z.
Proof.
  cbv zeta. unfold batchCategorizeCallsWithProgress, bind, log, ret.
  fold (batchStart calls w).
  pose proof (batchLoop_bounds JSON_parse (List.length calls) calls 0 []
                (batchStart calls w)) as (B1 & B2).
  cbv zeta in B1, B2. revert B1 B2. unfold batchStart at 2 4. trace_simpl.
  destruct (batchLoop _ _ _ _ _ _) as [[rs|e] w1]; cbn [snd]; intros B1 B2.
  - destruct (0 <? _)%nat; cbn [snd]; trace_simpl; split; assumption.
  - split; assumption.
Qed.

(** ** Well-formed results *)

Lemma defaulted_wellFormed parsed : wellFormed (defaulted parsed).
Proof.
  unfold wellFormed, defaulted. cbn [cr_categories cr_sentiment cr_summary].
  split; [|split].
  - destruct (getProp parsed "categories") as [[| | | |[|c cs]|]|];
      discriminate.
  - destruct (getProp parsed "sentiment") as [[| | |s| |]|];
      try (cbn; tauto).
    cbn [existsb]. destruct (String.eqb s "positive") eqn:E1.
    + apply String.eqb_eq in E1. subst. cbn. tauto.
    + destruct (String.eqb s "neutral") eqn:E2.
      * apply String.eqb_eq in E2. subst. cbn. tauto.
      * destruct (String.eqb s "negative") eqn:E3.
        -- apply String.eqb_eq in E3. subst. cbn. tauto.
        -- cbn. tauto.
  - destruct (getProp parsed "summary") as [[| | |s| |]|];
      try discriminate.
    destruct (String.eqb s "") eqn:E; [discriminate|].
    now apply String.eqb_neq in E.
Qed.

Lemma fallbackResult_wellFormed e : wellFormed (fallbackResult e).
Proof.
  unfold wellFormed, fallbackResult.
  cbn [cr_categories cr_sentiment cr_summary].
  split; [discriminate|]. split; [cbn; tauto | discriminate].
Qed.

Lemma retryFrom_returns {A} (P : A -> Prop) (fn : M A) :
  (forall w a w', fn w = (Returns a, w') -> P a) ->
  forall k maxRetries retryCount w a w',
    retryFrom fn k maxRetries retryCount w = (Returns a, w') -> P a.
Proof.
  intros Hfn. induction k as [|k IH]; intros maxRetries retryCount w a w';
    cbn [retryFrom]; specialize (Hfn w);
    destruct (fn w) as [[a0|e] w1];
    try (intros [= <- _]; now apply (Hfn a0 w1));
    unfold bind, log, sleep, throw;
    repeat match goal with
           | |- context [if ?b then _ else _] => destruct b
           end;
    try discriminate; apply IH.
Qed.

Lemma classifyOnce_returns_wellFormed JSON_parse transcript callReason
  issuesDiscussed w r w' :
  classifyOnce JSON_parse transcript callReason issuesDiscussed w
  = (Returns r, w') ->
  wellFormed r.
Proof.
  unfold classifyOnce, bind, log, throw, ret.
  rewrite getModelConfig_configOf. cbn beta iota.
  destruct (callProvider _ _ _) as [[text|e] w3]; [|discriminate].
  destruct (jsonMatch (stripFences text)) as [jsonText|]; [|discriminate].
  destruct (JSON_parse jsonText) as [[| | | | |]|]; try discriminate;
    intros [= <- _]; apply defaulted_wellFormed.
Qed.

Lemma categorizeCall_returns_wellFormed JSON_parse transcript callReason
  issuesDiscussed w r w' :
  categorizeCall JSON_parse transcript callReason issuesDiscussed w
  = (Returns r, w') ->
  wellFormed r.
Proof.
  unfold categorizeCall, retryWithBackoff.
  apply (retryFrom_returns wellFormed).
  intros w0 a w0'. apply classifyOnce_returns_wellFormed.
Qed.

Lemma batchLoop_wellFormed JSON_parse total rest :
  forall i results w rs w',
    Forall wellFormed results ->
    batchLoop JSON_parse total i rest results w = (Returns rs, w') ->
    Forall wellFormed rs.
Proof.
  induction rest as [|call rest IH]; intros i results w rs w' Hres H.
  - cbn in H. now injection H as <- _.
  - destruct (batchLoop_step JSON_parse total i call results w)
      as (w2 & E & _).
    cbv zeta in E. rewrite E in H. clear E.
    destruct (categorizeCall _ _ _ _ _) as [[r|e] w1] eqn:Hc;
      cbn [fst recorded] in H.
    + apply categorizeCall_returns_wellFormed in Hc.
      pose proof (fallbackResult_wellFormed joinError).
      eapply IH; [|exact H]. apply Forall_app. split; [exact Hres|].
      destruct (joinThrows (cr_categories r)); auto.
    + destruct (isCritical e); [discriminate|].
      pose proof (fallbackResult_wellFormed e).
      eapply IH; [|exact H]. apply Forall_app; split; auto.
Qed.

(** X8.  Every result a batch returns, classified or fallback, has at least
    one category, a sentiment that is "positive", "neutral" or "negative",
    and a summary that is not empty, whatever the provider answered. *)
Theorem batch_results_wellFormed JSON_parse calls w rs w' :
  batchCategorizeCallsWithProgress JSON_parse calls w = (Returns rs, w') ->
  Forall wellFormed rs.
Proof.
  intros H. apply batch_returns_loop in H. destruct H as (w1 & H).
  eapply batchLoop_wellFormed; [|exact H]. constructor.
Qed.

Lemma batch_results_wellFormed_witness :
  Forall wellFormed
    (match fst (batchCategorizeCallsWithProgress sampleParse
                  [sampleItem; sampleItem] (sampleWorld emptyObjectServer)) with
     | Returns rs => rs
     | Throws _ => []
     end).
Proof.
  destruct (batchCategorizeCallsWithProgress sampleParse
              [sampleItem; sampleItem] (sampleWorld emptyObjectServer))
    as [[rs|e] w'] eqn:H; cbn [fst].
  - exact (batch_results_wellFormed sampleParse _ _ rs w' H).
  - constructor.
Defined.

(** ** The JSON object found in an answer *)

Lemma fromFirstBrace_skip pre rest :
  lacks "{" pre = true ->
  fromFirstBrace (pre ++ String "{" rest) = Some (String "{" rest).
Proof.
  induction pre as [|c pre IH]; cbn [lacks String.append fromFirstBrace].
  - reflexivity.
  - intros H. apply andb_prop in H. destruct H as (Hc & Hp).
    apply negb_true_iff in Hc. rewrite Hc. now apply IH.
Qed.

Lemma toLastBrace_none post : lacks "}" post = true -> toLastBrace post = None.
Proof.
  induction post as [|c post IH]; cbn [lacks toLastBrace]; [reflexivity|].
  intros H. apply andb_prop in H. destruct H as (Hc & Hp).
  apply negb_true_iff in Hc. now rewrite (IH Hp), Hc.
Qed.

Lemma toLastBrace_greedy x post :
  lacks "}" post = true ->
  toLastBrace (x ++ String "}" post) = Some (x ++ "}")%string.
Proof.
  intros Hp. induction x as [|c x IH]; cbn [String.append toLastBrace].
  - now rewrite (toLastBrace_none post Hp).
  - now rewrite IH.
Qed.

(** X9.  [jsonMatch] takes the text from the first opening brace to the last
    closing brace: whatever stands between them (braces included), text
    before the first opening brace and text after the last closing brace
    are dropped. *)
Theorem jsonMatch_first_to_last pre mid post :
  lacks "{" pre = true ->
  lacks "}" post = true ->
  jsonMatch (pre ++ "{" ++ mid ++ "}" ++ post)
  = Some ("{" ++ mid ++ "}")%string.
Proof.
  intros Hpre Hpost. unfold jsonMatch.
  change ("{" ++ mid ++ "}" ++ post)%string
    with (String "{" (mid ++ String "}" post)).
  rewrite (fromFirstBrace_skip pre _ Hpre).
  change (String "{" (mid ++ String "}" post))
    with (String "{" mid ++ String "}" post)%string.
  now rewrite (toLastBrace_greedy _ post Hpost).
Qed.

Lemma jsonMatch_first_to_last_witness :
  jsonMatch "Sure} here: {a{b}c} done{" = Some "{a{b}c}".
Proof.
  exact (jsonMatch_first_to_last "Sure} here: " "a{b}c" " done{"
           eq_refl eq_refl).
Defined.

(** X10.  A text without opening brace, or without closing brace after its
    first opening brace, holds no JSON object for [jsonMatch]. *)
Theorem jsonMatch_none_without_braces s :
  (lacks "{" s = true -> jsonMatch s = None) /\
  (forall pre rest,
     lacks "{" pre = true -> lacks "}" rest = true ->
     jsonMatch (pre ++ String "{" rest) = None).
Proof.
  split.
  - unfold jsonMatch. induction s as [|c s IH]; cbn [lacks fromFirstBrace];
      [reflexivity|].
    intros H. apply andb_prop in H. destruct H as (Hc & Hp).
    apply negb_true_iff in Hc. rewrite Hc. now apply IH.
  - intros pre rest Hpre Hrest. unfold jsonMatch.
    rewrite (fromFirstBrace_skip pre rest Hpre).
    cbn [toLastBrace]. now rewrite (toLastBrace_none rest Hrest).
Qed.

Lemma jsonMatch_none_without_braces_witness :
  jsonMatch "no object here }" = None /\ jsonMatch "} { unclosed" = None.
Proof.
  split.
  - exact (proj1 (jsonMatch_none_without_braces "no object here }") eq_refl).
  - exact (proj2 (jsonMatch_none_without_braces "") "} " " unclosed"
             eq_refl eq_refl).
Defined.

(** ** A batch without API key *)

Lemma keyMissing_emit ev w : keyMissing w -> keyMissing (emit ev w).
Proof. intros H. exact H. Qed.

Lemma categorizeCall_keyMissing JSON_parse transcript callReason
  issuesDiscussed w :
  keyMissing w ->
  exists w1,
    categorizeCall JSON_parse transcript callReason issuesDiscussed w
    = (Throws (missingKeyError (provider (configOf w))), w1) /\
    keyMissing w1 /\ configOf w1 = configOf w /\
    requestsOf (trace w1) = requestsOf (trace w) /\
    sleepsOf (trace w1) = sleepsOf (trace w).
Proof.
  intros Hkey.
  exists (emit (EvLog ("Analyzing call transcript with "
                       ++ providerName (provider (configOf w)) ++ "/"
                       ++ model (configOf w) ++ "...") info) w).
  split.
  - unfold categorizeCall. apply retryWithBackoff_plain_error.
    + unfold classifyOnce, bind, log. rewrite getModelConfig_configOf.
      cbn beta iota. unfold callProvider, callGroqAPI, callGeminiAPI.
      unfold keyMissing in Hkey.
      destruct (provider (configOf w)); cbn [GROQ_API_KEY GEMINI_API_KEY emit];
        rewrite Hkey; reflexivity.
    + destruct (provider (configOf w)); reflexivity.
  - repeat split; trace_simpl; try reflexivity. exact Hkey.
Qed.

Lemma batchLoop_keyMissing JSON_parse total rest :
  forall i results w,
    keyMissing w ->
    i + List.length rest = total ->
    exists w',
      batchLoop JSON_parse total i rest results w
      = (Returns (results
                  ++ map (fun _ => fallbackResult
                                     (missingKeyError (provider (configOf w))))
                       rest), w') /\
      requestsOf (trace w') = requestsOf (trace w) /\
      sleepsOf (trace w')
      = sleepsOf (trace w) ++ repeat 10000%Z (List.length rest - 1).
Proof.
  induction rest as [|call rest IH]; intros i results w Hkey Hlen.
  - exists w. cbn. now rewrite !app_nil_r.
  - cbn [List.length] in Hlen.
    destruct (categorizeCall_keyMissing JSON_parse (wi_transcript call)
                (wi_callReason call) (wi_issuesDiscussed call)
                (emit (EvLog (progressMsg i total) progress) w)
                (keyMissing_emit _ w Hkey))
      as (w1 & Hc & Hkey1 & Hcfg & Hrq & Hsl).
    change (configOf (emit (EvLog (progressMsg i total) progress) w))
      with (configOf w) in Hc, Hcfg.
    revert Hrq Hsl. trace_simpl. intros Hrq Hsl.
    cbn [batchLoop]. rewrite Hc.
    assert (Hcrit : isCritical (missingKeyError (provider (configOf w))) = false)
      by (destruct (provider (configOf w)); reflexivity).
    unfold bind, log, notifyProgress, sleep, ret. rewrite Hcrit.
    destruct (i <? total - 1)%nat eqn:Hi.
    + apply Nat.ltb_lt in Hi.
      match goal with
      | |- context [batchLoop JSON_parse total (S i) rest ?rs ?w2] =>
          destruct (IH (S i) rs w2) as (w' & E & Er & Es);
            [exact Hkey1 | lia |];
          assert (Hcfg2 : configOf w2 = configOf w) by exact Hcfg;
          rewrite Hcfg2 in E
      end.
      exists w'. split; [|split].
      * rewrite E. cbn [map]. now rewrite <- app_assoc.
      * rewrite Er. trace_simpl. exact Hrq.
      * rewrite Es. trace_simpl. rewrite Hsl, <- app_assoc.
        destruct rest as [|c2 rest]; [cbn in Hlen; lia|].
        cbn [List.length Nat.sub repeat app]. now rewrite Nat.sub_0_r.
    + apply Nat.ltb_ge in Hi.
      destruct rest as [|c2 rest]; [|cbn [List.length] in Hlen; lia].
      eexists. split; [|split].
      * cbn [batchLoop ret map]. reflexivity.
      * trace_simpl. exact Hrq.
      * trace_simpl. cbn [List.length Nat.sub repeat].
        rewrite ?app_nil_r. exact Hsl.
Qed.

(** X11.  When the API key of the configured provider is not set, a batch
    sends no request at all: every item gets the fallback result that
    carries the missing-key message, the batch still returns one result per
    item, and it still sleeps 10 seconds between consecutive items. *)
Theorem batch_without_key JSON_parse calls w :
  keyMissing w ->
  exists w',
    batchCategorizeCallsWithProgress JSON_parse calls w
    = (Returns (map (fun _ => fallbackResult
                                (missingKeyError (provider (configOf w))))
                  calls), w') /\
    requestsOf (trace w') = requestsOf (trace w) /\
    sleepsOf (trace w')
    = sleepsOf (trace w) ++ repeat 10000%Z (List.length calls - 1).
Proof.
  intros Hkey.
  destruct (batchLoop_keyMissing JSON_parse (List.length calls) calls 0 []
              (batchStart calls w) Hkey eq_refl) as (w1 & E & Er & Es).
  unfold batchCategorizeCallsWithProgress, bind, log, ret.
  fold (batchStart calls w). rewrite E. cbn [app].
  unfold batchStart in Er, Es. revert Er Es. trace_simpl. intros Er Es.
  destruct (0 <? _)%nat; eexists; (split; [reflexivity|]);
    split; trace_simpl; assumption.
Qed.

Lemma batch_without_key_witness :
  keyMissing keylessWorld /\
  exists w',
    batchCategorizeCallsWithProgress sampleParse [sampleItem; sampleItem]
      keylessWorld
    = (Returns [fallbackResult (missingKeyError groq);
                fallbackResult (missingKeyError groq)], w') /\
    requestsOf (trace w') = [] /\
    sleepsOf (trace w') = [10000%Z].
Proof.
  split; [reflexivity|].
  exact (batch_without_key sampleParse [sampleItem; sampleItem] keylessWorld
           eq_refl).
Defined.

(** ** The critical error *)

Lemma firstn_prefix {A} (pre post : list A) :
  firstn (List.length pre) (pre ++ post) = pre.
Proof.
  rewrite firstn_app, Nat.sub_diag, firstn_all. cbn. apply app_nil_r.
Qed.

(** The loop over one more item, when that item does not stop it. *)
Lemma batchLoop_snoc JSON_parse total pre call results w0 w :
  batchLoop JSON_parse total 0 pre [] w0 = (Returns results, w) ->
  let o := categorizeCall JSON_parse (wi_transcript call)
             (wi_callReason call) (wi_issuesDiscussed call)
             (emit (EvLog (progressMsg (List.length pre) total) progress) w) in
  (forall e, fst o = Throws e -> isCritical e = false) ->
  exists w2,
    batchLoop JSON_parse total 0 (pre ++ [call]) [] w0
    = (Returns (results ++ recorded (fst o)), w2) /\
    (forall rest,
       batchLoop JSON_parse total (List.length pre) (call :: rest) results w
       = batchLoop JSON_parse total (S (List.length pre)) rest
           (results ++ recorded (fst o)) w2) /\
    requestsOf (trace w2) = requestsOf (trace (snd o)).
Proof.
  intros Hpre o Hnc.
  destruct (batchLoop_step JSON_parse total (List.length pre) call results w)
    as (w2 & E & Hr & _).
  cbv zeta in E, Hr. fold o in E, Hr.
  assert (E' : forall rest,
             batchLoop JSON_parse total (List.length pre) (call :: rest)
               results w
             = batchLoop JSON_parse total (S (List.length pre)) rest
                 (results ++ recorded (fst o)) w2).
  { intros rest. rewrite E. destruct (fst o) as [r|e] eqn:Ho; [reflexivity|].
    now rewrite (Hnc e eq_refl). }
  exists w2. split; [|split; [exact E' | exact Hr]].
  rewrite batchLoop_app, Hpre. cbn [Nat.add]. rewrite E'. reflexivity.
Qed.

Lemma batchLoop_throws_at JSON_parse total w0 e' w' :
  forall post pre results w,
    batchLoop JSON_parse total 0 pre [] w0 = (Returns results, w) ->
    batchLoop JSON_parse total (List.length pre) post results w
    = (Throws e', w') ->
    exists i call e before,
      nth_error (pre ++ post) i = Some call /\
      fst (batchLoop JSON_parse total 0 (firstn i (pre ++ post)) [] w0)
      = Returns before /\
      i <= List.length before <= 2 * i /\
      fst (categorizeCall JSON_parse (wi_transcript call) (wi_callReason call)
             (wi_issuesDiscussed call)
             (emit (EvLog (progressMsg i total) progress)
                (snd (batchLoop JSON_parse total 0 (firstn i (pre ++ post)) []
                        w0))))
      = Throws e /\
      isCritical e = true /\
      e' = abortError (S (List.length before)) total e.
Proof.
  induction post as [|call post IH]; intros pre results w Hpre H.
  - discriminate.
  - destruct (categorizeCall JSON_parse (wi_transcript call)
                (wi_callReason call) (wi_issuesDiscussed call)
                (emit (EvLog (progressMsg (List.length pre) total) progress) w))
      as [o w1] eqn:Hc.
    assert (Hcrit : (exists e, o = Throws e /\ isCritical e = true) \/
                    (forall e, o = Throws e -> isCritical e = false)).
    { destruct o as [r|e]; [right; discriminate|].
      destruct (isCritical e) eqn:E; [left; eauto | right].
      intros e0 [= <-]. exact E. }
    destruct Hcrit as [(e & -> & Hcr) | Hnc].
    + destruct (batchLoop_critical_step JSON_parse total (List.length pre)
                  call results w e w1 Hc Hcr) as (w2 & E & _).
      rewrite E in H. injection H as <- _.
      pose proof (batchLoop_returns JSON_parse total pre 0 [] w0 results w
                    Hpre) as (more & Hres & Hlen).
      cbn [app] in Hres. subst more.
      exists (List.length pre), call, e, results.
      rewrite firstn_prefix, Hpre. cbn [fst snd]. rewrite Hc. cbn [fst].
      split; [|split; [reflexivity | split; [exact Hlen | auto]]].
      rewrite nth_error_app2 by lia. now rewrite Nat.sub_diag.
    + pose proof (batchLoop_snoc JSON_parse total pre call results w0 w Hpre)
        as Hsnoc.
      cbv zeta in Hsnoc. rewrite Hc in Hsnoc. cbn [fst snd] in Hsnoc.
      destruct (Hsnoc Hnc) as (w2 & Hpre' & Hstep & _).
      rewrite Hstep in H.
      replace (S (List.length pre)) with (List.length (pre ++ [call])) in H
        by (rewrite length_app; cbn; lia).
      destruct (IH (pre ++ [call]) (results ++ recorded o) w2 Hpre' H)
        as (i & c & e & before & Hn & Hb & Hl & Ho & Hcr & He).
      rewrite <- app_assoc in Hn, Hb, Ho. cbn [app] in Hn, Hb, Ho.
      exists i, c, e, before. auto 6.
Qed.

(** X12.  A batch throws only for the critical error: when it throws, the
    classification of some item [i], reached without earlier stop, threw an
    error of status 429 whose message includes "exceeded", and what the
    batch throws is the abort error built from it.  The count it carries is
    one more than the number of results the items before [i] have left,
    which is at least [i] and at most [2 * i]. *)
Theorem batch_throws_only_critical JSON_parse calls w e' w' :
  batchCategorizeCallsWithProgress JSON_parse calls w = (Throws e', w') ->
  exists i call e before,
    nth_error calls i = Some call /\
    fst (batchLoop JSON_parse (List.length calls) 0 (firstn i calls) []
           (batchStart calls w)) = Returns before /\
    i <= List.length before <= 2 * i /\
    itemOutcome JSON_parse calls i call w = Throws e /\
    isCritical e = true /\
    e' = abortError (S (List.length before)) (List.length calls) e.
Proof.
  intros H. unfold batchCategorizeCallsWithProgress, bind, log, ret in H.
  fold (batchStart calls w) in H.
  destruct (batchLoop _ _ _ _ _ _) as [[rs|e0] w1] eqn:Hloop.
  - destruct (0 <? _)%nat; discriminate.
  - injection H as <- <-.
    exact (batchLoop_throws_at JSON_parse (List.length calls)
             (batchStart calls w) e0 w1 calls [] [] (batchStart calls w)
             eq_refl Hloop).
Qed.

Lemma batch_throws_only_critical_witness :
  exists i call e,
    nth_error [sampleItem] i = Some call /\
    itemOutcome sampleParse [sampleItem] i call (sampleWorld exhaustedServer)
    = Throws e /\
    isCritical e = true.
Proof.
  destruct (batchCategorizeCallsWithProgress sampleParse [sampleItem]
              (sampleWorld exhaustedServer)) as [[rs|e'] w'] eqn:H.
  - vm_compute in H. discriminate H.
  - destruct (batch_throws_only_critical sampleParse [sampleItem]
                (sampleWorld exhaustedServer) e' w' H)
      as (i & call & e & before & Hn & _ & _ & Ho & Hc & _).
    exists i, call, e. auto.
Defined.

(** X13.  When the classification of item [i], reached without earlier stop,
    throws the critical error, the batch stops at once: it throws the abort
    error, whose count is one more than the number of results the items
    before [i] have left, and the requests sent are those sent up to that
    failure, so no later item is classified. *)
Theorem batch_stops_at_critical JSON_parse calls i call w e before :
  nth_error calls i = Some call ->
  fst (batchLoop JSON_parse (List.length calls) 0 (firstn i calls) []
         (batchStart calls w)) = Returns before ->
  itemOutcome JSON_parse calls i call w = Throws e ->
  isCritical e = true ->
  i <= List.length before <= 2 * i /\
  exists w',
    batchCategorizeCallsWithProgress JSON_parse calls w
    = (Throws (abortError (S (List.length before)) (List.length calls) e),
       w') /\
    requestsOf (trace w')
    = requestsOf
        (trace (snd (categorizeCall JSON_parse (wi_transcript call)
                       (wi_callReason call) (wi_issuesDiscussed call)
                       (itemWorld JSON_parse calls i w)))).
Proof.
  intros Hi Hpre Ho Hcr.
  apply nth_error_split in Hi. destruct Hi as (pre & post & Hcalls & Hlen).
  unfold itemOutcome, itemWorld in *.
  assert (Hf : firstn i calls = pre)
    by (rewrite Hcalls, <- Hlen; apply firstn_prefix).
  rewrite Hf in *.
  remember (List.length calls) as total eqn:Ht.
  remember (batchStart calls w) as ws eqn:Hws.
  destruct (batchLoop JSON_parse total 0 pre [] ws) as [o wi] eqn:Hloop.
  cbn [fst snd] in *. subst o.
  pose proof (batchLoop_returns JSON_parse total pre 0 [] ws before wi Hloop)
    as (more & Hrs & Hmore).
  cbn [app] in Hrs. subst more. rewrite Hlen in Hmore.
  split; [exact Hmore|].
  destruct (categorizeCall JSON_parse (wi_transcript call) (wi_callReason call)
              (wi_issuesDiscussed call)
              (emit (EvLog (progressMsg i total) progress) wi))
    as [o w1] eqn:Hc.
  cbn [fst snd] in *. subst o.
  destruct (batchLoop_critical_step JSON_parse total i call before wi e w1
              Hc Hcr) as (w2 & E & Hrq & _).
  exists w2. split; [|exact Hrq].
  unfold batchCategorizeCallsWithProgress, bind, log, ret.
  fold (batchStart calls w). rewrite <- Hws, <- Ht.
  rewrite Hcalls at 1. rewrite batchLoop_app, Hloop. cbn [Nat.add].
  rewrite Hlen, E. reflexivity.
Qed.

Lemma batch_stops_at_critical_witness :
  exists w',
    batchCategorizeCallsWithProgress objectCategoryParse
      [sampleItem; sampleItem] (sampleWorld objectThenExhaustedServer)
    = (Throws (abortError 3 2 (mkJsError (Some 429%Z) "Rate limit exceeded"
                                 None)), w') /\
    List.length (requestsOf (trace w')) = 7.
Proof.
  destruct (batch_stops_at_critical objectCategoryParse
              [sampleItem; sampleItem] 1
              sampleItem (sampleWorld objectThenExhaustedServer)
              (mkJsError (Some 429%Z) "Rate limit exceeded" None)
              [objectCategoryResult; fallbackResult joinError]
              eq_refl) as (_ & w' & E & Hrq).
  - vm_compute. reflexivity.
  - vm_compute. reflexivity.
  - reflexivity.
  - exists w'. split; [exact E|]. rewrite Hrq. vm_compute. reflexivity.
Defined.

(** ** More on the aggregator *)

Lemma bumpSentiment_total s t : tallyTotal (bumpSentiment s t) = S (tallyTotal t).
Proof.
  unfold bumpSentiment, tallyTotal.
  destruct (String.eqb s "positive"); [cbn; lia|].
  destruct (String.eqb s "negative"); cbn; lia.
Qed.

Lemma countSentiments_total cs :
  tallyTotal (countSentiments cs) = List.length cs.
Proof.
  unfold countSentiments.
  assert (H : forall t,
             tallyTotal (fold_left
                           (fun t call => bumpSentiment (sentimentOf call) t)
                           cs t)
             = tallyTotal t + List.length cs).
  { induction cs as [|c cs IH]; intros t; cbn [fold_left List.length].
    - lia.
    - rewrite IH, bumpSentiment_total. lia. }
  now rewrite H.
Qed.

Lemma touchCategory_balanced call m x :
  balanced m -> balanced (touchCategory call m x).
Proof.
  intros Hb k v. unfold touchCategory.
  destruct (map_has x m) eqn:Hhas.
  - destruct (map_get x m) as [s|] eqn:G.
    + rewrite map_get_set. destruct (String.eqb k x).
      * intros [= <-]. cbn [cd_sentiment cd_count].
        rewrite bumpSentiment_total. f_equal. now apply (Hb x).
      * apply Hb.
    + apply Hb.
  - rewrite map_get_set, String.eqb_refl, !map_get_set.
    destruct (String.eqb k x).
    + intros [= <-]. cbn [cd_sentiment cd_count emptyCategory].
      now rewrite bumpSentiment_total.
    + apply Hb.
Qed.

Lemma buildCategoryMap_balanced cs : balanced (buildCategoryMap cs).
Proof.
  unfold buildCategoryMap.
  assert (H : forall m, balanced m ->
             balanced (fold_left
                         (fun m call =>
                            fold_left (touchCategory call) (categories call) m)
                         cs m)).
  { induction cs as [|c cs IH]; intros m Hm; cbn [fold_left]; [exact Hm|].
    apply IH. generalize (categories c). intros l. revert m Hm.
    induction l as [|x l IHl]; intros m Hm; cbn [fold_left]; [exact Hm|].
    apply IHl. now apply touchCategory_balanced. }
  apply H. intros k v. discriminate.
Qed.

(** X14.  The sentiment tallies add up: the global tally of a snapshot marks
    every call once, so its three numbers sum to the number of calls, and
    the tally of every category sums to the count of that category. *)
Theorem calculateStatistics_tallies_add_up (now : string) (cs : list CallData) :
  let r := calculateStatistics now cs in
  tallyTotal (sentimentDistribution (summary r)) = totalCalls r /\
  Forall (fun c => tallyTotal (cs_sentiment c) = count c) (ad_categories r).
Proof.
  cbn. split; [apply countSentiments_total|].
  rewrite Forall_forall. intros c Hc.
  eapply Permutation_in in Hc; [|apply sortedCategories_perm].
  apply in_map_iff in Hc. destruct Hc as ([k v] & <- & Hin).
  cbn. apply (buildCategoryMap_balanced cs k).
  apply map_In_get; [apply buildCategoryMap_NoDup | exact Hin].
Qed.

Lemma count_occ_labels_le cs k :
  Forall (fun call => NoDup (categories call)) cs ->
  count_occ string_dec (labels cs) k <= List.length cs.
Proof.
  unfold labels. induction 1 as [|c cs Hc Hcs IH]; cbn [flat_map List.length].
  - cbn. lia.
  - rewrite count_occ_app.
    pose proof (proj1 (NoDup_count_occ string_dec (categories c)) Hc k). lia.
Qed.

(** ** Percentages in double arithmetic

    The quotient of two integers below 2^53, the smaller over the larger,
    rounds to at most 1, and one hundred times a double that is at most 1
    rounds to at most 100: rounding to nearest is monotone and both bounds
    are doubles.  The argument follows the specification of the operations
    ([SpecFloat]) that the primitive doubles are bound to. *)

Section DoubleBounds.

Local Open Scope R_scope.

Lemma bpow_gt_0 e : 0 < bpow e.
Proof. apply powerRZ_lt. lra. Qed.

Lemma bpow_plus a b : bpow (a + b) = bpow a * bpow b.
Proof. apply powerRZ_add. lra. Qed.

Lemma bpow_succ e : bpow (e + 1) = 2 * bpow e.
Proof. rewrite bpow_plus. unfold bpow at 2. simpl. lra. Qed.

Lemma bpow_ge_1 k : (0 <= k)%Z -> 1 <= bpow k.
Proof.
  intros H. unfold bpow. rewrite <- (Z2Nat.id k H), <- pow_powerRZ.
  apply pow_R1_Rle. lra.
Qed.

Lemma bpow_le a b : (a <= b)%Z -> bpow a <= bpow b.
Proof.
  intros H. replace b with (a + (b - a))%Z by lia. rewrite bpow_plus.
  pose proof (bpow_ge_1 (b - a) ltac:(lia)). pose proof (bpow_gt_0 a). nra.
Qed.

Lemma bpow_lt a b : (a < b)%Z -> bpow a < bpow b.
Proof.
  intros H. replace b with (a + 1 + (b - a - 1))%Z by lia.
  rewrite bpow_plus, bpow_succ.
  pose proof (bpow_ge_1 (b - a - 1) ltac:(lia)). pose proof (bpow_gt_0 a). nra.
Qed.

Lemma bpow_lt_inv a b : bpow a < bpow b -> (a < b)%Z.
Proof.
  intros H. destruct (Z_lt_le_dec a b) as [L|L]; [exact L|].
  apply bpow_le in L. lra.
Qed.

Lemma bpow_le_inv a b : bpow a <= bpow b -> (a <= b)%Z.
Proof.
  intros H. destruct (Z_le_gt_dec a b) as [L|L]; [exact L|].
  assert (b < a)%Z by lia. apply bpow_lt in H0. lra.
Qed.

Lemma bpow_IZR k : (0 <= k)%Z -> bpow k = IZR (2 ^ k).
Proof.
  revert k. apply natlike_ind.
  - reflexivity.
  - intros k Hk IH. unfold Z.succ. rewrite bpow_succ, IH.
    rewrite Z.pow_add_r by lia. rewrite mult_IZR. cbn. lra.
Qed.

(** digits *)
Lemma digits2_size p : digits2_pos p = Pos.size p.
Proof. induction p; cbn; now rewrite ?IHp. Qed.

Lemma digits_bounds p :
  bpow (Z.pos (digits2_pos p) - 1) <= IZR (Z.pos p) < bpow (Z.pos (digits2_pos p)).
Proof.
  rewrite digits2_size.
  pose proof (Pos.size_le p) as Hle. pose proof (Pos.size_gt p) as Hgt.
  assert (H0 : (0 <= Z.pos (Pos.size p) - 1)%Z) by lia.
  rewrite (bpow_IZR _ H0), (bpow_IZR (Z.pos (Pos.size p))) by lia.
  split.
  - apply IZR_le.
    assert (2 ^ Z.pos (Pos.size p) <= 2 * Z.pos p)%Z.
    { rewrite <- Pos2Z.inj_pow. change (2 * Z.pos p)%Z with (Z.pos p~0).
      apply Pos2Z.pos_le_pos. exact Hle. }
    replace (Z.pos (Pos.size p)) with (Z.pos (Pos.size p) - 1 + 1)%Z in H by lia.
    rewrite Z.pow_add_r in H by lia. lia.
  - apply IZR_lt. rewrite <- Pos2Z.inj_pow. apply Pos2Z.pos_lt_pos. exact Hgt.
Qed.


Lemma shr_1_brackets mrs e v : brackets mrs e v -> brackets (shr_1 mrs) (e + 1) v.
Proof.
  destruct mrs as [m r s]. unfold brackets, F2R. cbn [shr_m shr_r shr_s].
  rewrite bpow_succ. pose proof (bpow_gt_0 e) as HB.
  intros (Hm & Hv & Hx).
  destruct m as [|p|p]; [| |lia].
  - cbn [shr_1 shr_m shr_r shr_s]. rewrite ?plus_IZR in *. cbn [IZR] in *.
    change (IZR 0) with 0 in *. change (IZR 1) with 1 in *.
    split; [lia|]. split; [lra|].
    destruct r, s; cbn [orb] in *; split; intros H;
      try discriminate; try reflexivity; try lra;
      try (exfalso; assert (true = false) by (apply Hx; lra); discriminate);
      try (apply Hx; lra).
  - destruct p as [p|p|].
    + cbn [shr_1 shr_m shr_r shr_s].
      rewrite Pos2Z.inj_xI in Hv, Hx.
      rewrite ?plus_IZR, ?mult_IZR in *.
      change (IZR 2) with 2 in *. change (IZR 1) with 1 in *.
      set (P := IZR (Z.pos p)) in *.
      split; [lia|]. split; [nra|].
      cbn [orb]. split; [discriminate|]. intros H. exfalso. nra.
    + cbn [shr_1 shr_m shr_r shr_s].
      rewrite Pos2Z.inj_xO in Hv, Hx.
      rewrite ?plus_IZR, ?mult_IZR in *.
      change (IZR 2) with 2 in *. change (IZR 1) with 1 in *.
      set (P := IZR (Z.pos p)) in *.
      split; [lia|]. split; [nra|].
      cbn [orb]. split; intros H.
      * assert (v = 2 * P * bpow e) by (apply Hx; exact H). nra.
      * apply Hx. nra.
    + cbn [shr_1 shr_m shr_r shr_s].
      rewrite ?plus_IZR in *. 
      change (IZR 0) with 0 in *. change (IZR 1) with 1 in *.
      split; [lia|]. split; [nra|].
      cbn [orb]. split; [discriminate|]. intros H. exfalso. nra.
Qed.

Lemma iter_shr_brackets p :
  forall mrs e v,
    brackets mrs e v ->
    brackets (SpecFloat.iter_pos shr_1 p mrs) (e + Z.pos p) v.
Proof.
  induction p as [p IH|p IH|]; intros mrs e v H;
    cbn [SpecFloat.iter_pos].
  - replace (e + Z.pos p~1)%Z with (e + 1 + Z.pos p + Z.pos p)%Z by lia.
    apply IH, IH, shr_1_brackets, H.
  - replace (e + Z.pos p~0)%Z with (e + Z.pos p + Z.pos p)%Z by lia.
    apply IH, IH, H.
  - apply shr_1_brackets, H.
Qed.

Lemma shr_brackets mrs e n v :
  brackets mrs e v ->
  brackets (fst (shr mrs e n)) (snd (shr mrs e n)) v /\
  snd (shr mrs e n) = Z.max e (e + n).
Proof.
  intros H. destruct n as [|p|p]; cbn [shr fst snd].
  - split; [exact H | lia].
  - split; [apply iter_shr_brackets, H | lia].
  - split; [exact H | lia].
Qed.

Lemma F2R_le_inv m k e : F2R m e <= F2R k e -> (m <= k)%Z.
Proof.
  unfold F2R. intros H. pose proof (bpow_gt_0 e). apply le_IZR. nra.
Qed.

Lemma F2R_lt_inv m k e : F2R m e < F2R k e -> (m < k)%Z.
Proof.
  unfold F2R. intros H. pose proof (bpow_gt_0 e). apply lt_IZR. nra.
Qed.

Lemma F2R_le m k e : (m <= k)%Z -> F2R m e <= F2R k e.
Proof.
  unfold F2R. intros H. pose proof (bpow_gt_0 e). apply IZR_le in H. nra.
Qed.

Lemma round_nearest_even_le mrs e v K :
  brackets mrs e v -> v <= F2R K e ->
  (0 <= round_nearest_even (shr_m mrs) (loc_of_shr_record mrs) <= K)%Z.
Proof.
  destruct mrs as [m r s]. unfold brackets. cbn [shr_m shr_r shr_s].
  intros (Hm & Hv & Hx) HK.
  assert (Hle : (m <= K)%Z) by (apply (F2R_le_inv _ _ e); lra).
  assert (Hlt : orb r s = true -> (m + 1 <= K)%Z).
  { intros Hrs. assert (v <> F2R m e).
    { intros E. apply Hx in E. congruence. }
    assert (m < K)%Z by (apply (F2R_lt_inv _ _ e); lra). lia. }
  destruct r, s; cbn [loc_of_shr_record round_nearest_even orb] in *;
    try (specialize (Hlt eq_refl)); try lia.
  destruct (Z.even m); lia.
Qed.

Lemma digits_le_of_F2R_le p e k :
  F2R (Z.pos p) e < bpow k -> (Z.pos (digits2_pos p) + e <= k)%Z.
Proof.
  intros H. pose proof (digits_bounds p) as (Hd & _).
  unfold F2R in H. pose proof (bpow_gt_0 e).
  assert (bpow (Z.pos (digits2_pos p) - 1 + e) < bpow k).
  { rewrite bpow_plus. nra. }
  apply bpow_lt_inv in H1. lia.
Qed.

Lemma fexp64_eq x : fexp64 x = Z.max (x - 53) (-1074).
Proof. reflexivity. Qed.

(** The result of rounding a value at most a bound that is a multiple of the
    unit the rounding works in. *)
Lemma binary_round_aux_le mx ex lx v K :
  brackets (shr_record_of_loc mx lx) ex v ->
  v <= F2R K (Z.max ex (fexp64 (Zdigits2 mx + ex))) ->
  F2R K (Z.max ex (fexp64 (Zdigits2 mx + ex))) < bpow 1024 ->
  (ex <= 971)%Z ->
  match binary_round_aux prec emax false mx ex lx with
  | S754_zero false => True
  | S754_finite false mf ef =>
      F2R (Z.pos mf) ef <= F2R K (Z.max ex (fexp64 (Zdigits2 mx + ex)))
  | _ => False
  end.
Proof.
  intros Hbr HK Hfin Hex.
  unfold binary_round_aux, shr_fexp.
  pose proof (shr_brackets (shr_record_of_loc mx lx) ex
                (fexp64 (Zdigits2 mx + ex) - ex) v Hbr) as (H1 & E1).
  destruct (shr (shr_record_of_loc mx lx) ex (fexp64 (Zdigits2 mx + ex) - ex))
    as [mrs' e'].
  cbn [fst snd] in H1, E1.
  replace (Z.max ex (ex + (fexp64 (Zdigits2 mx + ex) - ex)))
    with (Z.max ex (fexp64 (Zdigits2 mx + ex))) in E1 by lia.
  rewrite <- E1 in *.
  pose proof (round_nearest_even_le mrs' e' v K H1 HK) as Hr.
  set (m2 := round_nearest_even (shr_m mrs') (loc_of_shr_record mrs')) in *.
  assert (Hbr2 : brackets (shr_record_of_loc m2 loc_Exact) e' (F2R m2 e')).
  { unfold brackets. cbn [shr_record_of_loc shr_m shr_r shr_s orb].
    split; [lia|]. split; [|tauto].
    unfold F2R. rewrite plus_IZR. pose proof (bpow_gt_0 e'). nra. }
  pose proof (shr_brackets (shr_record_of_loc m2 loc_Exact) e'
                (fexp64 (Zdigits2 m2 + e') - e') _ Hbr2) as (H2 & E2).
  destruct (shr (shr_record_of_loc m2 loc_Exact) e'
              (fexp64 (Zdigits2 m2 + e') - e')) as [mrs'' e''].
  cbn [fst snd] in H2, E2.
  destruct H2 as (Hm2 & (Hlo & _) & _).
  assert (Hm2K : F2R m2 e' <= F2R K e') by (apply F2R_le; lia).
  destruct (shr_m mrs'') as [|mf|mf] eqn:Em; [exact I| |lia].
  assert (He'' : (e'' <= 971)%Z).
  { rewrite E2.
    assert (He' : (e' <= 971)%Z).
    { rewrite E1. rewrite fexp64_eq.
      assert (Hsm : shr_m (shr_record_of_loc mx lx) = mx)
        by (destruct lx as [|[]]; reflexivity).
      destruct Hbr as (Hnn & (Hlo0 & _) & _). rewrite Hsm in *.
      destruct mx as [|px|px]; cbn [Zdigits2]; [lia| |lia].
      assert (Hpx : F2R (Z.pos px) ex < bpow 1024) by lra.
      apply digits_le_of_F2R_le in Hpx. lia. }
    assert (Hf : (fexp64 (Zdigits2 m2 + e') <= 971)%Z).
    { rewrite fexp64_eq. destruct m2 as [|p2|p2]; cbn [Zdigits2]; [lia| |lia].
      assert (F2R (Z.pos p2) e' < bpow 1024) by lra.
      apply digits_le_of_F2R_le in H. lia. }
    lia. }
  apply Z.leb_le in He''. change (emax - prec)%Z with 971%Z.
  rewrite He''. lra.
Qed.

Lemma SFleb_of_value mf ef Mb Eb :
  valid_binary (S754_finite false mf ef) = true ->
  F2R (Z.pos mf) ef <= F2R (Z.pos Mb) Eb ->
  (Z.pos (digits2_pos Mb) <= 53)%Z ->
  (-1074 <= Eb)%Z ->
  SFleb (S754_finite false mf ef) (S754_finite false Mb Eb) = true.
Proof.
  intros Hv Hle Hd HE. unfold SFleb, SFcompare.
  destruct (Z.compare_spec ef Eb) as [E|L|G].
  - subst ef. apply F2R_le_inv in Hle.
    change (Pos.compare_cont Eq mf Mb) with (Pos.compare mf Mb).
    destruct (Pos.compare_spec mf Mb); try reflexivity. lia.
  - reflexivity.
  - exfalso. unfold valid_binary, bounded, canonical_mantissa in Hv.
    apply andb_prop in Hv. destruct Hv as (Hc & _).
    apply Z.eqb_eq in Hc. rewrite fexp64_eq in Hc.
    assert (Hdm : Z.pos (digits2_pos mf) = 53%Z) by lia.
    pose proof (digits_bounds mf) as (Hlo & _). rewrite Hdm in Hlo.
    pose proof (digits_bounds Mb) as (_ & Hhi).
    assert (Hb : bpow (Z.pos (digits2_pos Mb)) <= bpow 53) by (apply bpow_le; lia).
    unfold F2R in Hle.
    assert (H1 : bpow (53 + Eb) <= bpow (53 - 1 + ef)) by (apply bpow_le; lia).
    rewrite !bpow_plus in H1.
    pose proof (bpow_gt_0 ef). pose proof (bpow_gt_0 Eb).
    pose proof (bpow_gt_0 (53 - 1)). nra.
Qed.

Lemma digits_iter_xO p k :
  digits2_pos (Pos.iter xO p k) = (digits2_pos p + k)%positive.
Proof.
  induction k using Pos.peano_ind.
  - cbn. lia.
  - rewrite Pos.iter_succ. cbn [digits2_pos]. rewrite IHk. lia.
Qed.

Lemma value_iter_xO p k e :
  F2R (Z.pos (Pos.iter xO p k)) (e - Z.pos k) = F2R (Z.pos p) e.
Proof.
  induction k using Pos.peano_ind.
  - cbn [Pos.iter]. unfold F2R. rewrite Pos2Z.inj_xO, mult_IZR.
    replace e with (e - 1 + 1)%Z at 2 by lia. rewrite bpow_succ. lra.
  - rewrite Pos.iter_succ. unfold F2R in *.
    rewrite Pos2Z.inj_xO, mult_IZR.
    replace (e - Z.pos k)%Z with (e - Z.pos (Pos.succ k) + 1)%Z in IHk by lia.
    rewrite bpow_succ in IHk. lra.
Qed.

(** Rounding what needs no rounding. *)
Lemma binary_round_aux_canonical m e :
  fexp64 (Z.pos (digits2_pos m) + e) = e ->
  (e <= 971)%Z ->
  binary_round_aux prec emax false (Z.pos m) e loc_Exact = S754_finite false m e.
Proof.
  intros Hc He. unfold binary_round_aux, shr_fexp. cbn [Zdigits2].
  rewrite Hc, Z.sub_diag. cbn [shr shr_record_of_loc shr_m loc_of_shr_record
    round_nearest_even Zdigits2].
  rewrite Hc, Z.sub_diag. cbn [shr shr_record_of_loc shr_m].
  apply Z.leb_le in He. change (emax - prec)%Z with 971%Z. now rewrite He.
Qed.

(** A positive integer below 2^53 is a double. *)
Lemma binary_normalize_exact n :
  (0 < n < 2 ^ 53)%Z ->
  exists m e,
    binary_normalize prec emax n 0 false = S754_finite false m e /\
    F2R (Z.pos m) e = IZR n.
Proof.
  intros (Hpos & Hlt). destruct n as [|p|p]; try lia.
  cbn [binary_normalize]. unfold binary_round.
  assert (Hd : (Z.pos (digits2_pos p) <= 53)%Z).
  { pose proof (digits_bounds p) as (Hlo & _).
    assert (IZR (Z.pos p) < bpow 53).
    { rewrite bpow_IZR by lia. now apply IZR_lt. }
    assert (bpow (Z.pos (digits2_pos p) - 1) < bpow 53) by lra.
    apply bpow_lt_inv in H0. lia. }
  rewrite Z.add_0_r. rewrite fexp64_eq.
  replace (Z.max (Z.pos (digits2_pos p) - 53) (-1074))
    with (Z.pos (digits2_pos p) - 53)%Z by lia.
  unfold shl_align.
  destruct (Z.pos (digits2_pos p) - 53 - 0)%Z as [|k|k] eqn:Ek; [| lia |].
  - exists p, 0%Z. split.
    + apply binary_round_aux_canonical; [|lia]. rewrite fexp64_eq. lia.
    + unfold F2R, bpow. cbn. lra.
  - exists (Pos.iter xO p k), (Z.pos (digits2_pos p) - 53)%Z. split.
    + apply binary_round_aux_canonical; [|lia].
      rewrite digits_iter_xO, fexp64_eq. lia.
    + replace (Z.pos (digits2_pos p) - 53)%Z with (0 - Z.pos k)%Z by lia.
      rewrite value_iter_xO. unfold F2R, bpow. cbn. lra.
Qed.

Lemma Prim2SF_100 :
  Prim2SF 100%float = S754_finite false 7036874417766400 (-46).
Proof. reflexivity. Qed.

Lemma new_location_exact m r :
  new_location m r = loc_Exact <-> r = 0%Z.
Proof.
  unfold new_location, new_location_even, new_location_odd.
  destruct (Z.even m); destruct (Z.eqb_spec r 0); split; intros H;
    try reflexivity; try discriminate; try assumption; try contradiction.
Qed.

Lemma record_of_loc_bits m l :
  shr_m (shr_record_of_loc m l) = m /\
  (orb (shr_r (shr_record_of_loc m l)) (shr_s (shr_record_of_loc m l)) = false
   <-> l = loc_Exact).
Proof.
  destruct l as [|[]]; cbn; split; try reflexivity; split; intros H;
    try reflexivity; try discriminate.
Qed.

Lemma magnitude_le m1 e1 m2 e2 :
  F2R (Z.pos m1) e1 <= F2R (Z.pos m2) e2 ->
  (Z.pos (digits2_pos m1) + e1 <= Z.pos (digits2_pos m2) + e2)%Z.
Proof.
  intros H. pose proof (digits_bounds m2) as (_ & Hhi).
  apply digits_le_of_F2R_le. unfold F2R in *. rewrite bpow_plus.
  pose proof (bpow_gt_0 e2). nra.
Qed.

Lemma SFdiv_core_brackets m1 e1 m2 e2 :
  F2R (Z.pos m1) e1 <= F2R (Z.pos m2) e2 ->
  let '(q, e', l) := SFdiv_core_binary prec emax (Z.pos m1) e1 (Z.pos m2) e2 in
  brackets (shr_record_of_loc q l) e' (F2R (Z.pos m1) e1 / F2R (Z.pos m2) e2) /\
  (e' <= -53)%Z.
Proof.
  intros Hle. unfold SFdiv_core_binary. cbn [Zdigits2].
  pose proof (magnitude_le _ _ _ _ Hle) as Hmag.
  set (e' := Z.min (fexp64 (Z.pos (digits2_pos m1) + e1
                            - (Z.pos (digits2_pos m2) + e2))) (e1 - e2)).
  assert (He' : (e' <= -53)%Z).
  { unfold e'. rewrite fexp64_eq. lia. }
  assert (Hs : (0 <= e1 - e2 - e')%Z) by (unfold e'; lia).
  set (s := (e1 - e2 - e')%Z) in *.
  assert (Hm' : match s with
                | Z.pos _ => Z.shiftl (Z.pos m1) s
                | 0%Z => Z.pos m1
                | Z.neg _ => 0%Z
                end = (Z.pos m1 * 2 ^ s)%Z).
  { destruct s as [|p|p] eqn:Es; [cbn; lia| |lia].
    now rewrite Z.shiftl_mul_pow2 by lia. }
  rewrite Hm'. clear Hm'.
  pose proof (Z_div_mod (Z.pos m1 * 2 ^ s) (Z.pos m2) ltac:(lia)) as Hdm.
  destruct (Z.div_eucl (Z.pos m1 * 2 ^ s) (Z.pos m2)) as [q r].
  destruct Hdm as (Hq & Hr).
  split; [|exact He'].
  pose proof (record_of_loc_bits q (new_location (Z.pos m2) r)) as (Hsm & Hbits).
  unfold brackets. rewrite Hsm, Hbits, new_location_exact.
  assert (Hqnn : (0 <= q)%Z).
  { assert (0 <= Z.pos m1 * 2 ^ s)%Z by (apply Z.mul_nonneg_nonneg; lia).
    nia. }
  split; [exact Hqnn|].
  assert (Hval : F2R (Z.pos m1) e1 / F2R (Z.pos m2) e2
                 = (IZR q + IZR r / IZR (Z.pos m2)) * bpow e').
  { unfold F2R.
    assert (IZR (Z.pos m2) > 0) by (apply IZR_lt; lia).
    pose proof (bpow_gt_0 e2). pose proof (bpow_gt_0 e').
    assert (Hb : bpow e1 = bpow s * bpow e' * bpow e2).
    { rewrite <- !bpow_plus. f_equal. unfold s. lia. }
    assert (HI : IZR (Z.pos m1) * bpow s = IZR (Z.pos m2) * IZR q + IZR r).
    { rewrite bpow_IZR by lia. rewrite <- mult_IZR, Hq, plus_IZR, mult_IZR.
      reflexivity. }
    rewrite Hb. field_simplify_eq; [|lra].
    replace (IZR (Z.pos m1) * bpow s * bpow e' * bpow e2)
      with ((IZR (Z.pos m1) * bpow s) * (bpow e' * bpow e2)) by ring.
    rewrite HI. ring. }
  rewrite Hval. unfold F2R. rewrite plus_IZR.
  assert (Hm2 : IZR (Z.pos m2) > 0) by (apply IZR_lt; lia).
  assert (Hr0 : 0 <= IZR r) by (apply IZR_le; lia).
  assert (Hr1 : IZR r < IZR (Z.pos m2)) by (apply IZR_lt; lia).
  assert (Hfrac : 0 <= IZR r / IZR (Z.pos m2) < 1).
  { split.
    - apply Rmult_le_pos; [lra|]. apply Rlt_le, Rinv_0_lt_compat. lra.
    - apply (Rmult_lt_reg_r (IZR (Z.pos m2))); [lra|].
      unfold Rdiv. rewrite Rmult_assoc, Rinv_l by lra. lra. }
  pose proof (bpow_gt_0 e').
  split; [split; nra|].
  split; intros H0.
  - subst r. unfold Rdiv. rewrite Rmult_0_l. ring.
  - assert (IZR r / IZR (Z.pos m2) = 0) by nra.
    assert (IZR r = 0).
    { unfold Rdiv in H1. apply Rmult_integral in H1. destruct H1; [assumption|].
      exfalso. apply Rinv_neq_0_compat in H1; [assumption|lra]. }
    now apply eq_IZR in H2.
Qed.

Lemma F2R_pow2 k : (k <= 0)%Z -> F2R (2 ^ (- k)) k = 1.
Proof.
  intros H. unfold F2R. rewrite <- bpow_IZR by lia. rewrite <- bpow_plus.
  replace (- k + k)%Z with 0%Z by lia. reflexivity.
Qed.

Lemma bpow_1024_gt : 100 < bpow 1024.
Proof.
  assert (bpow 7 <= bpow 1024) by (apply bpow_le; lia).
  assert (bpow 7 = 128) by (rewrite bpow_IZR by lia; reflexivity). lra.
Qed.

Lemma Zdigits2_bound q e k :
  (0 <= q)%Z -> F2R q e < bpow k -> (e <= k)%Z -> (Zdigits2 q + e <= k)%Z.
Proof.
  intros Hq H Hek. destruct q as [|p|p]; [cbn; lia| |lia].
  cbn [Zdigits2]. now apply digits_le_of_F2R_le.
Qed.

Lemma SFdiv_le_one m1 e1 m2 e2 :
  F2R (Z.pos m1) e1 <= F2R (Z.pos m2) e2 ->
  match SFdiv prec emax (S754_finite false m1 e1) (S754_finite false m2 e2) with
  | S754_zero false => True
  | S754_finite false mf ef => F2R (Z.pos mf) ef <= 1
  | _ => False
  end.
Proof.
  intros Hle. cbn [SFdiv xorb].
  pose proof (SFdiv_core_brackets m1 e1 m2 e2 Hle) as Hcore.
  destruct (SFdiv_core_binary prec emax (Z.pos m1) e1 (Z.pos m2) e2)
    as [[q e'] l].
  destruct Hcore as (Hbr & He').
  assert (Hy : 0 < F2R (Z.pos m2) e2).
  { unfold F2R. apply Rmult_lt_0_compat; [apply IZR_lt; lia|apply bpow_gt_0]. }
  assert (Hx : 0 < F2R (Z.pos m1) e1).
  { unfold F2R. apply Rmult_lt_0_compat; [apply IZR_lt; lia|apply bpow_gt_0]. }
  assert (Hv : F2R (Z.pos m1) e1 / F2R (Z.pos m2) e2 <= 1).
  { apply (Rmult_le_reg_r (F2R (Z.pos m2) e2)); [exact Hy|].
    unfold Rdiv. rewrite Rmult_assoc, Rinv_l by lra. lra. }
  pose proof (record_of_loc_bits q l) as (Hsm & _).
  assert (Hq : (0 <= q)%Z) by (destruct Hbr as (H0 & _); now rewrite Hsm in H0).
  assert (Hqv : F2R q e' < bpow 1).
  { destruct Hbr as (_ & (Hlo & _) & _). rewrite Hsm in Hlo.
    assert (bpow 1 = 2) by (rewrite bpow_IZR by lia; reflexivity). lra. }
  pose proof (Zdigits2_bound q e' 1 Hq Hqv ltac:(lia)) as Hd.
  set (k := Z.max e' (fexp64 (Zdigits2 q + e'))).
  assert (Hk : (k <= 0)%Z) by (unfold k; rewrite fexp64_eq; lia).
  pose proof (binary_round_aux_le q e' l _ (2 ^ (- k)) Hbr) as Hround.
  fold k in Hround. rewrite (F2R_pow2 k Hk) in Hround.
  apply Hround; [exact Hv| |lia].
  pose proof bpow_1024_gt. lra.
Qed.

Lemma F2R_100 k : (k <= 2)%Z -> F2R (25 * 2 ^ (2 - k)) k = 100.
Proof.
  intros H. unfold F2R. rewrite mult_IZR, <- bpow_IZR by lia.
  rewrite Rmult_assoc, <- bpow_plus.
  replace (2 - k + k)%Z with 2%Z by lia. rewrite bpow_IZR by lia.
  rewrite <- mult_IZR. reflexivity.
Qed.

Lemma SFmul_le_100 m1 e1 :
  F2R (Z.pos m1) e1 <= 1 ->
  match SFmul prec emax (S754_finite false m1 e1)
          (S754_finite false 7036874417766400 (-46)) with
  | S754_zero false => True
  | S754_finite false mf ef => F2R (Z.pos mf) ef <= 100
  | _ => False
  end.
Proof.
  intros Hle. cbn [SFmul xorb].
  assert (He1 : (e1 <= 0)%Z).
  { apply bpow_le_inv. unfold F2R in Hle.
    assert (1 <= IZR (Z.pos m1)) by (apply IZR_le; lia).
    pose proof (bpow_gt_0 e1). change (bpow 0) with 1. nra. }
  set (mx := Z.pos (m1 * 7036874417766400)).
  set (ex := (e1 + -46)%Z).
  assert (Hh : F2R 7036874417766400 (-46) = 100).
  { unfold F2R.
    replace 7036874417766400%Z with (100 * 2 ^ 46)%Z by reflexivity.
    rewrite mult_IZR, <- bpow_IZR by lia.
    rewrite Rmult_assoc, <- bpow_plus. change (bpow (46 + -46)) with 1. ring. }
  assert (Hval : F2R mx ex = F2R (Z.pos m1) e1 * 100).
  { rewrite <- Hh. unfold F2R, mx, ex. rewrite Pos2Z.inj_mul, mult_IZR, bpow_plus.
    ring. }
  assert (Hbr : brackets (shr_record_of_loc mx loc_Exact) ex (F2R mx ex)).
  { unfold brackets. cbn [shr_record_of_loc shr_m shr_r shr_s orb].
    split; [unfold mx; lia|]. split; [|tauto].
    unfold F2R. rewrite plus_IZR. pose proof (bpow_gt_0 ex). nra. }
  assert (Hx : 0 < F2R (Z.pos m1) e1).
  { unfold F2R. apply Rmult_lt_0_compat; [apply IZR_lt; lia|apply bpow_gt_0]. }
  assert (Hv : F2R mx ex < bpow 7).
  { assert (bpow 7 = 128) by (rewrite bpow_IZR by lia; reflexivity). lra. }
  pose proof (Zdigits2_bound mx ex 7 ltac:(unfold mx; lia) Hv
                ltac:(unfold ex; lia)) as Hd.
  set (k := Z.max ex (fexp64 (Zdigits2 mx + ex))).
  assert (Hk : (k <= 2)%Z) by (unfold k, ex; rewrite fexp64_eq; lia).
  pose proof (binary_round_aux_le mx ex loc_Exact _ (25 * 2 ^ (2 - k)) Hbr)
    as Hround.
  fold k in Hround. rewrite (F2R_100 k Hk) in Hround.
  apply Hround; [lra| |unfold ex; lia].
  exact bpow_1024_gt.
Qed.

Lemma ofNat_zero : Prim2SF (ofNat 0) = S754_zero false.
Proof. reflexivity. Qed.

Lemma ofNat_exact n :
  (0 < n)%nat -> (Z.of_nat n < 2 ^ 53)%Z ->
  exists m e,
    Prim2SF (ofNat n) = S754_finite false m e /\
    F2R (Z.pos m) e = IZR (Z.of_nat n).
Proof.
  intros Hpos Hlt. unfold ofNat.
  rewrite of_uint63_spec, Uint63.of_Z_spec.
  rewrite Z.mod_small.
  - apply binary_normalize_exact. lia.
  - split; [lia|].
    apply Z.lt_trans with (1 := Hlt). reflexivity.
Qed.

Lemma percentOf_le_100 count len :
  (count <= len)%nat -> (0 < len)%nat -> (Z.of_nat len < 2 ^ 53)%Z ->
  PrimFloat.leb (percentOf count len) 100 = true.
Proof.
  intros Hle Hpos Hlt.
  rewrite FloatAxioms.leb_spec. unfold percentOf.
  pose proof (Prim2SF_valid (ofNat count / ofNat len * 100)) as Hvalid.
  rewrite FloatAxioms.mul_spec, FloatAxioms.div_spec, Prim2SF_100 in *.
  unfold SF64mul, SF64div in *.
  destruct (ofNat_exact len Hpos Hlt) as (m2 & e2 & E2 & V2).
  rewrite E2 in *.
  destruct count as [|c].
  - rewrite ofNat_zero. reflexivity.
  - destruct (ofNat_exact (S c) ltac:(lia) ltac:(lia)) as (m1 & e1 & E1 & V1).
    rewrite E1 in *.
    assert (Hv : F2R (Z.pos m1) e1 <= F2R (Z.pos m2) e2).
    { rewrite V1, V2. apply IZR_le. lia. }
    pose proof (SFdiv_le_one m1 e1 m2 e2 Hv) as Hdiv.
    destruct (SFdiv prec emax (S754_finite false m1 e1)
                (S754_finite false m2 e2)) as [[|]| | |[|] mq eq];
      try contradiction.
    + reflexivity.
    + pose proof (SFmul_le_100 mq eq Hdiv) as Hmul.
      destruct (SFmul prec emax (S754_finite false mq eq)
                  (S754_finite false 7036874417766400 (-46)))
        as [[|]| | |[|] mr er]; try contradiction.
      * reflexivity.
      * apply SFleb_of_value; [exact Hvalid| |reflexivity|lia].
        apply Rle_trans with (1 := Hmul).
        apply Req_le. symmetry.
        unfold F2R.
        replace 7036874417766400%Z with (100 * 2 ^ 46)%Z by reflexivity.
        rewrite mult_IZR, <- bpow_IZR by lia.
        rewrite Rmult_assoc, <- bpow_plus. change (bpow (46 + -46)) with 1. ring.
Qed.

End DoubleBounds.

(** X15.  When no record lists a category twice, no category counts more
    often than there are calls, and its percentage, a double, is at most
    100.  The number of calls is below 2^53, as the length of every
    JavaScript array is. *)
Theorem calculateStatistics_percentage_at_most_100 (now : string)
  (cs : list CallData) :
  Forall (fun call => NoDup (categories call)) cs ->
  (Z.of_nat (List.length cs) < 2 ^ 53)%Z ->
  Forall (fun c => count c <= totalCalls (calculateStatistics now cs) /\
                   PrimFloat.leb (percentage c) 100 = true)
         (ad_categories (calculateStatistics now cs)).
Proof.
  intros Hnd Hsize. cbn.
  pose proof (sortedCategories_counts cs) as Hc.
  rewrite Forall_forall in *. intros c Hin.
  destruct (Hc c Hin) as (Hcount & Hpct).
  assert (Hle : count c <= List.length cs).
  { rewrite Hcount. apply count_occ_labels_le. now apply Forall_forall. }
  split; [exact Hle|]. rewrite Hpct.
  apply percentOf_le_100; [exact Hle| |exact Hsize].
  destruct cs; [destruct Hin|cbn; lia].
Qed.

Lemma calculateStatistics_percentage_at_most_100_witness :
  Forall (fun c => count c <= 2 /\ PrimFloat.leb (percentage c) 100 = true)
    (ad_categories
       (calculateStatistics ""
          [mkCallData "1" "p" "c" "d" 100%float "t" None None (Some "positive")
             None ["A"; "B"] None;
           mkCallData "2" "q" "c" "d" 50%float "t" None None (Some "negative")
             None ["A"] None])).
Proof.
  apply (calculateStatistics_percentage_at_most_100 ""
           [mkCallData "1" "p" "c" "d" 100%float "t" None None (Some "positive")
              None ["A"; "B"] None;
            mkCallData "2" "q" "c" "d" 50%float "t" None None (Some "negative")
              None ["A"] None]).
  - repeat constructor; cbn; intuition discriminate.
  - reflexivity.
Defined.

(** ** More on the stream consumer *)

Lemma processLine_result JSON_parse h line :
  result (processLine JSON_parse h line)
  = match frameOf JSON_parse line with
    | Some d => if carriesSuccess d then Some d else result h
    | None => result h
    end.
Proof.
  unfold processLine, frameOf.
  destruct (String.prefix "data: " (trim line)); [|reflexivity].
  destruct (String.eqb (trim (slice 6 (trim line))) ""); [reflexivity|].
  destruct (JSON_parse (trim (slice 6 (trim line)))) as [d|]; [|reflexivity].
  unfold handleStreamData, carriesSuccess.
  destruct d; try reflexivity;
    destruct (getProp _ "success");
    destruct (truthy (getProp _ "message"));
    destruct (truthy (getProp _ "error")); reflexivity.
Qed.

Lemma fold_processLine_no_success JSON_parse lines :
  forall h,
    (forall line d, In line lines -> frameOf JSON_parse line = Some d ->
                    carriesSuccess d = false) ->
    result (fold_left (processLine JSON_parse) lines h) = result h.
Proof.
  induction lines as [|l lines IH]; intros h Hno; cbn [fold_left];
    [reflexivity|].
  rewrite IH by (intros line d Hin; apply Hno; now right).
  rewrite processLine_result.
  destruct (frameOf JSON_parse l) as [d|] eqn:F; [|reflexivity].
  now rewrite (Hno l d (or_introl eq_refl) F).
Qed.

Lemma consumeStream_closed JSON_parse chunks :
  consumeStream JSON_parse [] chunks Closed
  = let h := fold_left (processLine JSON_parse)
               (split_nl (streamText chunks)) noneHandled in
    (afterLoop [] ExitDone h, h).
Proof.
  unfold consumeStream.
  now rewrite (readLoop_lines JSON_parse chunks "" noneHandled eq_refl).
Qed.

(** X16.  When no frame of a stream read to its end carries a [success]
    field, [handleAnalyze] ends with the error "No result received from
    server", whatever the frames hold: the text of an error a frame carries
    without a [success] field is not what the user is told. *)
Theorem stream_without_success_frame JSON_parse chunks :
  (forall line d,
     In line (split_nl (streamText chunks)) ->
     frameOf JSON_parse line = Some d ->
     carriesSuccess d = false) ->
  fst (consumeStream JSON_parse [] chunks Closed)
  = Failed (JStr "No result received from server").
Proof.
  intros Hno. rewrite consumeStream_closed. cbv zeta. cbn [fst].
  unfold afterLoop.
  now rewrite (fold_processLine_no_success JSON_parse _ noneHandled Hno).
Qed.

Lemma stream_without_success_frame_witness :
  fst (consumeStream errorParse []
         [("data: " ++ errorFrame ++ newline ++ newline)%string] Closed)
  = Failed (JStr "No result received from server").
Proof.
  apply stream_without_success_frame.
  intros line d Hin. vm_compute in Hin.
  destruct Hin as [<-|[<-|[<-|[]]]]; vm_compute; intros [= <-]; reflexivity.
Defined.

(** X17.  In a stream read to its end, the last frame that carries a
    [success] field decides: it is what [result] holds, whatever log frames
    or frames that do not parse come before or after it, and [handleAnalyze]
    completes with its [data] when its [success] and [data] are truthy, and
    fails with its [error] (or a default text) otherwise. *)
Theorem stream_last_success_frame_decides JSON_parse chunks lines1 line lines2
  d :
  split_nl (streamText chunks) = lines1 ++ line :: lines2 ->
  frameOf JSON_parse line = Some d ->
  carriesSuccess d = true ->
  (forall l d', In l lines2 -> frameOf JSON_parse l = Some d' ->
                carriesSuccess d' = false) ->
  result (snd (consumeStream JSON_parse [] chunks Closed)) = Some d /\
  fst (consumeStream JSON_parse [] chunks Closed) = verdict d.
Proof.
  intros Hsplit Hframe Hsucc Hlater.
  rewrite consumeStream_closed. cbv zeta. cbn [fst snd].
  assert (Hres : result (fold_left (processLine JSON_parse)
                           (split_nl (streamText chunks)) noneHandled)
                 = Some d).
  { rewrite Hsplit, fold_left_app. cbn [fold_left].
    rewrite (fold_processLine_no_success JSON_parse lines2 _ Hlater).
    now rewrite processLine_result, Hframe, Hsucc. }
  split; [exact Hres|].
  unfold afterLoop, verdict. rewrite Hres. cbn [signalAborted fst].
  destruct (truthy (getProp d "success")); cbn [negb]; [|reflexivity].
  destruct (getProp d "data") as [x|]; [|reflexivity].
  destruct (truthy (Some x)); reflexivity.
Qed.

Lemma stream_last_success_frame_decides_witness :
  fst (consumeStream doneParse []
         [("data: " ++ hiFrame ++ newline ++ newline ++ "data: ")%string;
          (doneFrame ++ newline ++ newline)%string] Closed)
  = Completed (JObj []) None.
Proof.
  refine (proj2 (stream_last_success_frame_decides doneParse _
                   [("data: " ++ hiFrame)%string; ""]
                   ("data: " ++ doneFrame)%string [""; ""]
                   (JObj [("success", JBool true); ("data", JObj [])])
                   _ _ _ _)).
  - vm_compute. reflexivity.
  - vm_compute. reflexivity.
  - reflexivity.
  - intros l d' [<-|[<-|[]]]; vm_compute; discriminate.
Defined.

Lemma processLine_extends JSON_parse h line :
  exists more bad,
    logs (processLine JSON_parse h line) = logs h ++ more /\
    rejected (processLine JSON_parse h line) = rejected h ++ bad.
Proof.
  unfold processLine.
  destruct (String.prefix "data: " (trim line));
    [|exists [], []; now rewrite !app_nil_r].
  destruct (String.eqb (trim (slice 6 (trim line))) "");
    [exists [], []; now rewrite !app_nil_r|].
  destruct (JSON_parse (trim (slice 6 (trim line)))) as [d|];
    [|exists [], [trim line]; cbn; now rewrite app_nil_r].
  unfold handleStreamData.
  destruct d;
    try (destruct (getProp _ "success");
         destruct (truthy (getProp _ "message"));
         destruct (truthy (getProp _ "error")));
    cbn [logs rejected];
    eexists; eexists; split;
      first [reflexivity | symmetry; apply app_nil_r].
Qed.

Lemma fold_processLine_extends JSON_parse lines :
  forall h,
    exists more bad,
      logs (fold_left (processLine JSON_parse) lines h) = logs h ++ more /\
      rejected (fold_left (processLine JSON_parse) lines h)
      = rejected h ++ bad.
Proof.
  induction lines as [|l lines IH]; intros h; cbn [fold_left].
  - exists [], []. now rewrite !app_nil_r.
  - destruct (IH (processLine JSON_parse h l)) as (m2 & b2 & E1 & E2).
    destruct (processLine_extends JSON_parse h l) as (m1 & b1 & F1 & F2).
    exists (m1 ++ m2), (b1 ++ b2).
    rewrite E1, E2, F1, F2. now rewrite !app_assoc.
Qed.

(** X18.  The log entries are append-only: whatever the chunks, the abort
    signal and the way the stream ends, the loop leaves the entries it found
    in place and in order, and only adds entries after them; the same holds
    for the lines it reports as rejected. *)
Theorem readLoop_logs_append_only JSON_parse chunks :
  forall signal ending buffer h,
    exists more bad,
      logs (snd (readLoop JSON_parse signal chunks ending buffer h))
      = logs h ++ more /\
      rejected (snd (readLoop JSON_parse signal chunks ending buffer h))
      = rejected h ++ bad.
Proof.
  assert (Hsame : forall h : Handled,
             exists more bad, logs h = logs h ++ more /\
                              rejected h = rejected h ++ bad)
    by (intros h; exists [], []; now rewrite !app_nil_r).
  induction chunks as [|chunk chunks IH]; intros signal ending buffer h;
    cbn [readLoop]; destruct (signalAborted signal) as [[|] signal1];
    cbn [snd]; try apply Hsame.
  - destruct ending; cbn [snd]; [|apply Hsame].
    destruct (signalAborted signal1) as [[|] signal2]; cbn [snd];
      [apply Hsame|].
    destruct (String.eqb (trim buffer) ""); cbn [snd]; [apply Hsame|].
    apply fold_processLine_extends.
  - destruct (signalAborted signal1) as [[|] signal2]; cbn [snd];
      [apply Hsame|].
    destruct (IH signal2 ending (last (split_nl (buffer ++ chunk)) "")
                (fold_left (processLine JSON_parse)
                   (removelast (split_nl (buffer ++ chunk))) h))
      as (m2 & b2 & E1 & E2).
    destruct (fold_processLine_extends JSON_parse
                (removelast (split_nl (buffer ++ chunk))) h)
      as (m1 & b1 & F1 & F2).
    exists (m1 ++ m2), (b1 ++ b2). rewrite E1, E2, F1, F2.
    now rewrite !app_assoc.
Qed.

Lemma readLoop_read_fails JSON_parse name reason chunks :
  forall buffer h,
    exists h',
      readLoop JSON_parse [] chunks (ReadFails name reason) buffer h
      = (ExitThrown name reason, [], h').
Proof.
  induction chunks as [|chunk chunks IH]; intros buffer h;
    cbn [readLoop signalAborted].
  - eauto.
  - apply IH.
Qed.

(** X19.  When a read of the stream rejects and the abort signal is never
    found aborted, [handleAnalyze] returns silently if the rejection is an
    [AbortError] (what stopping the analysis produces), and reports the
    rejection as an error otherwise, whatever was received before. *)
Theorem stream_read_rejection JSON_parse chunks name reason :
  fst (consumeStream JSON_parse [] chunks (ReadFails name reason))
  = if String.eqb name "AbortError" then Stopped else Failed reason.
Proof.
  unfold consumeStream.
  destruct (readLoop_read_fails JSON_parse name reason chunks "" noneHandled)
    as (h' & E).
  rewrite E. reflexivity.
Qed.

(** ** The CSV export *)

Lemma csvScan_field_body s :
  forall cur row rows rest,
    csvScan InField cur row rows (doubleQuotes s ++ String dquote rest)
    = csvScan AfterQuote (cur ++ s) row rows rest.
Proof.
  induction s as [|c s IH]; intros cur row rows rest.
  - cbn. now rewrite append_empty_r.
  - cbn [doubleQuotes]. destruct (Ascii.eqb c dquote) eqn:E.
    + apply Ascii.eqb_eq in E. subst c.
      cbn [String.append csvScan]. rewrite !Ascii.eqb_refl. rewrite IH.
      now rewrite append_assoc_string.
    + cbn [String.append csvScan]. rewrite E, IH.
      now rewrite append_assoc_string.
Qed.

Lemma csvScan_cell cell row rows rest :
  csvScan FieldStart "" row rows (csvCell cell ++ rest)
  = csvScan AfterQuote cell row rows rest.
Proof.
  unfold csvCell. cbn [String.append csvScan]. rewrite Ascii.eqb_refl.
  rewrite append_assoc_string. cbn [String.append].
  now rewrite csvScan_field_body.
Qed.

Lemma csvScan_line cells :
  cells <> [] ->
  forall row rows rest,
    csvScan FieldStart "" row rows (csvLine cells ++ rest)
    = csvScan AfterQuote (last cells "") (row ++ removelast cells) rows rest.
Proof.
  unfold csvLine. induction cells as [|x cells IH]; [congruence|].
  intros _ row rows rest. destruct cells as [|y cells].
  - cbn [map join last removelast]. rewrite app_nil_r. apply csvScan_cell.
  - change (join "," (map csvCell (x :: y :: cells)))
      with (csvCell x ++ "," ++ join "," (map csvCell (y :: cells)))%string.
    rewrite append_assoc_string, csvScan_cell.
    cbn [String.append csvScan].
    change (Ascii.eqb "," dquote) with false.
    change (Ascii.eqb "," comma) with true. cbv iota.
    rewrite IH by discriminate.
    change (last (x :: y :: cells) "") with (last (y :: cells) "").
    change (removelast (x :: y :: cells))
      with (x :: removelast (y :: cells)).
    now rewrite <- app_assoc.
Qed.

Lemma readCsv_lines rs :
  Forall (fun r => r <> []) rs ->
  forall rows,
    csvScan FieldStart "" [] rows
      (join (String linefeed EmptyString) (map csvLine rs))
    = Some (rows ++ rs).
Proof.
  induction 1 as [|r rs Hr Hrs IH]; intros rows.
  - cbn. now rewrite app_nil_r.
  - destruct rs as [|r2 rs].
    + cbn [map join].
      rewrite <- (append_empty_r (csvLine r)), (csvScan_line r Hr).
      cbn [csvScan app]. now rewrite <- app_removelast_last.
    + change (join (String linefeed "") (map csvLine (r :: r2 :: rs)))
        with (csvLine r ++ String linefeed ""
              ++ join (String linefeed "") (map csvLine (r2 :: rs)))%string.
      rewrite (csvScan_line r Hr). cbn [String.append csvScan app].
      change (Ascii.eqb linefeed dquote) with false.
      change (Ascii.eqb linefeed comma) with false.
      rewrite Ascii.eqb_refl. cbv iota.
      rewrite <- app_removelast_last by exact Hr.
      rewrite IH. now rewrite <- app_assoc.
Qed.

(** X20.  The CSV export is the header line followed by one quoted line per
    call, and quoting loses nothing: a reader of quoted CSV gets back, for
    every call, exactly its ten cells, whatever commas, double quotes or
    line feeds the cells hold. *)
Theorem generateCSV_round_trip (numberText : float -> string)
  (data : AnalysisData) :
  let body := join (String linefeed EmptyString)
                (map csvLine (map (csvRow numberText) (calls data))) in
  generateCSV numberText data
  = (match calls data with
     | [] => join "," csvHeaders
     | _ => join "," csvHeaders ++ String linefeed body
     end)%string /\
  readCsv body = Some (map (csvRow numberText) (calls data)).
Proof.
  cbv zeta. split.
  - unfold generateCSV. destruct (calls data) as [|c cs]; reflexivity.
  - unfold readCsv. apply (readCsv_lines _) with (rows := []).
    rewrite Forall_forall. intros r Hr. apply in_map_iff in Hr.
    destruct Hr as (c & <- & _). discriminate.
Qed.

(** ** Spreadsheet rows *)

(** X21.  [validateExcelStructure] accepts a sheet exactly when it has a
    first row and that row has the column "Originating Number" and one of
    the columns "Transcript" and "summary_points"; the rows after the first
    play no part; the error list is empty exactly for an accepted sheet and
    has at most two entries. *)
Theorem validateExcelStructure_first_row_decides (data : list RawCallData) :
  (isValid (validateExcelStructure data) = true <->
   exists firstRow rest,
     data = firstRow :: rest /\
     map_has "Originating Number" firstRow = true /\
     (map_has "Transcript" firstRow = true \/
      map_has "summary_points" firstRow = true)) /\
  (isValid (validateExcelStructure data) = true <->
   errors (validateExcelStructure data) = []) /\
  (List.length (errors (validateExcelStructure data)) <= 2)%nat /\
  validateExcelStructure data = validateExcelStructure (firstn 1 data).
Proof.
  destruct data as [|firstRow rest].
  - cbn. repeat split; try discriminate; try lia.
    intros (f & r & H & _). discriminate H.
  - cbn [validateExcelStructure firstn isValid errors].
    destruct (map_has "Transcript" firstRow) eqn:Et;
      destruct (map_has "summary_points" firstRow) eqn:Es;
      destruct (map_has "Originating Number" firstRow) eqn:Ep;
      cbn; repeat split; try discriminate; try lia; try reflexivity;
      try (intros _; exists firstRow, rest; rewrite ?Et, ?Es, ?Ep; tauto);
      intros (f & r & H & Hp & Ht); injection H as <- <-;
      rewrite ?Et, ?Es, ?Ep in *; intuition discriminate.
Qed.

Lemma string_of_nat_inj n m : string_of_nat n = string_of_nat m -> n = m.
Proof.
  unfold string_of_nat. intros H.
  apply DecimalNat.Unsigned.to_uint_inj.
  assert (Hn : forall k, Nat.to_uint k <> Decimal.Nil).
  { intros k Hk. pose proof (DecimalNat.Unsigned.to_of (Nat.to_uint k)) as E.
    rewrite DecimalNat.Unsigned.of_to in E. rewrite Hk in E at 2.
    cbn in E. rewrite Hk in E. discriminate E. }
  pose proof (NilZero.usu _ (Hn n)) as En.
  pose proof (NilZero.usu _ (Hn m)) as Em.
  rewrite H in En. rewrite En in Em. now injection Em.
Qed.

Lemma append_inj_l (p a b : string) : (p ++ a = p ++ b)%string -> a = b.
Proof.
  induction p as [|c p IH]; cbn; intros H; [exact H|].
  injection H as H. now apply IH.
Qed.

Section TransformFacts.

Variable toText : JValue -> string.
Variable toNumber : JValue -> option Q.
Variable now : nat -> string.

Lemma transformFrom_nth start data i row :
  nth_error data i = Some row ->
  nth_error (transformFrom toText toNumber now start data) i
  = Some (transformRow toText toNumber now (start + i) row).
Proof.
  revert start i. induction data as [|r data IH]; intros start i H.
  - destruct i; discriminate H.
  - destruct i as [|i]; cbn in H |- *.
    + injection H as <-. now rewrite Nat.add_0_r.
    + rewrite (IH (S start) i H). f_equal. f_equal. lia.
Qed.

Lemma transformFrom_length start data :
  List.length (transformFrom toText toNumber now start data)
  = List.length data.
Proof.
  revert start. induction data as [|r data IH]; intros start; cbn;
    [reflexivity | now rewrite IH].
Qed.

Lemma transformFrom_ids start data id :
  In id (map tc_id (transformFrom toText toNumber now start data)) ->
  exists i, (start <= i)%nat /\ id = ("call-" ++ string_of_nat (i + 1))%string.
Proof.
  revert start. induction data as [|r data IH]; intros start H.
  - destruct H.
  - cbn [transformFrom map In] in H. destruct H as [H|H].
    + exists start. split; [lia|]. now rewrite <- H.
    + destruct (IH (S start) H) as (i & Hi & E). exists i. split; [lia|exact E].
Qed.

Lemma transformFrom_NoDup start data :
  NoDup (map tc_id (transformFrom toText toNumber now start data)).
Proof.
  revert start. induction data as [|r data IH]; intros start;
    cbn [transformFrom map]; constructor; [|apply IH].
  intros H. apply transformFrom_ids in H. destruct H as (i & Hi & E).
  cbn [transformRow tc_id] in E. apply append_inj_l in E.
  apply string_of_nat_inj in E. lia.
Qed.

End TransformFacts.

(** X22.  [transformRawData] keeps the rows in number and order, gives the
    row at index [i] the identifier "call-" followed by [i + 1] in decimal,
    and no two rows get the same identifier. *)
Theorem transformRawData_identifiers
  (toText : JValue -> string) (toNumber : JValue -> option Q)
  (now : nat -> string)
  (rawData : list RawCallData) :
  let transformed := transformRawData toText toNumber now rawData in
  List.length transformed = List.length rawData /\
  (forall i row,
     nth_error rawData i = Some row ->
     nth_error transformed i = Some (transformRow toText toNumber now i row) /\
     option_map tc_id (nth_error transformed i)
     = Some ("call-" ++ string_of_nat (i + 1))%string) /\
  NoDup (map tc_id transformed).
Proof.
  cbv zeta. unfold transformRawData. split; [|split].
  - apply transformFrom_length.
  - intros i row H.
    rewrite (transformFrom_nth toText toNumber now 0 rawData i row H).
    split; reflexivity.
  - apply transformFrom_NoDup.
Qed.

(** X23.  In a row whose cells "Transcript" and "summary_points" are absent
    or hold text, the transcript [transformRawData] produces is never
    empty: it is the transcript cell when that is a non-empty text,
    otherwise the summary cell when that is a non-empty text, otherwise the
    placeholder "No transcript available". *)
Theorem transformRow_transcript_not_empty
  (toText : JValue -> string) (toNumber : JValue -> option Q)
  (now : nat -> string)
  (index : nat) (row : RawCallData) :
  textCell (map_get "Transcript" row) ->
  textCell (map_get "summary_points" row) ->
  let transcript := tc_transcript (transformRow toText toNumber now index row) in
  transcript <> "" /\
  (map_get "Transcript" row = Some (JStr transcript) \/
   (truthy (map_get "Transcript" row) = false /\
    map_get "summary_points" row = Some (JStr transcript)) \/
   (truthy (map_get "Transcript" row) = false /\
    truthy (map_get "summary_points" row) = false /\
    transcript = "No transcript available")).
Proof.
  intros Ht Hs. cbn [transformRow tc_transcript].
  destruct (map_get "Transcript" row) as [[| | | t | |]|];
    try contradiction;
    destruct (map_get "summary_points" row) as [[| | | s | |]|];
    try contradiction; unfold textOr; cbn [truthy jsString];
    try (destruct (String.eqb_spec t ""); cbn [negb]);
    try (destruct (String.eqb_spec s ""); cbn [negb]);
    (split; [try assumption; try discriminate | subst; tauto]).
Qed.

Lemma transformRow_transcript_not_empty_witness :
  tc_transcript (transformRow (fun _ => "") (fun _ => None) (fun _ => "") 1 []) <> "" /\
  tc_transcript
    (transformRow (fun _ => "") (fun _ => None) (fun _ => "") 0
       [("Transcript", JStr ""); ("summary_points", JStr "summary")])
  = "summary".
Proof.
  split.
  - exact (proj1 (transformRow_transcript_not_empty
                    (fun _ => "") (fun _ => None) (fun _ => "") 1 [] I I)).
  - reflexivity.
Defined.

(** X24.  Validation does not look past the first row: a row without usable
    transcript and summary cells appended to an accepted sheet leaves the
    sheet accepted, and the work item built for that row carries the
    placeholder "No transcript available" as its transcript. *)
Theorem accepted_sheet_placeholder_item
  (toText : JValue -> string) (toNumber : JValue -> option Q)
  (now : nat -> string)
  (data : list RawCallData) (row : RawCallData) :
  isValid (validateExcelStructure data) = true ->
  truthy (map_get "Transcript" row) = false ->
  truthy (map_get "summary_points" row) = false ->
  isValid (validateExcelStructure (data ++ [row])) = true /\
  option_map wi_transcript
    (nth_error (callsToAnalyze toText toNumber now (data ++ [row]))
       (List.length data))
  = Some "No transcript available".
Proof.
  intros Hv Ht Hs. split.
  - destruct data as [|firstRow rest]; [discriminate Hv | exact Hv].
  - unfold callsToAnalyze, transformRawData.
    rewrite nth_error_map.
    rewrite (transformFrom_nth toText toNumber now 0 (data ++ [row])
               (List.length data) row).
    + cbn [option_map wi_transcript transformRow tc_transcript].
      rewrite Ht. unfold textOr. now rewrite Hs.
    + rewrite nth_error_app2, Nat.sub_diag by lia. reflexivity.
Qed.

Lemma accepted_sheet_placeholder_item_witness :
  isValid (validateExcelStructure
             ([[("Originating Number", JStr "555"); ("Transcript", JStr "hello")]]
              ++ [[]])) = true /\
  option_map wi_transcript
    (nth_error
       (callsToAnalyze (fun _ => "") (fun _ => None) (fun _ => "")
          ([[("Originating Number", JStr "555"); ("Transcript", JStr "hello")]]
           ++ [[]])) 1)
  = Some "No transcript available".
Proof.
  exact (accepted_sheet_placeholder_item (fun _ => "") (fun _ => None) (fun _ => "")
           [[("Originating Number", JStr "555"); ("Transcript", JStr "hello")]]
           [] eq_refl eq_refl eq_refl).
Defined.

(** ** File selection *)

Lemma prefix_app_iff (p s : string) :
  String.prefix p s = true <-> exists rest, s = (p ++ rest)%string.
Proof.
  revert s. induction p as [|c p IH]; intros s.
  - split; [intros _; now exists s | intros _; now destruct s].
  - destruct s as [|d s]; cbn.
    + split; [discriminate | intros (r & H); discriminate H].
    + destruct (Ascii.ascii_dec c d) as [->|Hn].
      * rewrite IH. split; intros (r & H); exists r.
        -- now rewrite H.
        -- now injection H.
      * split; [discriminate|]. intros (r & H). injection H as H1 _.
        now elim Hn.
Qed.

Lemma string_of_list_ascii_app (a b : list ascii) :
  string_of_list_ascii (a ++ b)
  = (string_of_list_ascii a ++ string_of_list_ascii b)%string.
Proof. induction a as [|c a IH]; cbn; [reflexivity | now rewrite IH]. Qed.

Lemma list_ascii_of_string_app (a b : string) :
  list_ascii_of_string (a ++ b)
  = list_ascii_of_string a ++ list_ascii_of_string b.
Proof. induction a as [|c a IH]; cbn; [reflexivity | now rewrite IH]. Qed.

Lemma string_rev_app (a b : string) :
  string_rev (a ++ b) = (string_rev b ++ string_rev a)%string.
Proof.
  unfold string_rev.
  now rewrite list_ascii_of_string_app, rev_app_distr, string_of_list_ascii_app.
Qed.

Lemma string_rev_involutive (s : string) : string_rev (string_rev s) = s.
Proof.
  unfold string_rev.
  now rewrite list_ascii_of_string_of_list_ascii, rev_involutive,
    string_of_list_ascii_of_string.
Qed.

Lemma endsWith_iff (s suffix : string) :
  endsWith s suffix = true <-> exists stem, s = (stem ++ suffix)%string.
Proof.
  unfold endsWith. rewrite prefix_app_iff. split.
  - intros (r & H). exists (string_rev r).
    rewrite <- (string_rev_involutive s), H, string_rev_app.
    now rewrite string_rev_involutive.
  - intros (stem & ->). exists (string_rev stem). apply string_rev_app.
Qed.

Lemma handleFileChange_acceptable picked st :
  fileAcceptable st -> fileAcceptable (handleFileChange picked st).
Proof.
  intros H. unfold handleFileChange. destruct picked as [f|]; [|exact I].
  destruct (selectionMissing (up_modelConfig st)); [exact H|].
  destruct (acceptedName (file_name f)) eqn:En; cbn [negb]; [|exact I].
  destruct (N.ltb_spec maxFileSize (file_size f)); [exact I|].
  unfold fileAcceptable. cbn [up_file]. now split.
Qed.

Lemma uploadStep_acceptable st ev :
  fileAcceptable st -> fileAcceptable (uploadStep st ev).
Proof.
  intros H. destruct ev as [config|picked|dropped|]; cbn [uploadStep].
  - exact H.
  - destruct (selectionMissing (up_modelConfig st));
      [exact H | now apply handleFileChange_acceptable].
  - unfold handleDrop. destruct (selectionMissing (up_modelConfig st));
      [exact H | now apply handleFileChange_acceptable].
  - exact I.
Qed.

(** X25.  Whatever the user does on the upload card (choosing a model,
    picking or dropping a file, removing it), the file the card holds has a
    name that ends in ".xlsx" or ".xls" and a size of at most
    10 * 1024 * 1024 bytes. *)
Theorem upload_holds_only_accepted_files (events : list UploadEvent)
  (f : FileInfo) :
  up_file (fold_left uploadStep events initialUpload) = Some f ->
  (exists stem, file_name f = (stem ++ ".xlsx")%string \/
                file_name f = (stem ++ ".xls")%string) /\
  (file_size f <= 10485760)%N.
Proof.
  assert (Hinv : forall st, fileAcceptable st ->
                   fileAcceptable (fold_left uploadStep events st)).
  { induction events as [|ev events IH]; intros st H; cbn [fold_left];
      [exact H | apply IH, uploadStep_acceptable, H]. }
  specialize (Hinv initialUpload I). intros E.
  unfold fileAcceptable in Hinv. rewrite E in Hinv.
  destruct Hinv as (Hn & Hs). split; [|exact Hs].
  unfold acceptedName in Hn. apply orb_true_iff in Hn.
  destruct Hn as [Hn|Hn]; apply endsWith_iff in Hn;
    destruct Hn as (stem & Hn); exists stem; tauto.
Qed.

Lemma upload_holds_only_accepted_files_witness :
  let f := mkFileInfo "calls.xlsx" 2048 in
  up_file
    (fold_left uploadStep
       [InputChange (Some (mkFileInfo "early.xlsx" 1));
        ModelSelect (Some (mkSelection (Some groq) "llama-3.3-70b-versatile"));
        DropFiles (Some (mkFileInfo "notes.txt" 10));
        InputChange (Some f)]
       initialUpload) = Some f /\
  (file_size f <= 10485760)%N.
Proof.
  intros f. split; [reflexivity|].
  exact (proj2 (upload_holds_only_accepted_files
                  [InputChange (Some (mkFileInfo "early.xlsx" 1));
                   ModelSelect
                     (Some (mkSelection (Some groq) "llama-3.3-70b-versatile"));
                   DropFiles (Some (mkFileInfo "notes.txt" 10));
                   InputChange (Some f)]
                  f eq_refl)).
Defined.

(** ** The report generators *)

Lemma reportOnce_returns config prompt w report w' :
  reportOnce config prompt w = (Returns report, w') -> trim report <> "".
Proof.
  unfold reportOnce, bind.
  destruct (callProvider config prompt w) as [[text|e] w1]; [|discriminate].
  unfold log, throw, ret.
  destruct (String.eqb_spec (trim text) ""); [discriminate|].
  intros H. now injection H as <- _.
Qed.

(** X27.  A report that [generateReportWithGemini] or
    [generateSummarizedReport] returns is never blank: it has a character
    that [trim] keeps. *)
Theorem reports_are_not_blank (data : AnalysisData) (w w' : World)
  (report : string) :
  generateReportWithGemini data w = (Returns report, w') \/
  generateSummarizedReport data w = (Returns report, w') ->
  trim report <> "".
Proof.
  unfold generateReportWithGemini, generateSummarizedReport, bind.
  rewrite getModelConfig_configOf. unfold log, retryWithBackoff.
  intros [H|H]; revert H;
    apply (retryFrom_returns (fun r => trim r <> ""));
    intros w1 a w2; apply reportOnce_returns.
Qed.

Lemma reports_are_not_blank_witness :
  generateReportWithGemini sampleData (sampleWorld emptyObjectServer)
  = (Returns "Here it is: {}",
     snd (generateReportWithGemini sampleData (sampleWorld emptyObjectServer)))
  /\ trim "Here it is: {}" <> "".
Proof.
  assert (H : generateReportWithGemini sampleData (sampleWorld emptyObjectServer)
              = (Returns "Here it is: {}",
                 snd (generateReportWithGemini sampleData
                        (sampleWorld emptyObjectServer))))
    by (vm_compute; reflexivity).
  split; [exact H|].
  exact (reports_are_not_blank sampleData _ _ "Here it is: {}" (or_introl H)).
Defined.

Lemma answersWith_emit_log w prompt text msg type :
  answersWith w prompt text ->
  answersWith (emit (EvLog msg type) w) prompt text.
Proof.
  intros H. unfold answersWith, nextRequest, configOf in *.
  rewrite requestsOf_log. exact H.
Qed.

Lemma blank_report_thrown config prompt w text :
  config = configOf w ->
  answersWith w prompt text ->
  trim text = "" ->
  forall msg1 msg2,
  let '(o, w') :=
    retryWithBackoff (reportOnce config prompt) 5 0
      (emit (EvLog msg2 info) (emit (EvLog msg1 info) w)) in
  o = Throws (Error ("Empty report generated by "
                     ++ providerName (provider (configOf w)))) /\
  requestsOf (trace w') = requestsOf (trace w) ++ [nextRequest w prompt] /\
  sleepsOf (trace w') = sleepsOf (trace w).
Proof.
  intros -> Ha Ht msg1 msg2.
  pose proof (answersWith_callProvider (emit (EvLog msg1 info) w) prompt text
                msg2 info (answersWith_emit_log _ _ _ msg1 info Ha)) as Hc.
  change (configOf (emit (EvLog msg1 info) w)) with (configOf w) in Hc.
  change (nextRequest (emit (EvLog msg1 info) w) prompt)
    with (nextRequest w prompt) in Hc.
  match goal with
  | |- context [retryWithBackoff ?fn 5 0 ?w0] =>
      assert (Hfn : fn w0
                    = (Throws (Error ("Empty report generated by "
                                      ++ providerName (provider (configOf w)))),
                       emit (EvLog ("Empty report generated by "
                                    ++ providerName (provider (configOf w)))
                               error)
                         (emit (EvLog "Report length" info)
                            (emit (EvLog "Report generated" success)
                               (emit (EvRequest (nextRequest w prompt)) w0)))))
  end.
  { unfold reportOnce, bind. rewrite Hc. unfold log, throw.
    rewrite Ht. reflexivity. }
  rewrite (retryWithBackoff_plain_error _ _ _ _ _ _ Hfn eq_refl).
  split; [reflexivity|]. trace_simpl. split; reflexivity.
Qed.

(** X28.  When the provider answers the request of a report generator with
    a blank text, the generator throws "Empty report generated by" followed
    by the provider's name, after that single request and without any
    sleep: a blank report is not retried. *)
Theorem blank_report_not_retried (data : AnalysisData) (w : World)
  (text : string) :
  trim text = "" ->
  (answersWith w (ReportPrompt data) text ->
   let '(o, w') := generateReportWithGemini data w in
   o = Throws (Error ("Empty report generated by "
                      ++ providerName (provider (configOf w)))) /\
   requestsOf (trace w')
   = requestsOf (trace w) ++ [nextRequest w (ReportPrompt data)] /\
   sleepsOf (trace w') = sleepsOf (trace w)) /\
  (answersWith w (SummaryPrompt data) text ->
   let '(o, w') := generateSummarizedReport data w in
   o = Throws (Error ("Empty report generated by "
                      ++ providerName (provider (configOf w)))) /\
   requestsOf (trace w')
   = requestsOf (trace w) ++ [nextRequest w (SummaryPrompt data)] /\
   sleepsOf (trace w') = sleepsOf (trace w)).
Proof.
  intros Ht. split; intros Ha.
  - unfold generateReportWithGemini, bind.
    rewrite getModelConfig_configOf. unfold log.
    now apply (blank_report_thrown _ _ _ text).
  - unfold generateSummarizedReport, bind.
    rewrite getModelConfig_configOf. unfold log.
    now apply (blank_report_thrown _ _ _ text).
Qed.

Lemma blank_report_not_retried_witness :
  let w := sampleWorld blankServer in
  trim "  " = "" /\
  answersWith w (ReportPrompt sampleData) "  " /\
  fst (generateReportWithGemini sampleData w)
  = Throws (Error "Empty report generated by groq").
Proof.
  intros w.
  assert (Ha : answersWith w (ReportPrompt sampleData) "  ").
  { split; [discriminate|]. exists (Some "  "). split; reflexivity. }
  split; [reflexivity|]. split; [exact Ha|].
  pose proof (proj1 (blank_report_not_retried sampleData w "  " eq_refl) Ha)
    as H.
  destruct (generateReportWithGemini sampleData w) as [o w'].
  exact (proj1 H).
Defined.

Lemma reportOnce_oneRequest config prompt :
  oneRequestNoSleep (reportOnce config prompt).
Proof.
  intros w. unfold reportOnce, bind, log, throw, ret.
  destruct (callProvider_oneRequest config prompt w) as (Hr & Hs).
  destruct (callProvider config prompt w) as [[text|e] w1];
    cbn [snd] in *; [|split; assumption].
  destruct (String.eqb (trim text) ""); cbn [snd]; trace_simpl;
    split; assumption.
Qed.

(** X29.  One call of [generateReportWithGemini] or of
    [generateSummarizedReport] sends at most 6 requests to the provider and
    sleeps at most 5 times, for at most 385 seconds in all, whatever the
    provider answers. *)
Theorem report_generators_bounded (data : AnalysisData) (w : World) :
  callBudget w (snd (generateReportWithGemini data w)) /\
  callBudget w (snd (generateSummarizedReport data w)).
Proof.
  assert (H : forall prompt msg1 msg2,
             callBudget w
               (snd (retryWithBackoff
                       (reportOnce (configOf w) prompt) 5 0
                       (emit (EvLog msg2 info)
                          (emit (EvLog msg1 info) w))))).
  { intros prompt msg1 msg2.
    pose proof (retryFrom_bounds (reportOnce (configOf w) prompt)
                  (reportOnce_oneRequest (configOf w) prompt) 5 5 0
                  (emit (EvLog msg2 info) (emit (EvLog msg1 info) w))
                  (le_n 5)) as B.
    unfold callBudget. cbv zeta in B. revert B.
    unfold retryWithBackoff. trace_simpl. intros B. exact B. }
  split.
  - unfold generateReportWithGemini, bind.
    rewrite getModelConfig_configOf. unfold log. apply H.
  - unfold generateSummarizedReport, bind.
    rewrite getModelConfig_configOf. unfold log. apply H.
Qed.

(** ** What a batch records for each item *)

Lemma recorded_printable o rs :
  Forall printable rs ->
  incl (recorded o) rs ->
  recorded o = [itemResult o].
Proof.
  intros Hp Hin. destruct o as [r|e]; cbn [recorded itemResult] in *;
    [|reflexivity].
  destruct (joinThrows (cr_categories r)) eqn:Hj; [|reflexivity].
  exfalso. rewrite Forall_forall in Hp.
  assert (Hr : printable r) by (apply Hp, Hin; now left).
  unfold printable in Hr. congruence.
Qed.

Lemma batch_before_length JSON_parse total pre ws before :
  fst (batchLoop JSON_parse total 0 pre [] ws) = Returns before ->
  Forall printable before ->
  List.length before = List.length pre.
Proof.
  intros H Hp.
  destruct (batchLoop JSON_parse total 0 pre [] ws) as [o wi] eqn:Hloop.
  cbn [fst] in H. subst o.
  destruct (batchLoop_returns_printable JSON_parse total pre 0 [] ws before wi
              Hloop Hp) as (more & Hm & Hl).
  cbn [app] in Hm. now subst more.
Qed.

(** X30.  When every result a batch returns has categories that [join]
    turns into a text, the list returned is as long as the list of work
    items, and its element at each position [i] is the result of the item
    at position [i]: what the classification of that item returned, or the
    fallback built from what it threw. *)
Theorem batch_results_aligned JSON_parse calls w rs w' :
  batchCategorizeCallsWithProgress JSON_parse calls w = (Returns rs, w') ->
  Forall printable rs ->
  List.length rs = List.length calls /\
  forall i call,
    nth_error calls i = Some call ->
    nth_error rs i = Some (itemResult (itemOutcome JSON_parse calls i call w)).
Proof.
  intros H Hp. split.
  - apply batch_returns_loop in H. destruct H as (w1 & H).
    destruct (batchLoop_returns_printable JSON_parse _ _ _ _ _ _ _ H Hp)
      as (more & -> & Hl). exact Hl.
  - intros i call Hi.
    destruct (batch_results_split JSON_parse calls w rs w' H i call Hi)
      as (_ & before & after & Hb & _ & _ & Hrs).
    assert (Hi' : i < List.length calls)
      by (apply nth_error_Some; congruence).
    subst rs. apply Forall_app in Hp. destruct Hp as (Hpb & Hpr).
    assert (Hlen : List.length before = i).
    { rewrite (batch_before_length _ _ _ _ _ Hb Hpb), length_firstn. lia. }
    rewrite (recorded_printable _
               (recorded (itemOutcome JSON_parse calls i call w) ++ after))
      by (assumption || apply incl_appl, incl_refl).
    rewrite nth_error_app2 by lia.
    now rewrite Hlen, Nat.sub_diag.
Qed.

Lemma batch_results_aligned_witness :
  exists rs w',
    batchCategorizeCallsWithProgress sampleParse [sampleItem; sampleItem]
      (sampleWorld emptyObjectServer) = (Returns rs, w') /\
    Forall printable rs /\
    List.length rs = 2.
Proof.
  eexists. eexists.
  refine ((fun E P => conj E (conj P (proj1 (batch_results_aligned sampleParse
                                     _ _ _ _ E P)))) _ _).
  - vm_compute. reflexivity.
  - repeat constructor.
Defined.

(** X31.  When the classification of item [i] throws an error and the
    batch returns all the same, the error is not the critical one, and the
    fallback built from it (categories ["UNCATEGORIZED - API ERROR"],
    sentiment "neutral", a summary that contains the message of the error)
    is in the list returned: after the results of the items before [i],
    of which there are at least [i] and at most [2 * i], and before at
    least one result for each later item.  It stands at position [i] when
    the results before it are printable. *)
Theorem batch_fallback_recorded JSON_parse calls w rs w' i call e :
  batchCategorizeCallsWithProgress JSON_parse calls w = (Returns rs, w') ->
  nth_error calls i = Some call ->
  itemOutcome JSON_parse calls i call w = Throws e ->
  isCritical e = false /\
  cr_categories (fallbackResult e) = [JStr "UNCATEGORIZED - API ERROR"] /\
  cr_sentiment (fallbackResult e) = "neutral" /\
  includes (cr_summary (fallbackResult e)) (message e) = true /\
  exists before after,
    rs = before ++ fallbackResult e :: after /\
    i <= List.length before <= 2 * i /\
    List.length calls - S i <= List.length after /\
    (Forall printable before -> nth_error rs i = Some (fallbackResult e)).
Proof.
  intros H Hi Ho.
  destruct (batch_results_split JSON_parse calls w rs w' H i call Hi)
    as (Hnc & before & after & Hb & Hl & Ha & Hrs).
  rewrite Ho in Hrs. cbn [recorded app] in Hrs.
  split; [exact (Hnc e Ho)|]. split; [reflexivity|]. split; [reflexivity|].
  split; [apply fallback_summary_includes_message|].
  exists before, after. split; [exact Hrs|]. split; [exact Hl|].
  split; [exact Ha|]. intros Hp.
  assert (Hi' : i < List.length calls)
    by (apply nth_error_Some; congruence).
  assert (Hlen : List.length before = i).
  { rewrite (batch_before_length _ _ _ _ _ Hb Hp), length_firstn. lia. }
  subst rs. rewrite nth_error_app2 by lia.
  now rewrite Hlen, Nat.sub_diag.
Qed.

Lemma batch_fallback_recorded_witness :
  let e := Error "No JSON found in groq response" in
  exists before after,
    fst (batchCategorizeCallsWithProgress objectCategoryParse
           [sampleItem; sampleItem] (sampleWorld objectThenProseServer))
    = Returns (before ++ fallbackResult e :: after) /\
    1 <= List.length before <= 2 * 1.
Proof.
  intros e.
  destruct (batchCategorizeCallsWithProgress objectCategoryParse
              [sampleItem; sampleItem] (sampleWorld objectThenProseServer))
    as [[rs|e'] w'] eqn:H.
  - destruct (batch_fallback_recorded objectCategoryParse
                [sampleItem; sampleItem] (sampleWorld objectThenProseServer)
                rs w' 1 sampleItem e H eq_refl)
      as (_ & _ & _ & _ & before & after & Hrs & Hl & _).
    + vm_compute. reflexivity.
    + exists before, after. cbn [fst]. rewrite Hrs.
      split; [reflexivity | exact Hl].
  - vm_compute in H. discriminate H.
Defined.
